(** * space-modeller: the IFC loading pipeline

    A shallow embedding of

    - [app/core/errors/app-error.ts]            (typed errors),
    - [app/domain/models/ifc-model.model.ts]    (the disposable [IfcModel]),
    - [app/domain/services/ifc-loader.service.ts] ([IfcLoaderService]),
    - [app/core/logging/logger.service.ts]      ([LoggerService]),
    - [app/core/errors/error-handler.service.ts] ([AppErrorHandler]),

    and the properties of the loader that the specification states.

    The service is stateful and talks to two foreign parties: the web-ifc
    engine (a WASM module owning native memory) and the caller's progress
    sink.  Methods are therefore embedded in a state-and-exception monad over
    a [World] that holds the fields of the service, the engine-side heap and
    the chronological trace of every outgoing call.  The two [async] methods
    are cut at their single [await]: a synchronous prefix and a resumption,
    so that interleavings of in-flight calls can be stated. *)

From Stdlib Require Import ZArith NArith List String Ascii Bool Lia Arith.
From Stdlib Require Import DecimalString.
From Stdlib Require Import PrimFloat FloatOps SpecFloat.
Import ListNotations.

Set Implicit Arguments.
Local Open Scope string_scope.
Local Open Scope list_scope.

(* ================================================================== *)
(** * JavaScript numbers *)
(* ================================================================== *)

(** A JS [number] is an IEEE 754 binary64 value.  We use the Standard
    Library's specification floats, on which comparison is a plain
    function, and obtain literals by rounding the decimal exactly as the
    JavaScript parser does. *)
Module Js.

Definition number : Type := spec_float.

Definition NaN : number := S754_nan.

Definition isNaN (x : number) : bool :=
  match x with S754_nan => true | _ => false end.

(** [0], [1] and [0.99] as written in the source. *)
Definition zero : number := Eval vm_compute in Prim2SF 0%float.
Definition one : number := Eval vm_compute in Prim2SF 1%float.
#[warnings="-inexact-float"] Definition lit_0_99 : number := Eval vm_compute in Prim2SF 0.99%float.

(** Literals used by the specification's examples. *)
Definition lit_0_5 : number := Eval vm_compute in Prim2SF 0.5%float.
#[warnings="-inexact-float"] Definition lit_0_995 : number := Eval vm_compute in Prim2SF 0.995%float.
#[warnings="-inexact-float"] Definition lit_0_3 : number := Eval vm_compute in Prim2SF 0.3%float.
#[warnings="-inexact-float"] Definition lit_neg_0_2 : number := Eval vm_compute in Prim2SF (-0.2)%float.
Definition lit_1_5 : number := Eval vm_compute in Prim2SF 1.5%float.

(** [x < y] and [x >= y]: false as soon as an operand is NaN. *)
Definition lt (x y : number) : bool := SFltb x y.
Definition ge (x y : number) : bool := SFleb y x.
Definition le (x y : number) : bool := SFleb x y.

Definition isNegZero (x : number) : bool :=
  match x with S754_zero true => true | _ => false end.

(** [Math.min(a, b)]: NaN if either is NaN, [-0] is below [+0]. *)
Definition Math_min (a b : number) : number :=
  match SFcompare a b with
  | None => NaN
  | Some Lt => a
  | Some Gt => b
  | Some Eq => if isNegZero a then a else b
  end.

(** [Math.max(a, b)]: NaN if either is NaN, [+0] is above [-0]. *)
Definition Math_max (a b : number) : number :=
  match SFcompare a b with
  | None => NaN
  | Some Lt => b
  | Some Gt => a
  | Some Eq => if isNegZero a then b else a
  end.

(** An array length as a number: lengths are integers, and an integer
    becomes the nearest binary64 value. *)
Definition of_nat (n : nat) : number :=
  binary_normalize prec emax (Z.of_nat n) 0 false.

(** [x + y] and [x / y], correctly rounded. *)
Definition add (x y : number) : number := SFadd prec emax x y.
Definition div (x y : number) : number := SFdiv prec emax x y.

(** [3], the item size of a position attribute. *)
Definition three : number := Eval vm_compute in Prim2SF 3%float.

(** [String(n)] for a loop counter. *)
Definition string_of_index (n : nat) : string :=
  NilZero.string_of_uint (Nat.to_uint n).

End Js.

(* ================================================================== *)
(** * Typed errors ([app-error.ts]) *)
(* ================================================================== *)

(** The members of [ErrorCode] that [AppError.getDefaultUserMessage]
    enumerates; the enum's own file only assigns them string values. *)
Inductive ErrorCode : Type :=
  | VIEWER_INIT_FAILED
  | IFC_LOAD_FAILED
  | IFC_PARSE_FAILED
  | WASM_LOAD_FAILED
  | GEOMETRY_PROCESSING_FAILED
  | INVALID_FILE_FORMAT
  | FILE_TOO_LARGE
  | MEMORY_LIMIT_EXCEEDED
  | RENDERER_ERROR
  | CAMERA_ERROR
  | SCENE_ERROR
  | NETWORK_ERROR
  | UNKNOWN_ERROR.

(** Values stored in an error's [context] record. *)
Inductive ContextValue : Type :=
  | CtxString (s : string)
  | CtxNumber (n : N)
  | CtxBool (b : bool).

(** Everything that can be thrown.  [JsError] is [new Error(msg)];
    [TypeError] is what the runtime raises on a property access through
    [null]; [Foreign] is any exception raised by code outside the
    repository (the engine, the 3D library, the progress sink); [AppError]
    is the class of [app-error.ts] with the fields its constructor sets
    ([timestamp] and [userMessage] are derived and omitted). *)
#[warnings="-register-all"] Inductive Exn : Type :=
  | JsError (message : string)
  | TypeError (message : string)
  | Foreign (message : string)
  | AppError (name : string) (code : ErrorCode) (message : string)
             (recoverable : bool)
             (context : list (string * ContextValue))
             (originalError : option Exn).

Definition IfcLoadError (message : string) (originalError : option Exn)
    (context : list (string * ContextValue)) : Exn :=
  AppError "IfcLoadError" IFC_LOAD_FAILED message true context originalError.

Definition WasmLoadError (message : string) (originalError : option Exn)
    (context : list (string * ContextValue)) : Exn :=
  AppError "WasmLoadError" WASM_LOAD_FAILED message false context originalError.

Definition ViewerInitError (message : string) (originalError : option Exn)
    (context : list (string * ContextValue)) : Exn :=
  AppError "ViewerInitError" VIEWER_INIT_FAILED message false context originalError.

Definition exn_recoverable (e : Exn) : option bool :=
  match e with
  | AppError _ _ _ r _ _ => Some r
  | _ => None
  end.

Definition exn_context (e : Exn) : list (string * ContextValue) :=
  match e with
  | AppError _ _ _ _ c _ => c
  | _ => []
  end.

Definition exn_code (e : Exn) : option ErrorCode :=
  match e with
  | AppError _ c _ _ _ _ => Some c
  | _ => None
  end.

Definition exn_original (e : Exn) : option Exn :=
  match e with
  | AppError _ _ _ _ _ o => o
  | _ => None
  end.

(* ================================================================== *)
(** * Logging and progress records *)
(* ================================================================== *)

(** [log-level.enum.ts]. *)
Module LogLevel.
Inductive t : Type := Debug | Info | Warn | Error | None.
End LogLevel.

(** [IfcLoadProgress] of [ifc-model.model.ts]. *)
Inductive Stage : Type := reading | parsing | geometry | rendering | complete.

Record IfcLoadProgress : Type := mkProgress {
  percent : N;
  message : string;
  stage : Stage
}.

(** The caller's sink: it either returns ([None]) or throws. *)
Definition ProgressCallback : Type := IfcLoadProgress -> option Exn.

(* ================================================================== *)
(** * Objects of the 3D library, as far as the repository fills them *)
(* ================================================================== *)

Module THREE.

(** [new THREE.Color(r, g, b)] keeps the three numbers as they are given. *)
Record Color : Type := mkColor { r : Js.number; g : Js.number; b : Js.number }.

Inductive Side : Type := FrontSide | BackSide | DoubleSide.

Record MeshLambertMaterial : Type := mkMaterial {
  color : Color;
  side : Side;
  transparent : bool;
  opacity : Js.number;
  depthWrite : bool
}.

(** [position] has item size 3, [index] item size 1.  Normals and bounds
    are computed by the library from these two and are not stored here. *)
Record BufferGeometry : Type := mkGeometry {
  position : list Js.number;
  index : list N
}.

(** [mesh.material] is one material or an array of them; both it and
    [mesh.geometry] are read through [?.] by [IfcModel.dispose]. *)
Inductive MaterialSlot : Type :=
  | NoMaterial
  | OneMaterial (m : MeshLambertMaterial)
  | MaterialArray (ms : list MeshLambertMaterial).

Record Mesh : Type := mkMesh {
  mesh_geometry : option BufferGeometry;
  mesh_material : MaterialSlot;
  ifcExpressID : nat;               (* userData['ifcExpressID'] *)
  geometryExpressID : nat;          (* userData['geometryExpressID'] *)
  appliedMatrix : list Js.number;   (* the array read by [matrix.fromArray] *)
  frustumCulled : bool;
  castShadow : bool;
  receiveShadow : bool
}.

(** A node of the scene graph: a [Mesh] or a plain [Group], with children. *)
#[warnings="-register-all"] Inductive Object3D : Type :=
  | GroupNode (name : string) (children : list Object3D)
  | MeshNode (mesh : Mesh) (children : list Object3D).

Definition children_of (o : Object3D) : list Object3D :=
  match o with
  | GroupNode _ cs => cs
  | MeshNode _ cs => cs
  end.

(** [group.add(mesh)]. *)
Definition add (o : Object3D) (child : Object3D) : Object3D :=
  match o with
  | GroupNode n cs => GroupNode n (cs ++ [child])
  | MeshNode m cs => MeshNode m (cs ++ [child])
  end.

(** [object.clear()]: drop every child. *)
Definition clear (o : Object3D) : Object3D :=
  match o with
  | GroupNode n _ => GroupNode n []
  | MeshNode m _ => MeshNode m []
  end.

(** A call that releases a GPU-side resource. *)
Inductive DisposeCall : Type :=
  | GeometryDispose (geo : BufferGeometry)
  | MaterialDispose (mat : MeshLambertMaterial).

End THREE.

(* ================================================================== *)
(** * What the engine hands out *)
(* ================================================================== *)

Module WebIfc.

Record Vec4 : Type := mkVec4 {
  x : Js.number; y : Js.number; z : Js.number; w : Js.number
}.

Record PlacedGeometry : Type := mkPlaced {
  color : Vec4;
  geometryExpressID : nat;
  flatTransformation : list Js.number
}.

(** What [GetVertexArray] and [GetIndexArray] return for a geometry;
    [None] is an absent (falsy) array. *)
Record IfcGeometry : Type := mkIfcGeometry {
  vertexArray : option (list Js.number);
  indexArray : option (list N)
}.

(** Where foreign code raises while one placement is processed, by the
    statement of [generateGeometry] that raises:
    - [AtGetGeometry]: the call [GetGeometry] itself (line 162), so no
      geometry object was handed out;
    - [AtReadBuffers]: one of the reads of lines 163-169, with the geometry
      object already held;
    - [AtBuildMesh]: one of the 3D-library calls of lines 176-213, after
      the emptiness check and before [meshes.push].
    [Array.push] and [delete()] on a live object do not raise. *)
Inductive Fault : Type := AtGetGeometry | AtReadBuffers | AtBuildMesh.

(** One entry of [flatMesh.geometries] together with the behaviour of the
    foreign code on it. *)
Record Placement : Type := mkPlacement {
  placed : PlacedGeometry;
  buffers : IfcGeometry;
  fault : option (Fault * Exn)
}.

(** [geometries.get(j)] may be falsy, which the loop skips. *)
Record FlatMesh : Type := mkFlatMesh {
  expressID : nat;
  geometries : list (option Placement)
}.

End WebIfc.

(** The parts of the run that the repository does not decide: the
    engine's verdicts, the clock and the random source. *)
Record Host : Type := mkHost {
  Init_outcome : string -> option Exn;        (* [Init()] rejects with ... *)
  OpenModel_outcome : list Byte.byte -> Exn + nat;
  LoadAllGeometry_outcome : nat -> Exn + list WebIfc.FlatMesh;
  Date_now : N;
  random_suffix : string
}.

(** A browser [File]: [arrayBuffer()] resolves to the bytes or rejects. *)
Record File : Type := mkFile {
  file_name : string;
  file_size : N;
  arrayBuffer : Exn + list Byte.byte
}.

(** [ViewerConfig], reduced to the field the loader reads. *)
Record WasmConfig : Type := mkWasm { path : string; useCdn : bool }.
Record ViewerConfig : Type := mkConfig { wasm : WasmConfig }.

(* ================================================================== *)
(** * The world: service fields, engine heap, trace *)
(* ================================================================== *)

(** The three private fields of [IfcLoaderService]; [ifcApi] is a
    reference to an engine instance. *)
Record LoaderState : Type := mkLoader {
  ifcApi : option nat;
  isInitialized : bool;
  isInitializing : bool
}.

(** Every call that leaves the service, in the order it is made. *)
Inductive Event : Type :=
  | EvNewIfcAPI (ref : nat)
  | EvSetWasmPath (ref : nat) (p : string)
  | EvInit (ref : nat)
  | EvOpenModel (ref : nat) (data : list Byte.byte)
  | EvLoadAllGeometry (ref : nat) (modelID : nat)
  | EvGetGeometry (ref : nat) (modelID : nat) (geometryExpressID : nat)
  | EvGeometryDelete (handle : nat)
  | EvCloseModel (ref : nat) (modelID : nat)
  | EvProgress (p : IfcLoadProgress)
  | EvLog (level : LogLevel.t) (msg : string) (context : string).

Record World : Type := mkWorld {
  loader : LoaderState;
  nextRef : nat;                 (* allocator of object references *)
  openModels : list nat;         (* documents the engine holds open *)
  liveGeometries : list nat;     (* geometry objects not yet deleted *)
  trace : list Event             (* oldest first *)
}.

(* ================================================================== *)
(** * State and exceptions *)
(* ================================================================== *)

Inductive Completion (A : Type) : Type :=
  | Normal (a : A)
  | Throw (e : Exn).
Arguments Normal {A} a.
Arguments Throw {A} e.

Definition M (A : Type) : Type := World -> Completion A * World.

Definition ret {A} (a : A) : M A := fun w => (Normal a, w).

Definition throw {A} (e : Exn) : M A := fun w => (Throw e, w).

Definition bind {A B} (c : M A) (k : A -> M B) : M B :=
  fun w =>
    match c w with
    | (Normal a, w') => k a w'
    | (Throw e, w') => (Throw e, w')
    end.

(** [try { body } catch (e) { handler e }]. *)
Definition tryCatch {A} (body : M A) (handler : Exn -> M A) : M A :=
  fun w =>
    match body w with
    | (Normal a, w') => (Normal a, w')
    | (Throw e, w') => handler e w'
    end.

(** [try { body } finally { fin }]: [fin] runs on both exits and its own
    exception, if any, replaces the completion of [body]. *)
Definition tryFinally {A} (body : M A) (fin : M unit) : M A :=
  fun w =>
    match body w with
    | (c, w') =>
        match fin w' with
        | (Normal _, w'') => (c, w'')
        | (Throw e, w'') => (Throw e, w'')
        end
    end.

Declare Scope js_scope.
Delimit Scope js_scope with js.
Notation "x <- c ;; k" := (bind c (fun x => k))
  (at level 61, c at next level, right associativity) : js_scope.
Notation "c ;; k" := (bind c (fun _ => k))
  (at level 61, right associativity) : js_scope.
Local Open Scope js_scope.

Definition get : M World := fun w => (Normal w, w).

Definition emit (e : Event) : M unit :=
  fun w => (Normal tt,
            mkWorld (loader w) (nextRef w) (openModels w) (liveGeometries w)
                    (trace w ++ [e])).

Definition setLoader (l : LoaderState) : M unit :=
  fun w => (Normal tt,
            mkWorld l (nextRef w) (openModels w) (liveGeometries w) (trace w)).

Definition fresh : M nat :=
  fun w => (Normal (nextRef w),
            mkWorld (loader w) (S (nextRef w)) (openModels w)
                    (liveGeometries w) (trace w)).

Definition setOpenModels (l : list nat) : M unit :=
  fun w => (Normal tt,
            mkWorld (loader w) (nextRef w) l (liveGeometries w) (trace w)).

Definition setLiveGeometries (l : list nat) : M unit :=
  fun w => (Normal tt,
            mkWorld (loader w) (nextRef w) (openModels w) l (trace w)).

(** Assignments to the fields of the service. *)
Definition set_ifcApi (v : option nat) : M unit :=
  w <- get ;;
  setLoader (mkLoader v (isInitialized (loader w)) (isInitializing (loader w))).

Definition set_isInitialized (v : bool) : M unit :=
  w <- get ;;
  setLoader (mkLoader (ifcApi (loader w)) v (isInitializing (loader w))).

Definition set_isInitializing (v : bool) : M unit :=
  w <- get ;;
  setLoader (mkLoader (ifcApi (loader w)) (isInitialized (loader w)) v).

(** [LoggerService]: each method is one outgoing call. *)
Definition logger_debug (msg context : string) : M unit :=
  emit (EvLog LogLevel.Debug msg context).
Definition logger_info (msg context : string) : M unit :=
  emit (EvLog LogLevel.Info msg context).
Definition logger_warn (msg context : string) : M unit :=
  emit (EvLog LogLevel.Warn msg context).
Definition logger_error (msg : string) (error : Exn) (context : string) : M unit :=
  emit (EvLog LogLevel.Error msg context).

(* ================================================================== *)
(** * [IfcModel] ([ifc-model.model.ts]) *)
(* ================================================================== *)

(** [object.traverse(callback)]: the object first, then its descendants
    in order.  The callback's effect is the list of calls it makes. *)
Fixpoint traverse (E : Type) (callback : THREE.Object3D -> list E)
    (o : THREE.Object3D) : list E :=
  callback o ++
  match o with
  | THREE.GroupNode _ cs => flat_map (traverse callback) cs
  | THREE.MeshNode _ cs => flat_map (traverse callback) cs
  end.

(** [metadata.boundingBox] is computed by the 3D library from the group
    and carries no information of the loader's own; it is left out. *)
Record IfcModelMetadata : Type := mkMetadata {
  id : string;
  fileName : string;
  fileSize : N;
  loadedAt : N;
  meshCount : nat;
  vertexCount : Js.number
}.

Record IfcModelData : Type := mkModelData {
  modelGroup : THREE.Object3D;
  metadata : IfcModelMetadata;
  rawData : list Byte.byte
}.

Module IfcModel.

Record t : Type := mk {
  _modelGroup : THREE.Object3D;
  _metadata : IfcModelMetadata;
  _rawData : list Byte.byte;
  _disposed : bool
}.

(** The constructor. *)
Definition new (data : IfcModelData) : t :=
  mk (modelGroup data) (metadata data) (rawData data) false.

Definition ensureNotDisposed (this : t) : Completion unit :=
  if _disposed this
  then Throw (JsError "Cannot access disposed IFC model")
  else Normal tt.

(** The getters. *)
Definition get_modelGroup (this : t) : Completion THREE.Object3D :=
  match ensureNotDisposed this with
  | Throw e => Throw e
  | Normal _ => Normal (_modelGroup this)
  end.

Definition get_metadata (this : t) : Completion IfcModelMetadata :=
  Normal (_metadata this).

Definition get_rawData (this : t) : Completion (list Byte.byte) :=
  match ensureNotDisposed this with
  | Throw e => Throw e
  | Normal _ => Normal (_rawData this)
  end.

Definition get_isDisposed (this : t) : bool := _disposed this.

(** The callback that [dispose] passes to [traverse]. *)
Definition disposeObject (object : THREE.Object3D) : list THREE.DisposeCall :=
  match object with
  | THREE.MeshNode m _ =>
      match THREE.mesh_geometry m with
      | Some geo => [THREE.GeometryDispose geo]
      | None => []
      end ++
      match THREE.mesh_material m with
      | THREE.MaterialArray ms => map THREE.MaterialDispose ms
      | THREE.OneMaterial mat => [THREE.MaterialDispose mat]
      | THREE.NoMaterial => []
      end
  | THREE.GroupNode _ _ => []
  end.

(** [dispose()]: the object afterwards and the release calls it made. *)
Definition dispose (this : t) : t * list THREE.DisposeCall :=
  if _disposed this then (this, [])
  else
    let calls := traverse disposeObject (_modelGroup this) in
    (mk (THREE.clear (_modelGroup this)) (_metadata this) (_rawData this) true,
     calls).

End IfcModel.

(** The meshes that sit anywhere below (or at) an object. *)
Fixpoint meshes_of (o : THREE.Object3D) : list THREE.Mesh :=
  match o with
  | THREE.GroupNode _ cs => flat_map meshes_of cs
  | THREE.MeshNode m cs => m :: flat_map meshes_of cs
  end.

(* ================================================================== *)
(** * [IfcLoaderService] ([ifc-loader.service.ts]) *)
(* ================================================================== *)

(** An [async] method runs to its [await] and either has settled by
    then or is suspended there. *)
Inductive Started (A : Type) : Type :=
  | Settled (a : A)
  | Pending.
Arguments Settled {A} a.
Arguments Pending {A}.

Definition SERVICE : string := "IfcLoaderService".

(** The service as constructed: the field initialisers of lines 16-18. *)
Definition initialLoader : LoaderState := mkLoader None false false.
Definition initialWorld : World := mkWorld initialLoader 0 [] [] [].

(** [Math.max(0, Math.min(1, c))]. *)
Definition clamp01 (c : Js.number) : Js.number :=
  Js.Math_max Js.zero (Js.Math_min Js.one c).

(** Lines 187-201: the material built from a placement's colour. *)
Definition buildMaterial (color : WebIfc.Vec4) : THREE.MeshLambertMaterial :=
  let r := clamp01 (WebIfc.x color) in
  let g := clamp01 (WebIfc.y color) in
  let b := clamp01 (WebIfc.z color) in
  let a := clamp01 (WebIfc.w color) in
  let materialColor := THREE.mkColor r g b in
  THREE.mkMaterial materialColor THREE.DoubleSide
                   (Js.lt a Js.lit_0_99) a (Js.ge a Js.lit_0_99).

(** Lines 176-213: the mesh built from one placement's arrays. *)
Definition buildMesh (flatMesh : WebIfc.FlatMesh) (placedGeometry : WebIfc.PlacedGeometry)
    (verts : list Js.number) (indices : list N) : THREE.Mesh :=
  let bufferGeometry := THREE.mkGeometry verts indices in
  let material := buildMaterial (WebIfc.color placedGeometry) in
  THREE.mkMesh (Some bufferGeometry) (THREE.OneMaterial material)
               (WebIfc.expressID flatMesh)
               (WebIfc.geometryExpressID placedGeometry)
               (WebIfc.flatTransformation placedGeometry)
               true true true.

(** [positions ? positions.count : 0], where the 3D library has set
    [count = array.length / itemSize] with item size 3: a division of
    numbers, so a length that is not a multiple of 3 gives a fraction
    rounded to binary64.  The meshes that reach [countVertices] are the
    ones [generateGeometry] has built, which all have a geometry. *)
Definition positionCount (mesh : THREE.Mesh) : Js.number :=
  match THREE.mesh_geometry mesh with
  | Some geo => Js.div (Js.of_nat (List.length (THREE.position geo))) Js.three
  | None => Js.zero
  end.

(** [meshes.reduce((count, mesh) => count + ..., 0)]: a left-to-right
    sum of numbers, each addition rounded. *)
Definition countVertices (meshes : list THREE.Mesh) : Js.number :=
  fold_left (fun count mesh => Js.add count (positionCount mesh)) meshes Js.zero.

Section Loader.

Variable host : Host.

(** ** Calls into the engine *)

Definition new_IfcAPI : M nat :=
  ref <- fresh ;;
  emit (EvNewIfcAPI ref) ;;
  ret ref.

Definition SetWasmPath (api : nat) (p : string) : M unit :=
  emit (EvSetWasmPath api p).

(** The call of [Init()], which returns a promise at once. *)
Definition Init (api : nat) : M unit :=
  emit (EvInit api).

Definition OpenModel (api : nat) (data : list Byte.byte) : M nat :=
  emit (EvOpenModel api data) ;;
  match OpenModel_outcome host data with
  | inl e => throw e
  | inr modelID =>
      w <- get ;;
      setOpenModels (modelID :: openModels w) ;;
      ret modelID
  end.

Definition CloseModel (api : nat) (modelID : nat) : M unit :=
  emit (EvCloseModel api modelID) ;;
  w <- get ;;
  setOpenModels (remove Nat.eq_dec modelID (openModels w)).

Definition LoadAllGeometry (api : nat) (modelID : nat) : M (list WebIfc.FlatMesh) :=
  emit (EvLoadAllGeometry api modelID) ;;
  match LoadAllGeometry_outcome host modelID with
  | inl e => throw e
  | inr flatMeshes => ret flatMeshes
  end.

(** [GetGeometry] hands out a fresh foreign object unless it raises. *)
Definition GetGeometry (api modelID : nat) (p : WebIfc.Placement) : M nat :=
  emit (EvGetGeometry api modelID (WebIfc.geometryExpressID (WebIfc.placed p))) ;;
  match WebIfc.fault p with
  | Some (WebIfc.AtGetGeometry, e) => throw e
  | _ =>
      handle <- fresh ;;
      w <- get ;;
      setLiveGeometries (handle :: liveGeometries w) ;;
      ret handle
  end.

(** [geometry.delete()]. *)
Definition geometry_delete (handle : nat) : M unit :=
  emit (EvGeometryDelete handle) ;;
  w <- get ;;
  setLiveGeometries (remove Nat.eq_dec handle (liveGeometries w)).

(** Lines 163-169: reading the buffers out of the held geometry. *)
Definition readBuffers (p : WebIfc.Placement)
  : M (option (list Js.number) * option (list N)) :=
  match WebIfc.fault p with
  | Some (WebIfc.AtReadBuffers, e) => throw e
  | _ => ret (WebIfc.vertexArray (WebIfc.buffers p),
              WebIfc.indexArray (WebIfc.buffers p))
  end.

(** Lines 176-213: the calls into the 3D library for this placement. *)
Definition constructMesh (flatMesh : WebIfc.FlatMesh) (p : WebIfc.Placement)
    (verts : list Js.number) (indices : list N) : M THREE.Mesh :=
  match WebIfc.fault p with
  | Some (WebIfc.AtBuildMesh, e) => throw e
  | _ => ret (buildMesh flatMesh (WebIfc.placed p) verts indices)
  end.

(** [!verts || !indices || verts.length === 0 || indices.length === 0] *)
Definition nothingToRender (verts : option (list Js.number))
    (indices : option (list N)) : bool :=
  match verts, indices with
  | Some v, Some i => (List.length v =? 0)%nat || (List.length i =? 0)%nat
  | _, _ => true
  end.

(** ** [initialize] (lines 20-52) *)

(** Up to and including the call [this.ifcApi.Init()]. *)
Definition initialize_start (config : ViewerConfig) : M (Started unit) :=
  w <- get ;;
  if isInitializing (loader w) then
    throw (JsError "IFC Loader initialization already in progress")
  else if isInitialized (loader w) then
    logger_debug "IFC Loader already initialized" SERVICE ;;
    ret (Settled tt)
  else
    set_isInitializing true ;;
    logger_info "Initializing IFC Loader" SERVICE ;;
    api <- new_IfcAPI ;;
    set_ifcApi (Some api) ;;
    SetWasmPath api (path (wasm config)) ;;
    Init api ;;
    ret Pending.

(** From the settlement of [Init()] to the end: the rest of the [try]
    block, its [catch] and its [finally]. *)
Definition initialize_resume (config : ViewerConfig) (settled : option Exn) : M unit :=
  tryFinally
    (tryCatch
       (match settled with
        | Some e => throw e
        | None => ret tt
        end ;;
        set_isInitialized true ;;
        logger_info "IFC Loader initialized successfully" SERVICE)
       (fun error =>
          logger_error "Failed to initialize IFC Loader" error SERVICE ;;
          set_ifcApi None ;;
          throw (WasmLoadError "Failed to initialize web-ifc WASM module"
                               (Some error)
                               [("wasmPath", CtxString (path (wasm config)))])))
    (set_isInitializing false).

(** A call that nothing interleaves with. *)
Definition initialize (config : ViewerConfig) : M unit :=
  s <- initialize_start config ;;
  match s with
  | Settled _ => ret tt
  | Pending => initialize_resume config (Init_outcome host (path (wasm config)))
  end.

(** ** [ensureInitialized] (lines 233-240) *)

Definition hasApi (l : LoaderState) : bool :=
  match ifcApi l with Some _ => true | None => false end.

Definition ensureInitialized : M unit :=
  w <- get ;;
  if negb (isInitialized (loader w)) || negb (hasApi (loader w)) then
    throw (IfcLoadError "IFC Loader not initialized" None
             [("isInitialized", CtxBool (isInitialized (loader w)));
              ("hasApi", CtxBool (hasApi (loader w)))])
  else ret tt.

(** ** [generateGeometry] (lines 146-231) *)

(** The body of the inner loop for a non-null entry: the [try] block of
    lines 161-217 and the [catch] of lines 218-225.  [meshes] is the array
    being filled; the result is the array after this iteration. *)
Definition processPlacement (api modelID : nat) (i j : nat)
    (flatMesh : WebIfc.FlatMesh) (p : WebIfc.Placement)
    (meshes : list THREE.Mesh) : M (list THREE.Mesh) :=
  tryCatch
    (geometry <- GetGeometry api modelID p ;;
     arrays <- readBuffers p ;;
     match arrays with
     | (Some verts, Some indices) =>
         if nothingToRender (Some verts) (Some indices) then
           geometry_delete geometry ;;
           ret meshes
         else
           mesh <- constructMesh flatMesh p verts indices ;;
           geometry_delete geometry ;;
           ret (meshes ++ [mesh])
     | (_, _) =>
         geometry_delete geometry ;;
         ret meshes
     end)
    (fun error =>
       logger_warn ("Error processing geometry " ++ Js.string_of_index j ++
                    " of mesh " ++ Js.string_of_index i)%string SERVICE ;;
       ret meshes).

(** [for (let j = ...; j < flatMesh.geometries.size(); j++)], started at
    [j] with the entries from [j] on. *)
Fixpoint forGeometries (api modelID : nat) (i : nat) (flatMesh : WebIfc.FlatMesh)
    (j : nat) (entries : list (option WebIfc.Placement))
    (meshes : list THREE.Mesh) : M (list THREE.Mesh) :=
  match entries with
  | [] => ret meshes
  | None :: rest => forGeometries api modelID i flatMesh (S j) rest meshes
  | Some p :: rest =>
      meshes' <- processPlacement api modelID i j flatMesh p meshes ;;
      forGeometries api modelID i flatMesh (S j) rest meshes'
  end.

(** [for (let i = ...; i < flatMeshes.size(); i++)]. *)
Fixpoint forFlatMeshes (api modelID : nat) (i : nat)
    (flatMeshes : list WebIfc.FlatMesh)
    (meshes : list THREE.Mesh) : M (list THREE.Mesh) :=
  match flatMeshes with
  | [] => ret meshes
  | flatMesh :: rest =>
      meshes' <- forGeometries api modelID i flatMesh 0
                               (WebIfc.geometries flatMesh) meshes ;;
      forFlatMeshes api modelID (S i) rest meshes'
  end.

Definition generateGeometry (modelID : nat) : M (list THREE.Mesh) :=
  w <- get ;;
  match ifcApi (loader w) with
  | None => throw (JsError "IFC API not initialized")
  | Some api =>
      flatMeshes <- LoadAllGeometry api modelID ;;
      meshes <- forFlatMeshes api modelID 0 flatMeshes [] ;;
      logger_debug ("Generated " ++ Js.string_of_index (List.length meshes) ++
                    " meshes from IFC model")%string SERVICE ;;
      ret meshes
  end.

(** ** [loadIfcFile] (lines 54-144) *)

(** [onProgress?.(p)]: nothing without a sink; with one, the call is
    made and the sink's exception, if any, propagates. *)
Definition report (onProgress : option ProgressCallback) (p : IfcLoadProgress) : M unit :=
  match onProgress with
  | None => ret tt
  | Some callback =>
      emit (EvProgress p) ;;
      match callback p with
      | Some e => throw e
      | None => ret tt
      end
  end.

(** [this.ifcApi!.member]: the non-null assertion is erased at run time,
    so a null field makes the property access raise. *)
Definition ifcApi_bang (member : string) : M nat :=
  w <- get ;;
  match ifcApi (loader w) with
  | Some api => ret api
  | None =>
      throw (TypeError ("Cannot read properties of null (reading '" ++ member ++ "')")%string)
  end.

(** [this.generateModelId()]; [toString(36).substr(2, 9)] of the random
    number is the host's [random_suffix]. *)
Definition generateModelId : string :=
  ("model-" ++ NilZero.string_of_uint (N.to_uint (Date_now host)) ++ "-" ++
   random_suffix host)%string.

(** The [catch] block of lines 133-143. *)
Definition loadFailed {A : Type} (file : File) (error : Exn) : M A :=
  logger_error "Failed to load IFC file" error SERVICE ;;
  throw (IfcLoadError ("Failed to load IFC file: " ++ file_name file)%string
                      (Some error)
                      [("fileName", CtxString (file_name file));
                       ("fileSize", CtxNumber (file_size file))]).

(** Up to and including the call [file.arrayBuffer()]. *)
Definition loadIfcFile_start (file : File) (onProgress : option ProgressCallback)
  : M (Started IfcModel.t) :=
  ensureInitialized ;;
  logger_info "Loading IFC file" SERVICE ;;
  tryCatch
    (report onProgress (mkProgress 10 "Reading file..." reading) ;;
     ret Pending)
    (loadFailed file).

(** From the settlement of [file.arrayBuffer()] to the end. *)
Definition loadIfcFile_resume (file : File) (onProgress : option ProgressCallback)
  : M IfcModel.t :=
  tryCatch
    (data <- match arrayBuffer file with
             | inl e => throw e
             | inr bytes => ret bytes
             end ;;
     report onProgress (mkProgress 30 "Opening IFC model..." parsing) ;;
     api <- ifcApi_bang "OpenModel" ;;
     modelID <- OpenModel api data ;;
     report onProgress (mkProgress 50 "Generating geometry..." geometry) ;;
     let modelGroup0 := THREE.GroupNode (file_name file) [] in
     meshes <- generateGeometry modelID ;;
     let modelGroup :=
       fold_left (fun group mesh => THREE.add group (THREE.MeshNode mesh []))
                 meshes modelGroup0 in
     report onProgress (mkProgress 90 "Finalizing..." rendering) ;;
     let metadata :=
       mkMetadata generateModelId (file_name file) (file_size file)
                  (Date_now host) (List.length meshes) (countVertices meshes) in
     api' <- ifcApi_bang "CloseModel" ;;
     CloseModel api' modelID ;;
     report onProgress (mkProgress 100 "Complete" complete) ;;
     logger_info "IFC file loaded successfully" SERVICE ;;
     ret (IfcModel.new (mkModelData modelGroup metadata data)))
    (loadFailed file).

(** A call that nothing interleaves with. *)
Definition loadIfcFile (file : File) (onProgress : option ProgressCallback)
  : M IfcModel.t :=
  s <- loadIfcFile_start file onProgress ;;
  match s with
  | Settled model => ret model
  | Pending => loadIfcFile_resume file onProgress
  end.

(** ** [dispose] (lines 253-258) *)

Definition dispose : M unit :=
  set_ifcApi None ;;
  set_isInitialized false ;;
  set_isInitializing false ;;
  logger_info "IFC Loader disposed" SERVICE.

(** ** The service over time *)

(** One uninterrupted stretch of a method of the service.  Between two
    stretches the scheduler may run any other one. *)
Inductive LoaderStep : World -> World -> Prop :=
  | step_initialize_start config w c w' :
      initialize_start config w = (c, w') -> LoaderStep w w'
  | step_initialize_resume config settled w c w' :
      initialize_resume config settled w = (c, w') -> LoaderStep w w'
  | step_load_start file onProgress w c w' :
      loadIfcFile_start file onProgress w = (c, w') -> LoaderStep w w'
  | step_load_resume file onProgress w c w' :
      loadIfcFile_resume file onProgress w = (c, w') -> LoaderStep w w'
  | step_dispose w c w' :
      dispose w = (c, w') -> LoaderStep w w'.

Inductive Reachable : World -> Prop :=
  | reach_initial : Reachable initialWorld
  | reach_step w w' : Reachable w -> LoaderStep w w' -> Reachable w'.

End Loader.

(* ================================================================== *)
(** * Observations on a run *)
(* ================================================================== *)

(** What the progress sink received, in order. *)
Fixpoint progressEvents (t : list Event) : list IfcLoadProgress :=
  match t with
  | [] => []
  | EvProgress p :: rest => p :: progressEvents rest
  | _ :: rest => progressEvents rest
  end.

(** How often the engine bootstrap has been started. *)
Fixpoint bootstrapCalls (t : list Event) : nat :=
  match t with
  | [] => 0
  | EvInit _ :: rest => S (bootstrapCalls rest)
  | _ :: rest => bootstrapCalls rest
  end.

Definition isCloseModel (modelID : nat) (e : Event) : bool :=
  match e with
  | EvCloseModel _ m => Nat.eqb m modelID
  | _ => false
  end.

Definition isGeometryDelete (handle : nat) (e : Event) : bool :=
  match e with
  | EvGeometryDelete h => Nat.eqb h handle
  | _ => false
  end.

(** A placement from which a mesh comes out: present, with both arrays
    non-empty, and nothing raising on it. *)
Definition convertible (entry : option WebIfc.Placement) : bool :=
  match entry with
  | None => false
  | Some p =>
      match WebIfc.fault p with
      | Some _ => false
      | None =>
          negb (nothingToRender (WebIfc.vertexArray (WebIfc.buffers p))
                                (WebIfc.indexArray (WebIfc.buffers p)))
      end
  end.

(** A placement on which foreign code does raise: a fault in the
    3D-library calls is only reached when there is something to render. *)
Definition throwing (entry : option WebIfc.Placement) : bool :=
  match entry with
  | Some p =>
      match WebIfc.fault p with
      | Some (WebIfc.AtBuildMesh, _) =>
          negb (nothingToRender (WebIfc.vertexArray (WebIfc.buffers p))
                                (WebIfc.indexArray (WebIfc.buffers p)))
      | Some _ => true
      | None => false
      end
  | None => false
  end.

(** All placements of a document, part after part. *)
Definition placements (flatMeshes : list WebIfc.FlatMesh) : list (option WebIfc.Placement) :=
  flat_map WebIfc.geometries flatMeshes.

(** The entry that the loops reach with counters [i] and [j]. *)
Definition placementAt (flatMeshes : list WebIfc.FlatMesh) (i j : nat)
  : option (option WebIfc.Placement) :=
  match nth_error flatMeshes i with
  | Some flatMesh => nth_error (WebIfc.geometries flatMesh) j
  | None => None
  end.

(** Relations between the world before and after a computation. *)
Definition sameLoader (w w' : World) : Prop := loader w' = loader w.
Definition sameOpenModels (w w' : World) : Prop := openModels w' = openModels w.
Definition sameProgress (w w' : World) : Prop :=
  progressEvents (trace w') = progressEvents (trace w).
Definition traceGrows (w w' : World) : Prop :=
  exists t, trace w' = trace w ++ t.

(** [Keeps R c]: whatever the start and the completion, [c] relates the
    world it leaves to the world it found. *)
Definition Keeps (R : World -> World -> Prop) (A : Type) (c : M A) : Prop :=
  forall w, R w (snd (c w)).

(** The material slots of a mesh, as [dispose] walks them. *)
Definition materials_of (mesh : THREE.Mesh) : list THREE.MeshLambertMaterial :=
  match THREE.mesh_material mesh with
  | THREE.NoMaterial => []
  | THREE.OneMaterial m => [m]
  | THREE.MaterialArray ms => ms
  end.

(** The five checkpoints of a load. *)
Definition checkpoints : list IfcLoadProgress :=
  [ mkProgress 10 "Reading file..." reading;
    mkProgress 30 "Opening IFC model..." parsing;
    mkProgress 50 "Generating geometry..." geometry;
    mkProgress 90 "Finalizing..." rendering;
    mkProgress 100 "Complete" complete ].

(** The message of the warning for the placement at counters [i], [j]. *)
Definition placementWarning (i j : nat) : Event :=
  EvLog LogLevel.Warn
        ("Error processing geometry " ++ Js.string_of_index j ++
         " of mesh " ++ Js.string_of_index i)%string
        SERVICE.

(** A placement whose arrays can be read: nothing raises before the
    emptiness check. *)
Definition readable (p : WebIfc.Placement) : bool :=
  match WebIfc.fault p with
  | Some (WebIfc.AtGetGeometry, _) => false
  | Some (WebIfc.AtReadBuffers, _) => false
  | _ => true
  end.

(** The loader's precondition for [loadIfcFile]. *)
Definition ready (l : LoaderState) : bool := isInitialized l && hasApi l.

(** The mesh, if any, that one entry of [flatMesh.geometries] yields. *)
Definition meshFrom (flatMesh : WebIfc.FlatMesh) (entry : option WebIfc.Placement)
  : list THREE.Mesh :=
  match entry with
  | Some p =>
      match WebIfc.fault p, WebIfc.vertexArray (WebIfc.buffers p),
            WebIfc.indexArray (WebIfc.buffers p) with
      | None, Some verts, Some indices =>
          if nothingToRender (Some verts) (Some indices) then []
          else [buildMesh flatMesh (WebIfc.placed p) verts indices]
      | _, _, _ => []
      end
  | None => []
  end.

(** The meshes of a whole document, in loop order. *)
Definition meshesOfDocument (flatMeshes : list WebIfc.FlatMesh) : list THREE.Mesh :=
  flat_map (fun flatMesh => flat_map (meshFrom flatMesh) (WebIfc.geometries flatMesh))
           flatMeshes.

Arguments Js.string_of_index : simpl never.
Arguments generateGeometry : simpl never.

(** While a setup is in flight the loader does not count as initialized. *)
Definition flagsConsistent (w : World) : Prop :=
  isInitializing (loader w) = true -> isInitialized (loader w) = false.

(** ** Sample data *)

(** [DEFAULT_VIEWER_CONFIG] of [viewer-config.model.ts]. *)
Definition DEFAULT_VIEWER_CONFIG : ViewerConfig :=
  mkConfig (mkWasm "https://unpkg.com/web-ifc@0.0.73/" true).

(** A host on which everything works and every file opens as [doc]. *)
Definition workingHost (doc : list WebIfc.FlatMesh) : Host :=
  mkHost (fun _ => None) (fun _ => inr 1) (fun _ => inr doc) 1700000000000 "k3j9x0q2a".

(** A host whose engine cannot be bootstrapped. *)
Definition brokenHost : Host :=
  mkHost (fun _ => Some (Foreign "wasm fetch failed")) (fun _ => inr 1)
         (fun _ => inr []) 1700000000000 "k3j9x0q2a".

(** A loader after a successful [initialize]. *)
Definition readyWorld : World :=
  snd (initialize (workingHost []) DEFAULT_VIEWER_CONFIG initialWorld).

(** A loader whose [initialize] is suspended at [Init()]. *)
Definition initializingWorld : World :=
  snd (initialize_start DEFAULT_VIEWER_CONFIG initialWorld).

Definition sampleFile : File :=
  mkFile "house.ifc" 4 (inr [Byte.x49; Byte.x53; Byte.x4f; Byte.x2d]).

(** A sink that only listens. *)
Definition listeningSink : ProgressCallback := fun _ => None.

(** A document of three placements in one part: one without indices, one
    half transparent, one opaque (the specification's scenario). *)
Definition triangle : WebIfc.IfcGeometry :=
  WebIfc.mkIfcGeometry
    (Some [Js.zero; Js.zero; Js.zero; Js.one; Js.zero; Js.zero; Js.zero; Js.one; Js.zero])
    (Some [0%N; 1%N; 2%N]).

Definition noIndices : WebIfc.IfcGeometry :=
  WebIfc.mkIfcGeometry (Some [Js.zero; Js.zero; Js.zero]) (Some []).

Definition placedWithAlpha (geometryExpressID : nat) (alpha : Js.number)
  : WebIfc.PlacedGeometry :=
  WebIfc.mkPlaced (WebIfc.mkVec4 Js.lit_1_5 Js.lit_neg_0_2 Js.lit_0_5 alpha)
                  geometryExpressID [].

Definition scenarioDocument : list WebIfc.FlatMesh :=
  [ WebIfc.mkFlatMesh 100
      [ Some (WebIfc.mkPlacement (placedWithAlpha 11 Js.one) noIndices None);
        Some (WebIfc.mkPlacement (placedWithAlpha 12 Js.lit_0_3) triangle None);
        Some (WebIfc.mkPlacement (placedWithAlpha 13 Js.one) triangle None) ] ].

(** A placement whose colour has no red and no alpha: both are NaN. *)
Definition colourlessPlacement : WebIfc.Placement :=
  WebIfc.mkPlacement
    (WebIfc.mkPlaced (WebIfc.mkVec4 Js.NaN Js.lit_1_5 Js.zero Js.NaN) 15 [])
    triangle None.

Definition colourlessDocument : list WebIfc.FlatMesh :=
  [ WebIfc.mkFlatMesh 100 [ Some colourlessPlacement ] ].

(** A placement on which the 3D library raises after the geometry object
    was handed out. *)
Definition faultyPlacement : WebIfc.Placement :=
  WebIfc.mkPlacement (placedWithAlpha 14 Js.one) triangle
                     (Some (WebIfc.AtBuildMesh, Foreign "Invalid typed array length")).

(** The model that [loadIfcFile] returns when it has converted [meshes]
    out of the bytes [data] (lines 89-132). *)
Definition assembled (host : Host) (file : File) (data : list Byte.byte)
    (meshes : list THREE.Mesh) : IfcModel.t :=
  IfcModel.new
    (mkModelData
       (fold_left (fun group mesh => THREE.add group (THREE.MeshNode mesh []))
                  meshes (THREE.GroupNode (file_name file) []))
       (mkMetadata (generateModelId host) (file_name file) (file_size file)
                   (Date_now host) (List.length meshes) (countVertices meshes))
       data).

(** A progress sink, if there is one, that never throws. *)
Definition quietSink (onProgress : option ProgressCallback) : Prop :=
  forall sink p, onProgress = Some sink -> sink p = None.

(** A host whose engine opens the file but fails to walk its geometry. *)
Definition corruptHost : Host :=
  mkHost (fun _ => None) (fun _ => inr 1)
         (fun _ => inl (Foreign "LoadAllGeometry: malformed entity graph"))
         1700000000000 "k3j9x0q2a".

(** A document whose second placement raises in the 3D library. *)
Definition faultyDocument : list WebIfc.FlatMesh :=
  [ WebIfc.mkFlatMesh 100
      [ Some (WebIfc.mkPlacement (placedWithAlpha 12 Js.lit_0_3) triangle None);
        Some faultyPlacement;
        Some (WebIfc.mkPlacement (placedWithAlpha 13 Js.one) triangle None) ] ].

(** A channel that holds a number. *)
Definition isNumber (c : Js.number) : Prop := Js.isNaN c = false.

(** [0 <= c <= 1]. *)
Definition inUnitInterval (c : Js.number) : Prop :=
  Js.le Js.zero c = true /\ Js.le c Js.one = true.

(** The model that a load of the scenario returns. *)
Definition scenarioModel : IfcModel.t :=
  assembled (workingHost scenarioDocument) sampleFile
            [Byte.x49; Byte.x53; Byte.x4f; Byte.x2d]
            (meshesOfDocument scenarioDocument).

(** A mesh whose position array has a single component. *)
Definition singleComponentMesh : THREE.Mesh :=
  buildMesh (WebIfc.mkFlatMesh 100 []) (placedWithAlpha 12 Js.one)
            [Js.zero] [0%N].

(** Induction on a scene graph, with the hypothesis for every child. *)
Section Object3D_induction.

Variable P : THREE.Object3D -> Prop.
Hypothesis P_group : forall name children,
  Forall P children -> P (THREE.GroupNode name children).
Hypothesis P_mesh : forall mesh children,
  Forall P children -> P (THREE.MeshNode mesh children).

Fixpoint Object3D_nested_ind (o : THREE.Object3D) : P o :=
  let all :=
    fix all (l : list THREE.Object3D) : Forall P l :=
      match l with
      | [] => Forall_nil P
      | c :: l' => Forall_cons c (Object3D_nested_ind c) (all l')
      end in
  match o with
  | THREE.GroupNode name children => P_group name (all children)
  | THREE.MeshNode mesh children => P_mesh mesh (all children)
  end.

End Object3D_induction.

(** ** Further observations *)

(** How often [logger.error] was called. *)
Fixpoint errorLogs (t : list Event) : nat :=
  match t with
  | [] => 0
  | EvLog LogLevel.Error _ _ :: rest => S (errorLogs rest)
  | _ :: rest => errorLogs rest
  end.

Definition sameErrorLogs (w w' : World) : Prop :=
  errorLogs (trace w') = errorLogs (trace w).

(** The provenance tags that [generateGeometry] writes into
    [mesh.userData] (lines 204-205). *)
Definition tagsOf (mesh : THREE.Mesh) : nat * nat :=
  (THREE.ifcExpressID mesh, THREE.geometryExpressID mesh).

(** The tags of the convertible placements of one part, in loop order. *)
Definition expectedTags (flatMesh : WebIfc.FlatMesh) : list (nat * nat) :=
  flat_map
    (fun entry =>
       match entry with
       | Some p =>
           if convertible entry
           then [(WebIfc.expressID flatMesh,
                  WebIfc.geometryExpressID (WebIfc.placed p))]
           else []
       | None => []
       end)
    (WebIfc.geometries flatMesh).

(** Every live geometry handle was handed out by the allocator. *)
Definition handlesFresh (w : World) : Prop :=
  Forall (fun handle => handle < nextRef w) (liveGeometries w).

(** The number of position components of a mesh. *)
Definition positionComponents (mesh : THREE.Mesh) : nat :=
  match THREE.mesh_geometry mesh with
  | Some geo => List.length (THREE.position geo)
  | None => 0
  end.

(** What [dispose] releases for one mesh: its geometry, then its
    material or materials. *)
Definition releasesOf (mesh : THREE.Mesh) : list THREE.DisposeCall :=
  match THREE.mesh_geometry mesh with
  | Some geo => [THREE.GeometryDispose geo]
  | None => []
  end ++ map THREE.MaterialDispose (materials_of mesh).

(** The event that [onProgress?.(p)] leaves in the trace. *)
Definition said (onProgress : option ProgressCallback) (p : IfcLoadProgress)
  : list Event :=
  match onProgress with
  | Some _ => [EvProgress p]
  | None => []
  end.

(** A placement on which foreign code raises while the geometry object
    is held. *)
Definition leaks (entry : option WebIfc.Placement) : bool :=
  match entry with
  | Some p =>
      match WebIfc.fault p with
      | Some (WebIfc.AtGetGeometry, _) => false
      | _ => throwing entry
      end
  | None => false
  end.

(** The world in which [loadIfcFile] resumes after [file.arrayBuffer()]
    when nothing else ran in between. *)
Definition afterStart (onProgress : option ProgressCallback) (w : World) : World :=
  mkWorld (loader w) (nextRef w) (openModels w) (liveGeometries w)
          (trace w ++ [EvLog LogLevel.Info "Loading IFC file" SERVICE] ++
           said onProgress (mkProgress 10 "Reading file..." reading)).

(** The world in which the geometry stage of a load starts. *)
Definition beforeGeometry (onProgress : option ProgressCallback) (api modelID : nat)
    (data : list Byte.byte) (w : World) : World :=
  mkWorld (loader w) (nextRef w) (modelID :: openModels w) (liveGeometries w)
          (trace w ++
           said onProgress (mkProgress 30 "Opening IFC model..." parsing) ++
           [EvOpenModel api data] ++
           said onProgress (mkProgress 50 "Generating geometry..." geometry)).

(** The world that a load leaves when the geometry stage left [w4]. *)
Definition afterGeometry (onProgress : option ProgressCallback) (api modelID : nat)
    (w4 : World) : World :=
  mkWorld (loader w4) (nextRef w4)
          (remove Nat.eq_dec modelID (openModels w4)) (liveGeometries w4)
          (trace w4 ++
           said onProgress (mkProgress 90 "Finalizing..." rendering) ++
           [EvCloseModel api modelID] ++
           said onProgress (mkProgress 100 "Complete" complete) ++
           [EvLog LogLevel.Info "IFC file loaded successfully" SERVICE]).

(** The calls that the geometry stage makes: engine calls on
    geometries, and warnings and debug messages to the logger. *)
Definition geometryStageEvent (e : Event) : bool :=
  match e with
  | EvLoadAllGeometry _ _ => true
  | EvGetGeometry _ _ _ => true
  | EvGeometryDelete _ => true
  | EvLog LogLevel.Warn _ _ => true
  | EvLog LogLevel.Debug _ _ => true
  | _ => false
  end.

(** The trace grew by calls of the geometry stage only. *)
Definition stageOnly (w w' : World) : Prop :=
  exists t, trace w' = trace w ++ t /\ forallb geometryStageEvent t = true.

(** [Reports cps c]: whatever the start, the progress events that [c]
    adds are a prefix of [cps], and all of [cps] if [c] completes
    normally. *)
Definition Reports (cps : list IfcLoadProgress) (A : Type) (c : M A) : Prop :=
  forall w,
    exists n,
      n <= List.length cps
      /\ progressEvents (trace (snd (c w)))
         = progressEvents (trace w) ++ firstn n cps
      /\ (forall a, fst (c w) = Normal a -> n = List.length cps).

(** Freshness of the live handles survives. *)
Definition staysFresh (w w' : World) : Prop :=
  handlesFresh w -> handlesFresh w'.

(* ================================================================== *)
(** * [LoggerService] ([logger.service.ts]) *)
(* ================================================================== *)

Module Logger.

(** [LogEntry] of [log-level.enum.ts]; the [data] field is of type
    [unknown], is only passed on, and is left out. *)
Record LogEntry : Type := mkEntry {
  timestamp : N;
  level : LogLevel.t;
  message : string;
  context : option string;
  error : option Exn
}.

(** The parts of [environment] that the logger reads. *)
Record LoggingConfig : Type := mkLogging {
  enabled : bool;
  levelName : string;
  sendToServer : bool
}.

Record Environment : Type := mkEnvironment {
  apiUrl : option string;
  logging : LoggingConfig
}.

(** The numeric values of the enum [LogLevel]. *)
Definition levelNumber (l : LogLevel.t) : nat :=
  match l with
  | LogLevel.Debug => 0
  | LogLevel.Info => 1
  | LogLevel.Warn => 2
  | LogLevel.Error => 3
  | LogLevel.None => 4
  end.

Inductive ConsoleMethod : Type :=
  | console_debug | console_info | console_warn | console_error.

(** One call of a [console] method: the formatted line and, for
    [console.error], the error object passed along. *)
Record ConsoleCall : Type := mkConsoleCall {
  method : ConsoleMethod;
  text : string;
  shown : option Exn
}.

(** The fields of the service, the console and the requests sent. *)
Record State : Type := mkState {
  logHistory : list LogEntry;
  minLevel : LogLevel.t;
  console : list ConsoleCall;
  posted : list LogEntry
}.

Definition maxHistorySize : nat := 100.

(** A string or [undefined] used as a condition: [undefined] and the
    empty string are falsy. *)
Definition truthy (s : option string) : bool :=
  match s with
  | Some text => negb (String.eqb text "")
  | None => false
  end.

Section Runtime.

(** [String.prototype.toLowerCase] of the runtime, and the environment
    file that the build selects. *)
Variable toLowerCase : string -> string.
Variable environment : Environment.

(** [getLogLevelFromString] (the [switch] with its [default]). *)
Definition getLogLevelFromString (name : string) : LogLevel.t :=
  let lowered := toLowerCase name in
  if String.eqb lowered "debug" then LogLevel.Debug
  else if String.eqb lowered "info" then LogLevel.Info
  else if String.eqb lowered "warn" then LogLevel.Warn
  else if String.eqb lowered "error" then LogLevel.Error
  else LogLevel.Info.

(** The service as constructed. *)
Definition new : State :=
  mkState [] (getLogLevelFromString (levelName (logging environment))) [] [].

(** [logToConsole]: the line and the console method by level; there is
    no [case] for [LogLevel.None]. *)
Definition logToConsole (entry : LogEntry) : list ConsoleCall :=
  let prefix :=
    ("[" ++ match level entry with
            | LogLevel.Debug => "DEBUG"
            | LogLevel.Info => "INFO"
            | LogLevel.Warn => "WARN"
            | _ => "ERROR"
            end ++ "]")%string in
  let contextStr :=
    match context entry with
    | Some c => if truthy (Some c) then (" [" ++ c ++ "]")%string else ""
    | None => ""
    end in
  let fullMessage := (prefix ++ contextStr ++ " " ++ message entry)%string in
  match level entry with
  | LogLevel.Debug => [mkConsoleCall console_debug fullMessage None]
  | LogLevel.Info => [mkConsoleCall console_info fullMessage None]
  | LogLevel.Warn => [mkConsoleCall console_warn fullMessage None]
  | LogLevel.Error => [mkConsoleCall console_error fullMessage (error entry)]
  | LogLevel.None => []
  end.

(** [sendToServer]: the request is made unless [apiUrl] is falsy.  What
    is recorded is that [fetch] is called for the entry; building the
    payload and the later outcome of the request (whose failure is
    reported on the console asynchronously) are outside the model. *)
Definition sendToServer_ (entry : LogEntry) (posts : list LogEntry) : list LogEntry :=
  if truthy (apiUrl environment) then posts ++ [entry] else posts.

(** Whether [log] goes past its first [if]. *)
Definition accepts (st : State) (l : LogLevel.t) : bool :=
  enabled (logging environment)
  && negb (levelNumber l <? levelNumber (minLevel st))%nat.

(** The private method [log]; [now] is what [new Date()] gives. *)
Definition log (now : N) (l : LogLevel.t) (msg : string) (ctx : option string)
    (err : option Exn) (st : State) : State :=
  if negb (enabled (logging environment))
     || (levelNumber l <? levelNumber (minLevel st))%nat
  then st
  else
    let entry := mkEntry now l msg ctx err in
    let pushed := logHistory st ++ [entry] in
    let history :=
      if (maxHistorySize <? List.length pushed)%nat then tl pushed else pushed in
    let console' := console st ++ logToConsole entry in
    let posted' :=
      if sendToServer (logging environment)
         && (levelNumber LogLevel.Error <=? levelNumber l)%nat
      then sendToServer_ entry (posted st)
      else posted st in
    mkState history (minLevel st) console' posted'.

(** The four public methods. *)
Definition debug (now : N) (msg : string) (ctx : option string) : State -> State :=
  log now LogLevel.Debug msg ctx None.
Definition info (now : N) (msg : string) (ctx : option string) : State -> State :=
  log now LogLevel.Info msg ctx None.
Definition warn (now : N) (msg : string) (ctx : option string) : State -> State :=
  log now LogLevel.Warn msg ctx None.
Definition error_ (now : N) (msg : string) (err : option Exn) (ctx : option string)
  : State -> State :=
  log now LogLevel.Error msg ctx err.

(** [getHistory] returns a copy; [clearHistory] empties the array. *)
Definition getHistory (st : State) : list LogEntry := logHistory st.
Definition clearHistory (st : State) : State :=
  mkState [] (minLevel st) (console st) (posted st).

(** A sequence of calls of [log], oldest first. *)
Definition runCalls (calls : list LogEntry) (st : State) : State :=
  fold_left
    (fun st call =>
       log (timestamp call) (level call) (message call) (context call)
           (error call) st)
    calls st.

(** The calls that get past the first [if] of [log] on a logger whose
    threshold is [threshold]. *)
Definition recorded (threshold : LogLevel.t) (calls : list LogEntry)
  : list LogEntry :=
  filter
    (fun call =>
       enabled (logging environment)
       && negb (levelNumber (level call) <? levelNumber threshold)%nat)
    calls.

(** Whether an entry is of level [Error] or above. *)
Definition severe (entry : LogEntry) : bool :=
  (levelNumber LogLevel.Error <=? levelNumber (level entry))%nat.

End Runtime.

(** The last [n] elements of a list. *)
Definition lastn (A : Type) (n : nat) (l : list A) : list A :=
  skipn (List.length l - n) l.

End Logger.

(** ** Sample environments *)

(** A [toLowerCase] for strings of 7-bit characters. *)
Fixpoint asciiLower (s : string) : string :=
  match s with
  | EmptyString => EmptyString
  | String c rest =>
      let n := nat_of_ascii c in
      String (if (65 <=? n)%nat && (n <=? 90)%nat then ascii_of_nat (n + 32) else c)
             (asciiLower rest)
  end.

(** [environment.ts] and [environment.prod.ts]; neither sets [apiUrl]. *)
Definition devEnvironment : Logger.Environment :=
  Logger.mkEnvironment None (Logger.mkLogging true "debug" false).

Definition prodEnvironment : Logger.Environment :=
  Logger.mkEnvironment None (Logger.mkLogging true "error" true).

(* ================================================================== *)
(** * [AppError] in full ([app-error.ts]) *)
(* ================================================================== *)

(** The argument of the constructor of [AppError]: the fields of
    [ErrorDetails] that the constructor reads. *)
Record ErrorDetails : Type := mkDetails {
  details_code : ErrorCode;
  details_message : string;
  details_userMessage : option string;
  details_recoverable : bool;
  details_context : option (list (string * ContextValue));
  details_originalError : option Exn
}.

(** The table of [getDefaultUserMessage]. *)
Definition defaultMessages (code : ErrorCode) : string :=
  match code with
  | VIEWER_INIT_FAILED => "Failed to initialize 3D viewer. Please refresh the page."
  | IFC_LOAD_FAILED => "Failed to load IFC file. Please try again."
  | IFC_PARSE_FAILED => "Unable to parse IFC file. The file may be corrupted."
  | WASM_LOAD_FAILED => "Failed to load required components. Please check your connection."
  | GEOMETRY_PROCESSING_FAILED => "Error processing model geometry."
  | INVALID_FILE_FORMAT => "Invalid file format. Please select a valid IFC file."
  | FILE_TOO_LARGE => "File is too large. Please select a smaller file."
  | MEMORY_LIMIT_EXCEEDED => "Model is too complex for available memory."
  | RENDERER_ERROR => "Graphics rendering error occurred."
  | CAMERA_ERROR => "Camera control error."
  | SCENE_ERROR => "Scene management error."
  | NETWORK_ERROR => "Network connection error."
  | UNKNOWN_ERROR => "An unexpected error occurred. Please try again."
  end.

(** [messages[code] || messages[ErrorCode.UNKNOWN_ERROR]]. *)
Definition getDefaultUserMessage (code : ErrorCode) : string :=
  if Logger.truthy (Some (defaultMessages code))
  then defaultMessages code
  else defaultMessages UNKNOWN_ERROR.

(** An [AppError] object: the thrown value as modelled above, together
    with the [userMessage] that the constructor derives. *)
Record AppErrorObject : Type := mkAppErrorObject {
  thrown : Exn;
  userMessage : string
}.

(** [new AppError(details)]. *)
Definition new_AppError (details : ErrorDetails) : AppErrorObject :=
  mkAppErrorObject
    (AppError "AppError" (details_code details) (details_message details)
              (details_recoverable details)
              (match details_context details with Some c => c | None => [] end)
              (details_originalError details))
    (if Logger.truthy (details_userMessage details)
     then match details_userMessage details with Some m => m | None => "" end
     else getDefaultUserMessage (details_code details)).

(** The subclasses: [super({...})] and then [this.name = ...]. *)
Definition renamed (name : string) (object : AppErrorObject) : AppErrorObject :=
  mkAppErrorObject
    (match thrown object with
     | AppError _ code message recoverable context original =>
         AppError name code message recoverable context original
     | other => other
     end)
    (userMessage object).

Definition new_ViewerInitError (message : string) (originalError : option Exn)
    (context : option (list (string * ContextValue))) : AppErrorObject :=
  renamed "ViewerInitError"
    (new_AppError (mkDetails VIEWER_INIT_FAILED message None false context originalError)).

Definition new_IfcLoadError (message : string) (originalError : option Exn)
    (context : option (list (string * ContextValue))) : AppErrorObject :=
  renamed "IfcLoadError"
    (new_AppError (mkDetails IFC_LOAD_FAILED message None true context originalError)).

Definition new_WasmLoadError (message : string) (originalError : option Exn)
    (context : option (list (string * ContextValue))) : AppErrorObject :=
  renamed "WasmLoadError"
    (new_AppError (mkDetails WASM_LOAD_FAILED message None false context originalError)).

(** [error.message]. *)
Definition exn_message (e : Exn) : string :=
  match e with
  | JsError m => m
  | TypeError m => m
  | Foreign m => m
  | AppError _ _ m _ _ _ => m
  end.

(* ================================================================== *)
(** * [AppErrorHandler] ([error-handler.service.ts]) *)
(* ================================================================== *)

Module ErrorHandler.

(** What [handleError] may be given: an [Error] object, or any other
    value.  Of such a value only [String(value)] is used, a conversion
    that returns a string or throws: a [TypeError] for an object without
    a string conversion, such as [Object.create(null)], or whatever the
    value's own [toString] throws. *)
Inductive Unknown : Type :=
  | AnError (e : Exn)
  | Other (asString : Completion string).

(** A listener: the identity of the function object, by which
    [indexOf] finds it, and what calling it does - return or throw.
    Listeners do not call back into the handler. *)
Record Listener : Type := mkListener {
  identity : nat;
  reaction : Exn -> option Exn
}.

(** One call of [logger.error(message, error, context, data)]; the
    handler passes the error code in the place of the context. *)
Record LoggedError : Type := mkLogged {
  logged_message : string;
  logged_error : Exn;
  logged_code : ErrorCode;
  logged_context : list (string * ContextValue)
}.

(** The field [errorListeners] and what the handler has sent out. *)
Record State : Type := mkState {
  errorListeners : list Listener;
  logged : list LoggedError;
  calls : list (nat * Exn);          (* listener called with error *)
  consoleErrors : list Exn           (* 'Error in error listener:' *)
}.

Definition new : State := mkState [] [] [] [].

(** [normalizeError]: it returns an [AppError], or throws what
    [String(error)] throws while the details of the third case are
    being built. *)
Definition normalizeError (error : Unknown) : Completion Exn :=
  match error with
  | AnError (AppError name code message recoverable context original) =>
      Normal (AppError name code message recoverable context original)
  | AnError e =>
      Normal (thrown (new_AppError (mkDetails UNKNOWN_ERROR (exn_message e) None
                                              true None (Some e))))
  | Other (Normal text) =>
      Normal (thrown (new_AppError (mkDetails UNKNOWN_ERROR text None true
                                              None None)))
  | Other (Throw raised) => Throw raised
  end.

(** The callback of [forEach] in [notifyListeners]: the call of one
    listener inside its [try]/[catch]. *)
Definition notifyOne (error : Exn) (st : State) (listener : Listener) : State :=
  match reaction listener error with
  | None =>
      mkState (errorListeners st) (logged st)
              (calls st ++ [(identity listener, error)])
              (consoleErrors st)
  | Some err =>
      mkState (errorListeners st) (logged st)
              (calls st ++ [(identity listener, error)])
              (consoleErrors st ++ [err])
  end.

(** [notifyListeners]: [forEach] over the registered listeners. *)
Definition notifyListeners (error : Exn) (st : State) : State :=
  fold_left (notifyOne error) (errorListeners st) st.

(** [handleError]: an exception of [normalizeError] leaves the method
    before [logger.error] and before any listener is called. *)
Definition handleError (error : Unknown) (st : State) : Completion unit * State :=
  match normalizeError error with
  | Throw raised => (Throw raised, st)
  | Normal appError =>
      let entry :=
        mkLogged (exn_message appError)
                 (match exn_original appError with
                  | Some original => original
                  | None => JsError (exn_message appError)
                  end)
                 (match exn_code appError with
                  | Some c => c
                  | None => UNKNOWN_ERROR
                  end)
                 (exn_context appError) in
      (Normal tt,
       notifyListeners appError
         (mkState (errorListeners st) (logged st ++ [entry]) (calls st)
                  (consoleErrors st)))
  end.

(** [this.errorListeners.indexOf(listener)]. *)
Fixpoint indexOf (listener : Listener) (listeners : list Listener) : option nat :=
  match listeners with
  | [] => None
  | l :: rest =>
      if Nat.eqb (identity l) (identity listener) then Some 0
      else option_map S (indexOf listener rest)
  end.

(** [array.splice(index, 1)]. *)
Fixpoint splice1 (A : Type) (index : nat) (l : list A) : list A :=
  match l, index with
  | [], _ => []
  | _ :: rest, 0 => rest
  | a :: rest, S n => a :: splice1 n rest
  end.

(** The function that [onError] returns. *)
Definition unsubscribe (listener : Listener) (st : State) : State :=
  match indexOf listener (errorListeners st) with
  | Some index =>
      mkState (splice1 index (errorListeners st)) (logged st) (calls st)
              (consoleErrors st)
  | None => st
  end.

(** [onError]: the state afterwards; the returned function is
    [unsubscribe listener]. *)
Definition onError (listener : Listener) (st : State) : State :=
  mkState (errorListeners st ++ [listener]) (logged st) (calls st)
          (consoleErrors st).

End ErrorHandler.

(** How often a function object is registered. *)
Definition registrations (listener : ErrorHandler.Listener)
    (listeners : list ErrorHandler.Listener) : nat :=
  List.length
    (filter (fun l => Nat.eqb (ErrorHandler.identity l)
                              (ErrorHandler.identity listener))
            listeners).

(** What the listeners throw when called with [error], in order. *)
Definition thrownBy (error : Exn) (listeners : list ErrorHandler.Listener)
  : list Exn :=
  flat_map
    (fun l =>
       match ErrorHandler.reaction l error with
       | Some err => [err]
       | None => []
       end)
    listeners.

(* ================================================================== *)
(** * Numbers: comparison and clamping *)
(* ================================================================== *)

Lemma SFcompare_antisym (a b : spec_float) :
  SFcompare b a = option_map CompOpp (SFcompare a b).
Proof.
  destruct a as [sa|sa| |sa ma ea], b as [sb|sb| |sb mb eb]; simpl;
    try reflexivity;
    try (destruct sa; reflexivity);
    try (destruct sb; reflexivity);
    try (destruct sa, sb; reflexivity).
  destruct sa, sb; simpl; try reflexivity;
    rewrite (Z.compare_antisym eb ea);
    destruct (Z.compare eb ea) eqn:E; simpl; try reflexivity;
    change PosDef.Pos.compare_cont with Pos.compare_cont;
    rewrite (Pos.compare_cont_antisym ma mb Eq); reflexivity.
Qed.

Lemma SFcompare_None (a b : spec_float) :
  SFcompare a b = None -> Js.isNaN a = true \/ Js.isNaN b = true.
Proof.
  destruct a as [sa|sa| |sa ma ea], b as [sb|sb| |sb mb eb]; simpl;
    intros H; try discriminate H; auto.
Qed.

Lemma Math_min_one_le (c : Js.number) :
  Js.isNaN c = false -> Js.le (Js.Math_min Js.one c) Js.one = true.
Proof.
  intros Hc. unfold Js.Math_min, Js.le, SFleb.
  destruct (SFcompare Js.one c) as [[| |]|] eqn:E.
  - cbn [Js.isNegZero Js.one].
    rewrite (SFcompare_antisym Js.one c), E. reflexivity.
  - reflexivity.
  - rewrite (SFcompare_antisym Js.one c), E. reflexivity.
  - destruct (SFcompare_None _ _ E) as [H|H]; [discriminate H | congruence].
Qed.

Lemma Math_min_one_notNaN (c : Js.number) :
  Js.isNaN c = false -> Js.isNaN (Js.Math_min Js.one c) = false.
Proof.
  intros Hc. unfold Js.Math_min.
  destruct (SFcompare Js.one c) as [[| |]|] eqn:E; try reflexivity; try assumption.
  destruct (SFcompare_None _ _ E) as [H|H]; [discriminate H | congruence].
Qed.

Lemma Math_max_zero_ge (c : Js.number) :
  Js.isNaN c = false -> Js.le Js.zero (Js.Math_max Js.zero c) = true.
Proof.
  intros Hc. unfold Js.Math_max, Js.le, SFleb.
  destruct (SFcompare Js.zero c) as [[| |]|] eqn:E.
  - reflexivity.
  - rewrite E. reflexivity.
  - reflexivity.
  - destruct (SFcompare_None _ _ E) as [H|H]; [discriminate H | congruence].
Qed.

Lemma Math_max_zero_le_one (c : Js.number) :
  Js.le c Js.one = true -> Js.le (Js.Math_max Js.zero c) Js.one = true.
Proof.
  intros Hc. unfold Js.Math_max.
  destruct (SFcompare Js.zero c) as [[| |]|] eqn:E; try reflexivity; try assumption.
  destruct c; discriminate.
Qed.

Lemma clamp01_range (c : Js.number) :
  Js.isNaN c = false ->
  Js.le Js.zero (clamp01 c) = true /\ Js.le (clamp01 c) Js.one = true.
Proof.
  intros Hc. unfold clamp01. split.
  - apply Math_max_zero_ge. now apply Math_min_one_notNaN.
  - apply Math_max_zero_le_one. now apply Math_min_one_le.
Qed.

Lemma SFcompare_refl (c : Js.number) :
  Js.isNaN c = false -> SFcompare c c = Some Eq.
Proof.
  destruct c as [s|s| |s m e]; simpl; intros H; try discriminate H;
    try (destruct s; reflexivity).
  destruct s; rewrite Z.compare_refl;
    change PosDef.Pos.compare_cont with Pos.compare_cont;
    rewrite Pos.compare_cont_refl; reflexivity.
Qed.

Lemma clamp01_below (c : Js.number) :
  Js.lt c Js.zero = true -> clamp01 c = Js.zero.
Proof.
  destruct c as [s|s| |s m e]; try destruct s; simpl;
    intros H; try discriminate H; reflexivity.
Qed.

Lemma clamp01_above (c : Js.number) :
  Js.lt Js.one c = true -> clamp01 c = Js.one.
Proof.
  unfold clamp01, Js.Math_min, Js.lt, SFltb.
  destruct (SFcompare Js.one c) as [[| |]|]; intros H; try discriminate H.
  reflexivity.
Qed.

Lemma clamp01_inside (c : Js.number) :
  Js.le Js.zero c = true -> Js.le c Js.one = true ->
  SFeqb (clamp01 c) c = true.
Proof.
  unfold Js.le, SFleb. intros H0 H1.
  assert (Hmin : Js.Math_min Js.one c = c).
  { unfold Js.Math_min. rewrite (SFcompare_antisym Js.one c) in H1.
    destruct (SFcompare Js.one c) as [[| |]|]; cbn in H1;
      try discriminate H1; reflexivity. }
  unfold clamp01. rewrite Hmin. unfold Js.Math_max, SFeqb.
  destruct (SFcompare Js.zero c) as [[| |]|] eqn:E0; try discriminate H0.
  - cbn [Js.isNegZero Js.zero]. rewrite E0. reflexivity.
  - rewrite SFcompare_refl; [reflexivity|].
    destruct c; try reflexivity; discriminate E0.
Qed.

(* ================================================================== *)
(** * Frame rules of the monad *)
(* ================================================================== *)

Section Frame.

Variable R : World -> World -> Prop.
Hypothesis R_refl : forall w, R w w.
Hypothesis R_trans : forall a b c, R a b -> R b c -> R a c.

Lemma keeps_ret (A : Type) (a : A) : Keeps R (ret a).
Proof. intros w. apply R_refl. Qed.

Lemma keeps_throw (A : Type) (e : Exn) : Keeps R (@throw A e).
Proof. intros w. apply R_refl. Qed.

Lemma keeps_get : Keeps R get.
Proof. intros w. apply R_refl. Qed.

Lemma keeps_bind (A B : Type) (c : M A) (k : A -> M B) :
  Keeps R c -> (forall a, Keeps R (k a)) -> Keeps R (bind c k).
Proof.
  intros Hc Hk w. unfold bind. specialize (Hc w).
  destruct (c w) as [[a|e] w1]; simpl in *.
  - eapply R_trans; [exact Hc | apply Hk].
  - exact Hc.
Qed.

Lemma keeps_tryCatch (A : Type) (body : M A) (handler : Exn -> M A) :
  Keeps R body -> (forall e, Keeps R (handler e)) -> Keeps R (tryCatch body handler).
Proof.
  intros Hb Hh w. unfold tryCatch. specialize (Hb w).
  destruct (body w) as [[a|e] w1]; simpl in *.
  - exact Hb.
  - eapply R_trans; [exact Hb | apply Hh].
Qed.

Lemma keeps_tryFinally (A : Type) (body : M A) (fin : M unit) :
  Keeps R body -> Keeps R fin -> Keeps R (tryFinally body fin).
Proof.
  intros Hb Hf w. unfold tryFinally. specialize (Hb w).
  destruct (body w) as [c w1]. specialize (Hf w1).
  destruct (fin w1) as [[u|e] w2]; simpl in *;
    eapply R_trans; eauto.
Qed.

End Frame.

Lemma sameLoader_refl w : sameLoader w w.
Proof. reflexivity. Qed.

Lemma sameLoader_trans a b c : sameLoader a b -> sameLoader b c -> sameLoader a c.
Proof. unfold sameLoader. congruence. Qed.

Lemma sameOpenModels_refl w : sameOpenModels w w.
Proof. reflexivity. Qed.

Lemma sameOpenModels_trans a b c :
  sameOpenModels a b -> sameOpenModels b c -> sameOpenModels a c.
Proof. unfold sameOpenModels. congruence. Qed.

Lemma sameProgress_refl w : sameProgress w w.
Proof. reflexivity. Qed.

Lemma sameProgress_trans a b c :
  sameProgress a b -> sameProgress b c -> sameProgress a c.
Proof. unfold sameProgress. congruence. Qed.

Lemma traceGrows_refl w : traceGrows w w.
Proof. exists []. now rewrite app_nil_r. Qed.

Lemma traceGrows_trans a b c : traceGrows a b -> traceGrows b c -> traceGrows a c.
Proof.
  intros [t1 H1] [t2 H2]. exists (t1 ++ t2).
  rewrite H2, H1. now rewrite app_assoc.
Qed.

Lemma progressEvents_app (t1 t2 : list Event) :
  progressEvents (t1 ++ t2) = progressEvents t1 ++ progressEvents t2.
Proof.
  induction t1 as [|e t1 IH]; simpl; [reflexivity|].
  destruct e; simpl; rewrite IH; reflexivity.
Qed.

Lemma bootstrapCalls_app (t1 t2 : list Event) :
  bootstrapCalls (t1 ++ t2) = bootstrapCalls t1 + bootstrapCalls t2.
Proof.
  induction t1 as [|e t1 IH]; simpl; [reflexivity|].
  destruct e; simpl; rewrite IH; reflexivity.
Qed.

(** The primitive steps. *)
Lemma emit_sameLoader e : Keeps sameLoader (emit e).
Proof. intros w. reflexivity. Qed.

Lemma emit_sameOpenModels e : Keeps sameOpenModels (emit e).
Proof. intros w. reflexivity. Qed.

Lemma emit_traceGrows e : Keeps traceGrows (emit e).
Proof. intros w. exists [e]. reflexivity. Qed.

Lemma emit_sameProgress e :
  progressEvents [e] = [] -> Keeps sameProgress (emit e).
Proof.
  intros He w. unfold sameProgress. simpl.
  rewrite progressEvents_app, He. apply app_nil_r.
Qed.

Lemma fresh_sameLoader : Keeps sameLoader fresh.
Proof. intros w. reflexivity. Qed.

Lemma fresh_sameOpenModels : Keeps sameOpenModels fresh.
Proof. intros w. reflexivity. Qed.

Lemma fresh_sameProgress : Keeps sameProgress fresh.
Proof. intros w. reflexivity. Qed.

Lemma fresh_traceGrows : Keeps traceGrows fresh.
Proof. intros w. exists []. simpl. now rewrite app_nil_r. Qed.

Lemma setLiveGeometries_sameLoader l : Keeps sameLoader (setLiveGeometries l).
Proof. intros w. reflexivity. Qed.

Lemma setLiveGeometries_sameOpenModels l : Keeps sameOpenModels (setLiveGeometries l).
Proof. intros w. reflexivity. Qed.

Lemma setLiveGeometries_sameProgress l : Keeps sameProgress (setLiveGeometries l).
Proof. intros w. reflexivity. Qed.

Lemma setLiveGeometries_traceGrows l : Keeps traceGrows (setLiveGeometries l).
Proof. intros w. exists []. simpl. now rewrite app_nil_r. Qed.

Lemma setOpenModels_sameLoader l : Keeps sameLoader (setOpenModels l).
Proof. intros w. reflexivity. Qed.

Lemma setOpenModels_sameProgress l : Keeps sameProgress (setOpenModels l).
Proof. intros w. reflexivity. Qed.

Lemma setOpenModels_traceGrows l : Keeps traceGrows (setOpenModels l).
Proof. intros w. exists []. simpl. now rewrite app_nil_r. Qed.

Lemma setLoader_traceGrows l : Keeps traceGrows (setLoader l).
Proof. intros w. exists []. simpl. now rewrite app_nil_r. Qed.

Create HintDb frame.
#[local] Hint Resolve sameLoader_refl sameLoader_trans
  sameOpenModels_refl sameOpenModels_trans
  sameProgress_refl sameProgress_trans
  traceGrows_refl traceGrows_trans : frame.
#[local] Hint Resolve emit_sameLoader emit_sameOpenModels emit_traceGrows
  fresh_sameLoader fresh_sameOpenModels fresh_sameProgress fresh_traceGrows
  setLiveGeometries_sameLoader setLiveGeometries_sameOpenModels
  setLiveGeometries_sameProgress setLiveGeometries_traceGrows
  setOpenModels_sameLoader setOpenModels_sameProgress setOpenModels_traceGrows
  setLoader_traceGrows : frame.

(** Break a computation down along its monadic structure and close the
    leaves with the primitive rules. *)
Ltac frame_side :=
  first [ assumption
        | exact sameLoader_refl | exact sameLoader_trans
        | exact sameOpenModels_refl | exact sameOpenModels_trans
        | exact sameProgress_refl | exact sameProgress_trans
        | exact traceGrows_refl | exact traceGrows_trans ].

Ltac frame_step :=
  match goal with
  | |- forall w, ?R w w => frame_side
  | |- forall a b c, ?R a b -> ?R b c -> ?R a c => frame_side
  | |- forall _, Keeps _ _ => intros ?
  | |- Keeps _ (bind _ _) => apply keeps_bind
  | |- Keeps _ (tryCatch _ _) => apply keeps_tryCatch
  | |- Keeps _ (tryFinally _ _) => apply keeps_tryFinally
  | |- Keeps _ (ret _) => apply keeps_ret
  | |- Keeps _ (throw _) => apply keeps_throw
  | |- Keeps _ get => apply keeps_get
  | |- Keeps sameProgress (emit _) => apply emit_sameProgress; reflexivity
  | |- Keeps _ (match ?x with _ => _ end) => destruct x
  | |- Keeps _ _ => solve [auto with frame]
  end.

Ltac frame := repeat frame_step.

(* ================================================================== *)
(** * The geometry stage *)
(* ================================================================== *)

Section GeometryFrame.

Variable host : Host.
Variable R : World -> World -> Prop.
Hypothesis R_refl : forall w, R w w.
Hypothesis R_trans : forall a b c, R a b -> R b c -> R a c.
Hypothesis R_emit : forall e, progressEvents [e] = [] -> Keeps R (emit e).
Hypothesis R_fresh : Keeps R fresh.
Hypothesis R_setLive : forall l, Keeps R (setLiveGeometries l).

Ltac geometry_frame :=
  repeat first
    [ frame_step
    | apply R_emit; reflexivity
    | apply R_fresh
    | apply R_setLive ].

Lemma processPlacement_keeps api modelID i j flatMesh p meshes :
  Keeps R (processPlacement api modelID i j flatMesh p meshes).
Proof.
  unfold processPlacement, GetGeometry, readBuffers, constructMesh,
    geometry_delete, logger_warn.
  geometry_frame.
Qed.

Lemma forGeometries_keeps api modelID i flatMesh entries :
  forall j meshes, Keeps R (forGeometries api modelID i flatMesh j entries meshes).
Proof.
  induction entries as [|[p|] rest IH]; intros j meshes; simpl.
  - now apply keeps_ret.
  - apply keeps_bind; auto using processPlacement_keeps.
  - apply IH.
Qed.

Lemma forFlatMeshes_keeps api modelID flatMeshes :
  forall i meshes, Keeps R (forFlatMeshes api modelID i flatMeshes meshes).
Proof.
  induction flatMeshes as [|flatMesh rest IH]; intros i meshes; simpl.
  - now apply keeps_ret.
  - apply keeps_bind; auto using forGeometries_keeps.
Qed.

Lemma generateGeometry_keeps modelID :
  Keeps R (generateGeometry host modelID).
Proof.
  unfold generateGeometry, LoadAllGeometry, logger_debug.
  repeat first [ apply forFlatMeshes_keeps | progress geometry_frame ].
Qed.

End GeometryFrame.

Lemma generateGeometry_sameLoader host modelID :
  Keeps sameLoader (generateGeometry host modelID).
Proof.
  apply generateGeometry_keeps; try frame_side; intros; auto with frame.
Qed.

Lemma generateGeometry_sameOpenModels host modelID :
  Keeps sameOpenModels (generateGeometry host modelID).
Proof.
  apply generateGeometry_keeps; try frame_side; intros; auto with frame.
Qed.

Lemma generateGeometry_sameProgress host modelID :
  Keeps sameProgress (generateGeometry host modelID).
Proof.
  apply generateGeometry_keeps; try frame_side; intros; auto with frame.
  now apply emit_sameProgress.
Qed.

Lemma generateGeometry_traceGrows host modelID :
  Keeps traceGrows (generateGeometry host modelID).
Proof.
  apply generateGeometry_keeps; try frame_side; intros; auto with frame.
Qed.

(** What one iteration of the inner loop does, whatever the placement:
    it completes normally, appends the placement's mesh if it has one,
    and logs a warning if foreign code raised. *)
Lemma processPlacement_outcome api modelID i j flatMesh p meshes w :
  exists w',
    processPlacement api modelID i j flatMesh p meshes w
      = (Normal (meshes ++ meshFrom flatMesh (Some p)), w')
    /\ (throwing (Some p) = true -> In (placementWarning i j) (trace w')).
Proof.
  destruct p as [pl [v ix] f].
  destruct f as [[[| |] e]|], v as [[|v0 v]|], ix as [[|i0 ix]|];
    cbn; eexists;
    (split;
     [ rewrite ?app_nil_r; reflexivity
     | intros H; try discriminate H;
       apply in_or_app; right; left; reflexivity ]).
Qed.

Lemma forGeometries_outcome api modelID i flatMesh entries :
  forall j meshes w,
  exists w',
    forGeometries api modelID i flatMesh j entries meshes w
      = (Normal (meshes ++ flat_map (meshFrom flatMesh) entries), w')
    /\ (forall k entry, nth_error entries k = Some entry ->
          throwing entry = true -> In (placementWarning i (j + k)) (trace w')).
Proof.
  induction entries as [|[p|] rest IH]; intros j meshes w.
  - exists w. split; [simpl; now rewrite app_nil_r|].
    intros [|k] entry H; discriminate H.
  - destruct (processPlacement_outcome api modelID i j flatMesh p meshes w)
      as (w1 & E1 & L1).
    destruct (IH (S j) (meshes ++ meshFrom flatMesh (Some p)) w1)
      as (w2 & E2 & L2).
    exists w2. split.
    + cbn [forGeometries]. unfold bind. rewrite E1, E2.
      cbn [flat_map]. now rewrite app_assoc.
    + intros [|k] entry Hk Ht.
      * injection Hk as <-. rewrite Nat.add_0_r.
        pose proof (forGeometries_keeps traceGrows_refl traceGrows_trans
                      (fun e _ => emit_traceGrows e) fresh_traceGrows
                      setLiveGeometries_traceGrows
                      api modelID i flatMesh rest (S j)
                      (meshes ++ meshFrom flatMesh (Some p)) w1) as [t Ht'].
        rewrite E2 in Ht'. simpl in Ht'. rewrite Ht'.
        apply in_or_app. left. now apply L1.
      * rewrite Nat.add_succ_r. apply (L2 k entry Hk Ht).
  - destruct (IH (S j) meshes w) as (w2 & E2 & L2).
    exists w2. split.
    + cbn [forGeometries flat_map meshFrom]. exact E2.
    + intros [|k] entry Hk Ht.
      * injection Hk as <-. discriminate Ht.
      * rewrite Nat.add_succ_r. apply (L2 k entry Hk Ht).
Qed.

Lemma forFlatMeshes_outcome api modelID flatMeshes :
  forall i meshes w,
  exists w',
    forFlatMeshes api modelID i flatMeshes meshes w
      = (Normal (meshes ++ meshesOfDocument flatMeshes), w')
    /\ (forall n flatMesh k entry,
          nth_error flatMeshes n = Some flatMesh ->
          nth_error (WebIfc.geometries flatMesh) k = Some entry ->
          throwing entry = true ->
          In (placementWarning (i + n) k) (trace w')).
Proof.
  induction flatMeshes as [|fm rest IH]; intros i meshes w.
  - exists w. split; [simpl; now rewrite app_nil_r|].
    intros [|n] flatMesh k entry H; discriminate H.
  - destruct (forGeometries_outcome api modelID i fm (WebIfc.geometries fm)
                0 meshes w) as (w1 & E1 & L1).
    destruct (IH (S i) (meshes ++ flat_map (meshFrom fm) (WebIfc.geometries fm)) w1)
      as (w2 & E2 & L2).
    exists w2. split.
    + cbn [forFlatMeshes]. unfold bind. rewrite E1, E2.
      unfold meshesOfDocument. cbn [flat_map]. now rewrite app_assoc.
    + intros [|n] flatMesh k entry Hn Hk Ht.
      * injection Hn as <-. rewrite Nat.add_0_r.
        pose proof (forFlatMeshes_keeps traceGrows_refl traceGrows_trans
                      (fun e _ => emit_traceGrows e) fresh_traceGrows
                      setLiveGeometries_traceGrows
                      api modelID rest (S i)
                      (meshes ++ flat_map (meshFrom fm) (WebIfc.geometries fm)) w1)
          as [t Ht'].
        rewrite E2 in Ht'. simpl in Ht'. rewrite Ht'.
        apply in_or_app. left. apply (L1 k entry Hk Ht).
      * rewrite Nat.add_succ_r. apply (L2 n flatMesh k entry Hn Hk Ht).
Qed.

(** The geometry stage on a document the engine can walk. *)
Lemma generateGeometry_outcome host modelID api flatMeshes w :
  ifcApi (loader w) = Some api ->
  LoadAllGeometry_outcome host modelID = inr flatMeshes ->
  exists w',
    generateGeometry host modelID w = (Normal (meshesOfDocument flatMeshes), w')
    /\ (forall i j entry,
          placementAt flatMeshes i j = Some entry ->
          throwing entry = true ->
          In (placementWarning i j) (trace w')).
Proof.
  intros Hapi Hdoc.
  unfold generateGeometry, LoadAllGeometry, logger_debug, bind, get.
  rewrite Hapi. cbn [emit]. rewrite Hdoc. cbn [ret].
  match goal with
  | |- context [forFlatMeshes api modelID 0 flatMeshes [] ?w0] =>
      destruct (forFlatMeshes_outcome api modelID flatMeshes 0 [] w0)
        as (w1 & E1 & L1)
  end.
  rewrite E1. cbn [app]. eexists. split; [reflexivity|].
  intros i j entry Hat Ht. cbn [trace].
  apply in_or_app. left.
  unfold placementAt in Hat.
  destruct (nth_error flatMeshes i) as [fm|] eqn:Hi; [|discriminate Hat].
  apply (L1 i fm j entry Hi Hat Ht).
Qed.

Lemma meshFrom_length flatMesh entry :
  List.length (meshFrom flatMesh entry) = if convertible entry then 1 else 0.
Proof.
  destruct entry as [[pl [v ix] f]|]; [|reflexivity].
  destruct f as [[[| |] e]|], v as [[|v0 v]|], ix as [[|i0 ix]|]; reflexivity.
Qed.

Lemma flat_map_meshFrom_length flatMesh entries :
  List.length (flat_map (meshFrom flatMesh) entries)
    = List.length (filter convertible entries).
Proof.
  induction entries as [|entry rest IH]; [reflexivity|].
  cbn [flat_map filter]. rewrite length_app, meshFrom_length, IH.
  destruct (convertible entry); reflexivity.
Qed.

(** As many meshes come out as there are convertible placements. *)
Lemma meshesOfDocument_length flatMeshes :
  List.length (meshesOfDocument flatMeshes)
    = List.length (filter convertible (placements flatMeshes)).
Proof.
  unfold meshesOfDocument, placements.
  induction flatMeshes as [|fm rest IH]; [reflexivity|].
  cbn [flat_map]. rewrite filter_app, !length_app, IH.
  now rewrite flat_map_meshFrom_length.
Qed.

Lemma filter_all (A : Type) (f : A -> bool) (l : list A) :
  forallb f l = true -> filter f l = l.
Proof.
  induction l as [|a l IH]; simpl; [reflexivity|].
  intros H. apply andb_prop in H as [Ha Hl].
  rewrite Ha. f_equal. now apply IH.
Qed.

(* ================================================================== *)
(** * The loader's own fields *)
(* ================================================================== *)

Lemma loadIfcFile_start_sameLoader file onProgress :
  Keeps sameLoader (loadIfcFile_start file onProgress).
Proof.
  unfold loadIfcFile_start, ensureInitialized, logger_info, report,
    loadFailed, logger_error.
  frame.
Qed.

Lemma loadIfcFile_resume_sameLoader host file onProgress :
  Keeps sameLoader (loadIfcFile_resume host file onProgress).
Proof.
  unfold loadIfcFile_resume, report, ifcApi_bang, OpenModel, CloseModel,
    logger_info, loadFailed, logger_error.
  repeat first [ apply generateGeometry_sameLoader | progress frame ].
Qed.

Lemma loadIfcFile_sameLoader host file onProgress :
  Keeps sameLoader (loadIfcFile host file onProgress).
Proof.
  unfold loadIfcFile.
  repeat first [ apply loadIfcFile_start_sameLoader
               | apply loadIfcFile_resume_sameLoader
               | progress frame ].
Qed.

Lemma initialize_start_flags config w :
  flagsConsistent w -> flagsConsistent (snd (initialize_start config w)).
Proof.
  unfold flagsConsistent, initialize_start, bind, get.
  destruct (isInitializing (loader w)) eqn:Eing; cbn; [now rewrite Eing|].
  destruct (isInitialized (loader w)) eqn:Eed; cbn; congruence.
Qed.

Lemma initialize_resume_flags config settled w :
  isInitializing (loader (snd (initialize_resume config settled w))) = false.
Proof.
  destruct settled; reflexivity.
Qed.

Lemma reachable_flagsConsistent host w :
  Reachable host w -> flagsConsistent w.
Proof.
  induction 1 as [|w w' Hw IH Hstep].
  - intros H. discriminate H.
  - destruct Hstep as [config w c w' E | config settled w c w' E
                      | file onProgress w c w' E | file onProgress w c w' E
                      | w c w' E].
    + replace w' with (snd (initialize_start config w)) by now rewrite E.
      now apply initialize_start_flags.
    + intros H.
      replace w' with (snd (initialize_resume config settled w)) in H
        by now rewrite E.
      rewrite initialize_resume_flags in H. discriminate H.
    + pose proof (loadIfcFile_start_sameLoader file onProgress w) as S.
      rewrite E in S. unfold sameLoader in S. simpl in S.
      unfold flagsConsistent. rewrite S. exact IH.
    + pose proof (loadIfcFile_resume_sameLoader host file onProgress w) as S.
      rewrite E in S. unfold sameLoader in S. simpl in S.
      unfold flagsConsistent. rewrite S. exact IH.
    + intros H. injection E as _ <-. discriminate H.
Qed.

(** The guard of [loadIfcFile] on a loader that is not ready. *)
Lemma loadIfcFile_start_not_ready file onProgress w :
  ready (loader w) = false ->
  loadIfcFile_start file onProgress w
    = (Throw (IfcLoadError "IFC Loader not initialized" None
                [("isInitialized", CtxBool (isInitialized (loader w)));
                 ("hasApi", CtxBool (hasApi (loader w)))]),
       w).
Proof.
  unfold ready, loadIfcFile_start, ensureInitialized, bind, get. intros H.
  replace (negb (isInitialized (loader w)) || negb (hasApi (loader w)))
    with true
    by (destruct (isInitialized (loader w)), (hasApi (loader w));
        try reflexivity; discriminate H).
  reflexivity.
Qed.

(** C10: whatever [loadIfcFile] does - return a model or throw, as a whole
    or in either of its two stretches around the [await] - the fields
    [isInitialized], [isInitializing] and [ifcApi] of the service are the
    same afterwards as before, so the guard of the next load decides as it
    did and no new setup is needed after a failed load. *)
Theorem loadIfcFile_keeps_initialization_state host file onProgress w :
  let after := snd (loadIfcFile host file onProgress w) in
  isInitialized (loader after) = isInitialized (loader w)
  /\ isInitializing (loader after) = isInitializing (loader w)
  /\ ifcApi (loader after) = ifcApi (loader w)
  /\ fst (ensureInitialized after) = fst (ensureInitialized w)
  /\ loader (snd (loadIfcFile_start file onProgress w)) = loader w
  /\ loader (snd (loadIfcFile_resume host file onProgress w)) = loader w.
Proof.
  intros after.
  pose proof (loadIfcFile_sameLoader host file onProgress w) as H.
  unfold sameLoader in H. fold after in H.
  repeat split.
  - now rewrite H.
  - now rewrite H.
  - now rewrite H.
  - unfold ensureInitialized, bind, get, hasApi. rewrite H.
    destruct (negb (isInitialized (loader w)) ||
              negb match ifcApi (loader w) with Some _ => true | None => false end);
      reflexivity.
  - apply loadIfcFile_start_sameLoader.
  - apply loadIfcFile_resume_sameLoader.
Qed.

(** C9: on a loader that has not completed its setup - [isInitialized] is
    still false, or a setup is in flight - [loadIfcFile] throws the typed,
    recoverable [IfcLoadError] "IFC Loader not initialized" and leaves the
    world as it found it: the guard runs before anything else, so the
    progress sink is not called at all. *)
Theorem load_before_setup_fails_fast host file onProgress w :
  Reachable host w ->
  isInitialized (loader w) = false \/ isInitializing (loader w) = true ->
  exists e w',
    loadIfcFile host file onProgress w = (Throw e, w')
    /\ e = IfcLoadError "IFC Loader not initialized" None
             [("isInitialized", CtxBool (isInitialized (loader w)));
              ("hasApi", CtxBool (hasApi (loader w)))]
    /\ exn_code e = Some IFC_LOAD_FAILED
    /\ exn_recoverable e = Some true
    /\ w' = w
    /\ progressEvents (trace w') = progressEvents (trace w).
Proof.
  intros Hreach Hnot.
  assert (Hfalse : isInitialized (loader w) = false).
  { destruct Hnot as [H|H]; [exact H|].
    now apply (reachable_flagsConsistent Hreach). }
  assert (Hready : ready (loader w) = false).
  { unfold ready. now rewrite Hfalse. }
  eexists. exists w. split; [|repeat split].
  unfold loadIfcFile, bind.
  rewrite (loadIfcFile_start_not_ready file onProgress w Hready).
  reflexivity.
Qed.

Lemma load_before_setup_fails_fast_witness :
  exists e w',
    loadIfcFile (workingHost []) sampleFile (Some listeningSink) initializingWorld
      = (Throw e, w')
    /\ e = IfcLoadError "IFC Loader not initialized" None
             [("isInitialized", CtxBool false); ("hasApi", CtxBool true)]
    /\ exn_code e = Some IFC_LOAD_FAILED
    /\ exn_recoverable e = Some true
    /\ w' = initializingWorld
    /\ progressEvents (trace w') = progressEvents (trace initializingWorld).
Proof.
  apply (@load_before_setup_fails_fast (workingHost []) sampleFile
           (Some listeningSink) initializingWorld).
  - apply (@reach_step (workingHost []) initialWorld initializingWorld
             (reach_initial (workingHost []))).
    apply (@step_initialize_start (workingHost []) DEFAULT_VIEWER_CONFIG
             initialWorld (Normal Pending) initializingWorld).
    reflexivity.
  - right. reflexivity.
Defined.

(* ================================================================== *)
(** * Setup *)
(* ================================================================== *)

Lemma initialize_when_initialized host config w :
  isInitializing (loader w) = false ->
  isInitialized (loader w) = true ->
  initialize host config w
    = (Normal tt,
       mkWorld (loader w) (nextRef w) (openModels w) (liveGeometries w)
               (trace w ++ [EvLog LogLevel.Debug "IFC Loader already initialized" SERVICE])).
Proof.
  intros Hing Hed. unfold initialize, initialize_start, bind, get.
  rewrite Hing, Hed. reflexivity.
Qed.

Lemma initialize_start_in_flight config w :
  isInitializing (loader w) = true ->
  initialize_start config w
    = (Throw (JsError "IFC Loader initialization already in progress"), w).
Proof.
  intros Hing. unfold initialize_start, bind, get. now rewrite Hing.
Qed.

Lemma initialize_start_pending config w :
  isInitializing (loader w) = false ->
  isInitialized (loader w) = false ->
  initialize_start config w
    = (Normal Pending,
       mkWorld (mkLoader (Some (nextRef w)) false true)
               (S (nextRef w)) (openModels w) (liveGeometries w)
               (trace w ++ [EvLog LogLevel.Info "Initializing IFC Loader" SERVICE;
                            EvNewIfcAPI (nextRef w);
                            EvSetWasmPath (nextRef w) (path (wasm config));
                            EvInit (nextRef w)])).
Proof.
  intros Hing Hed. unfold initialize_start, bind, get.
  rewrite Hing, Hed. cbn. rewrite Hed.
  repeat rewrite <- app_assoc. reflexivity.
Qed.

Lemma initialize_resume_rejected config error w :
  initialize_resume config (Some error) w
    = (Throw (WasmLoadError "Failed to initialize web-ifc WASM module"
                (Some error) [("wasmPath", CtxString (path (wasm config)))]),
       mkWorld (mkLoader None (isInitialized (loader w)) false)
               (nextRef w) (openModels w) (liveGeometries w)
               (trace w ++ [EvLog LogLevel.Error "Failed to initialize IFC Loader" SERVICE])).
Proof. reflexivity. Qed.

Lemma initialize_resume_resolved config w :
  initialize_resume config None w
    = (Normal tt,
       mkWorld (mkLoader (ifcApi (loader w)) true false)
               (nextRef w) (openModels w) (liveGeometries w)
               (trace w ++ [EvLog LogLevel.Info "IFC Loader initialized successfully" SERVICE])).
Proof. reflexivity. Qed.

(** C4: [initialize] is idempotent after success and single-flight.
    (1) On an initialized loader a call returns normally, changes no field
    and starts no bootstrap (it only logs).  (2) While a setup is in
    flight a call throws "IFC Loader initialization already in progress"
    and changes nothing, so nothing is queued; and a call that suspends
    at [Init()] does leave the loader in flight.  (3) If the bootstrap
    fails, the call throws the non-recoverable [WasmLoadError] carrying
    the attempted wasm path and the original error, and the loader ends
    with [ifcApi] null, not initialized and not initializing.  (4) If
    the bootstrap succeeds, the loader ends initialized after exactly one
    bootstrap, and a second call is the no-op of (1). *)
Theorem initialize_idempotent_single_flight host config :
  (forall w,
     isInitialized (loader w) = true -> isInitializing (loader w) = false ->
     exists w',
       initialize host config w = (Normal tt, w')
       /\ loader w' = loader w
       /\ bootstrapCalls (trace w') = bootstrapCalls (trace w)
       /\ trace w' = trace w ++ [EvLog LogLevel.Debug "IFC Loader already initialized" SERVICE])
  /\ (forall w,
        isInitializing (loader w) = true ->
        initialize host config w
          = (Throw (JsError "IFC Loader initialization already in progress"), w))
  /\ (forall w w1,
        initialize_start config w = (Normal Pending, w1) ->
        isInitializing (loader w1) = true
        /\ forall config', initialize_start config' w1
             = (Throw (JsError "IFC Loader initialization already in progress"), w1))
  /\ (forall w error,
        isInitialized (loader w) = false -> isInitializing (loader w) = false ->
        Init_outcome host (path (wasm config)) = Some error ->
        exists e w',
          initialize host config w = (Throw e, w')
          /\ e = WasmLoadError "Failed to initialize web-ifc WASM module"
                   (Some error) [("wasmPath", CtxString (path (wasm config)))]
          /\ exn_recoverable e = Some false
          /\ loader w' = mkLoader None false false)
  /\ (forall w,
        isInitialized (loader w) = false -> isInitializing (loader w) = false ->
        Init_outcome host (path (wasm config)) = None ->
        exists w1 w2,
          initialize host config w = (Normal tt, w1)
          /\ loader w1 = mkLoader (Some (nextRef w)) true false
          /\ bootstrapCalls (trace w1) = S (bootstrapCalls (trace w))
          /\ initialize host config w1 = (Normal tt, w2)
          /\ loader w2 = loader w1
          /\ bootstrapCalls (trace w2) = bootstrapCalls (trace w1)).
Proof.
  split; [|split; [|split; [|split]]].
  - intros w Hed Hing. eexists. split.
    + apply initialize_when_initialized; assumption.
    + cbn. rewrite bootstrapCalls_app. cbn. rewrite Nat.add_0_r. auto.
  - intros w Hing. unfold initialize, bind.
    now rewrite (initialize_start_in_flight config w Hing).
  - intros w w1 Hstart.
    assert (Hing : isInitializing (loader w1) = true).
    { unfold initialize_start, bind, get in Hstart.
      destruct (isInitializing (loader w)); [discriminate Hstart|].
      destruct (isInitialized (loader w)); [discriminate Hstart|].
      cbn in Hstart. injection Hstart as <-. reflexivity. }
    split; [exact Hing|].
    intros config'. now apply initialize_start_in_flight.
  - intros w error Hed Hing Hfail. eexists. eexists. split.
    + unfold initialize, bind.
      rewrite (initialize_start_pending config w Hing Hed), Hfail.
      apply initialize_resume_rejected.
    + repeat split.
  - intros w Hed Hing Hok. eexists. eexists. split.
    + unfold initialize, bind.
      rewrite (initialize_start_pending config w Hing Hed), Hok.
      apply initialize_resume_resolved.
    + split; [reflexivity|]. split.
      * cbn. rewrite !bootstrapCalls_app. cbn. lia.
      * split; [apply initialize_when_initialized; reflexivity|].
        split; [reflexivity|].
        cbn. rewrite !bootstrapCalls_app. cbn. lia.
Qed.

Lemma initialize_idempotent_single_flight_witness :
  (exists w',
     initialize (workingHost []) DEFAULT_VIEWER_CONFIG readyWorld = (Normal tt, w')
     /\ loader w' = loader readyWorld
     /\ bootstrapCalls (trace w') = 1)
  /\ initialize (workingHost []) DEFAULT_VIEWER_CONFIG initializingWorld
       = (Throw (JsError "IFC Loader initialization already in progress"),
          initializingWorld)
  /\ isInitializing (loader initializingWorld) = true
  /\ (exists e w',
        initialize brokenHost DEFAULT_VIEWER_CONFIG initialWorld = (Throw e, w')
        /\ exn_context e = [("wasmPath", CtxString "https://unpkg.com/web-ifc@0.0.73/")]
        /\ exn_recoverable e = Some false
        /\ loader w' = mkLoader None false false)
  /\ (exists w1 w2,
        initialize (workingHost []) DEFAULT_VIEWER_CONFIG initialWorld = (Normal tt, w1)
        /\ initialize (workingHost []) DEFAULT_VIEWER_CONFIG w1 = (Normal tt, w2)
        /\ bootstrapCalls (trace w2) = 1).
Proof.
  destruct (initialize_idempotent_single_flight (workingHost []) DEFAULT_VIEWER_CONFIG)
    as (Again & Busy & Flight & _ & Once).
  destruct (initialize_idempotent_single_flight brokenHost DEFAULT_VIEWER_CONFIG)
    as (_ & _ & _ & Failed & _).
  split; [|split; [|split; [|split]]].
  - destruct (Again readyWorld eq_refl eq_refl) as (w' & E & L & B & _).
    exists w'. repeat split; [exact E | exact L | rewrite B; reflexivity].
  - apply (Busy initializingWorld eq_refl).
  - apply (Flight initialWorld initializingWorld eq_refl).
  - destruct (Failed initialWorld (Foreign "wasm fetch failed") eq_refl eq_refl eq_refl)
      as (e & w' & E & He & Hr & L).
    exists e, w'. repeat split; [exact E | rewrite He; reflexivity | exact Hr | exact L].
  - destruct (Once initialWorld eq_refl eq_refl eq_refl)
      as (w1 & w2 & E1 & _ & B1 & E2 & _ & B2).
    exists w1, w2. repeat split; [exact E1 | exact E2 | rewrite B2, B1; reflexivity].
Defined.

(* ================================================================== *)
(** * A load from end to end *)
(* ================================================================== *)

Lemma loadIfcFile_start_outcome file sink w c w1 :
  loadIfcFile_start file (Some sink) w = (c, w1) ->
  (exists e, c = Throw e)
  \/ (c = Normal Pending
      /\ progressEvents (trace w1)
         = progressEvents (trace w) ++ [mkProgress 10 "Reading file..." reading]).
Proof.
  unfold loadIfcFile_start, ensureInitialized, tryCatch, bind, report, get.
  destruct (negb (isInitialized (loader w)) || negb (hasApi (loader w))).
  - intros H. injection H as <- _. left. eauto.
  - cbn. destruct (sink _).
    + cbn. intros H. injection H as <- _. left. eauto.
    + cbn. intros H. injection H as <- <-. right. split; [reflexivity|].
      cbn. rewrite !progressEvents_app. cbn. now rewrite app_nil_r.
Qed.

Lemma loadIfcFile_resume_progress host file sink w model w' :
  loadIfcFile_resume host file (Some sink) w = (Normal model, w') ->
  progressEvents (trace w')
    = progressEvents (trace w) ++
      [ mkProgress 30 "Opening IFC model..." parsing;
        mkProgress 50 "Generating geometry..." geometry;
        mkProgress 90 "Finalizing..." rendering;
        mkProgress 100 "Complete" complete ].
Proof.
  intros H.
  unfold loadIfcFile_resume, tryCatch, bind, report, ifcApi_bang,
    OpenModel, CloseModel, get in H.
  destruct (arrayBuffer file) as [e|data]; [discriminate H|].
  cbn in H. destruct (sink _) in H; [discriminate H|].
  cbn in H. destruct (ifcApi (loader w)) as [api|]; [|discriminate H].
  cbn in H. destruct (OpenModel_outcome host data) as [e|modelID]; [discriminate H|].
  cbn in H. destruct (sink _) in H; [discriminate H|].
  cbn in H.
  match type of H with
  | context [generateGeometry host modelID ?w3] =>
      pose proof (generateGeometry_sameProgress host modelID w3) as P;
      destruct (generateGeometry host modelID w3) as [[meshes|e] w4]
  end; [|discriminate H].
  cbn in H. destruct (sink _) in H; [discriminate H|].
  cbn in H. destruct (ifcApi (loader w4)) as [api'|]; [|discriminate H].
  cbn in H. destruct (sink _) in H; [discriminate H|].
  cbn in H. injection H as _ <-.
  unfold sameProgress in P. cbn in P. cbn.
  rewrite !progressEvents_app, P, !progressEvents_app. cbn.
  rewrite ?app_nil_r, <- ?app_assoc. reflexivity.
Qed.

(** C8: when [loadIfcFile] returns a model, the progress sink has been
    called exactly five times during the call, with 10/reading, 30/parsing,
    50/geometry, 90/rendering and 100/complete in this order; nothing else
    is reported, in particular nothing from within the geometry stage. *)
Theorem successful_load_reports_checkpoints host file sink w model w' :
  loadIfcFile host file (Some sink) w = (Normal model, w') ->
  progressEvents (trace w') = progressEvents (trace w) ++ checkpoints
  /\ map percent checkpoints = [10; 30; 50; 90; 100]%N
  /\ map stage checkpoints = [reading; parsing; geometry; rendering; complete].
Proof.
  intros H. split; [|split; reflexivity].
  unfold loadIfcFile, bind in H.
  destruct (loadIfcFile_start file (Some sink) w) as [c w1] eqn:S.
  destruct (loadIfcFile_start_outcome file sink w S) as [[e ->]|[-> P1]];
    [discriminate H|].
  rewrite (loadIfcFile_resume_progress host file sink w1 H), P1.
  unfold checkpoints. now rewrite <- app_assoc.
Qed.

Lemma successful_load_reports_checkpoints_witness :
  exists model w',
    loadIfcFile (workingHost scenarioDocument) sampleFile (Some listeningSink)
                readyWorld = (Normal model, w')
    /\ progressEvents (trace w') = checkpoints.
Proof.
  assert (E : exists model w',
             loadIfcFile (workingHost scenarioDocument) sampleFile
                         (Some listeningSink) readyWorld = (Normal model, w')).
  { vm_compute. eexists. eexists. reflexivity. }
  destruct E as (model & w' & E). exists model, w'. split; [exact E|].
  destruct (successful_load_reports_checkpoints _ _ _ _ E) as [P _].
  rewrite P. vm_compute. reflexivity.
Defined.

(** A load on which nothing outside the geometry stage raises. *)
Lemma loadIfcFile_succeeds host file onProgress w api data modelID flatMeshes :
  isInitialized (loader w) = true ->
  ifcApi (loader w) = Some api ->
  arrayBuffer file = inr data ->
  OpenModel_outcome host data = inr modelID ->
  LoadAllGeometry_outcome host modelID = inr flatMeshes ->
  quietSink onProgress ->
  exists w',
    loadIfcFile host file onProgress w
      = (Normal (assembled host file data (meshesOfDocument flatMeshes)), w')
    /\ (forall i j entry,
          placementAt flatMeshes i j = Some entry ->
          throwing entry = true ->
          In (placementWarning i j) (trace w'))
    /\ openModels w' = remove Nat.eq_dec modelID (modelID :: openModels w).
Proof.
  intros Hed Hapi Hbuf Hopen Hdoc Hsink.
  destruct onProgress as [sink|];
    [assert (Hs : forall p, sink p = None) by (intros p; now apply Hsink)|];
    unfold loadIfcFile, loadIfcFile_start, loadIfcFile_resume, ensureInitialized,
      tryCatch, bind, report, hasApi, ifcApi_bang, OpenModel, CloseModel, get;
    rewrite Hed, Hapi; cbn; rewrite ?Hs; cbn; rewrite Hbuf; cbn;
    rewrite ?Hs; cbn; rewrite ?Hapi; cbn; rewrite Hopen; cbn; rewrite ?Hs; cbn;
    match goal with
    | |- context [generateGeometry host modelID ?w3] =>
        destruct (@generateGeometry_outcome host modelID api flatMeshes w3 Hapi Hdoc)
          as (w4 & G & L);
        pose proof (generateGeometry_sameLoader host modelID w3) as SL;
        pose proof (generateGeometry_sameOpenModels host modelID w3) as SO;
        rewrite G in SL, SO |- *
    end;
    unfold sameLoader in SL; unfold sameOpenModels in SO; cbn in SL, SO;
    cbn; rewrite ?Hs; cbn; rewrite SL, Hapi; cbn; rewrite ?Hs; cbn;
    (eexists; split; [reflexivity|]; split;
     [ intros i j entry Hat Ht; cbn;
       repeat (apply in_or_app; left); now apply (L i j entry)
     | cbn; rewrite SO; reflexivity ]).
Qed.

Lemma meshes_of_added meshes :
  forall name children,
    meshes_of (fold_left (fun group mesh => THREE.add group (THREE.MeshNode mesh []))
                         meshes (THREE.GroupNode name children))
    = flat_map meshes_of children ++ meshes.
Proof.
  induction meshes as [|mesh rest IH]; intros name children; cbn [fold_left].
  - cbn. now rewrite app_nil_r.
  - cbn [THREE.add]. rewrite IH, flat_map_app. cbn. now rewrite <- app_assoc.
Qed.

Lemma throwing_not_convertible entry :
  throwing entry = true -> convertible entry = false.
Proof.
  destruct entry as [[pl buf [[[| |] e]|]]|]; cbn; intros H;
    try reflexivity; discriminate H.
Qed.

Lemma placementAt_middle before partId g1 entry g2 after :
  placementAt (before ++ [WebIfc.mkFlatMesh partId (g1 ++ [entry] ++ g2)] ++ after)
              (List.length before) (List.length g1)
    = Some entry.
Proof.
  unfold placementAt.
  rewrite nth_error_app2, Nat.sub_diag by apply Nat.le_refl. cbn.
  rewrite nth_error_app2, Nat.sub_diag by apply Nat.le_refl. reflexivity.
Qed.

(** C3: take a document whose placements are all convertible except one,
    the entry [j] of part [i], on which foreign code raises.  Then
    [generateGeometry] catches that exception and logs a warning naming
    [j] and [i], and the load as a whole returns a model: with [N]
    placements in the document the model holds exactly [N - 1] meshes
    (as [metadata.meshCount] and in its group). *)
Theorem single_placement_failure_is_isolated
    host file onProgress w api data modelID before partId g1 p g2 after :
  let flatMeshes :=
    before ++ [WebIfc.mkFlatMesh partId (g1 ++ [Some p] ++ g2)] ++ after in
  let i := List.length before in
  let j := List.length g1 in
  let N := List.length (placements flatMeshes) in
  isInitialized (loader w) = true ->
  ifcApi (loader w) = Some api ->
  arrayBuffer file = inr data ->
  OpenModel_outcome host data = inr modelID ->
  LoadAllGeometry_outcome host modelID = inr flatMeshes ->
  quietSink onProgress ->
  throwing (Some p) = true ->
  forallb convertible (placements before) = true ->
  forallb convertible g1 = true ->
  forallb convertible g2 = true ->
  forallb convertible (placements after) = true ->
  exists model w',
    loadIfcFile host file onProgress w = (Normal model, w')
    /\ meshCount (IfcModel._metadata model) = N - 1
    /\ List.length (meshes_of (IfcModel._modelGroup model)) = N - 1
    /\ In (placementWarning i j) (trace w').
Proof.
  intros flatMeshes i j N Hed Hapi Hbuf Hopen Hdoc Hsink Hthrow Hb H1 H2 Ha.
  destruct (@loadIfcFile_succeeds host file onProgress w api data modelID flatMeshes
              Hed Hapi Hbuf Hopen Hdoc Hsink)
    as (w' & Hload & Hlog & _).
  assert (Hcount : List.length (meshesOfDocument flatMeshes) = N - 1).
  { rewrite meshesOfDocument_length. unfold N, flatMeshes, placements.
    rewrite !flat_map_app. cbn [flat_map WebIfc.geometries].
    rewrite !filter_app, !length_app. cbn [filter].
    rewrite (@throwing_not_convertible (Some p) Hthrow).
    fold (placements before). fold (placements after).
    rewrite (@filter_all _ convertible _ Hb), (@filter_all _ convertible _ H1),
      (@filter_all _ convertible _ H2), (@filter_all _ convertible _ Ha).
    cbn [List.length app]. lia. }
  exists (assembled host file data (meshesOfDocument flatMeshes)), w'.
  split; [exact Hload|]. split; [exact Hcount|]. split.
  - cbn. rewrite meshes_of_added. exact Hcount.
  - apply (Hlog i j (Some p)); [apply placementAt_middle | exact Hthrow].
Qed.

Lemma single_placement_failure_is_isolated_witness :
  exists model w',
    loadIfcFile
      (workingHost ([] ++ [WebIfc.mkFlatMesh 100
                             ([Some (WebIfc.mkPlacement (placedWithAlpha 12 Js.lit_0_3) triangle None)]
                              ++ [Some faultyPlacement]
                              ++ [Some (WebIfc.mkPlacement (placedWithAlpha 13 Js.one) triangle None)])]
                       ++ []))
      sampleFile (Some listeningSink) readyWorld = (Normal model, w')
    /\ meshCount (IfcModel._metadata model) = 2
    /\ List.length (meshes_of (IfcModel._modelGroup model)) = 2
    /\ In (EvLog LogLevel.Warn "Error processing geometry 1 of mesh 0" SERVICE)
          (trace w').
Proof.
  apply (@single_placement_failure_is_isolated
           (workingHost ([] ++ [WebIfc.mkFlatMesh 100
                             ([Some (WebIfc.mkPlacement (placedWithAlpha 12 Js.lit_0_3) triangle None)]
                              ++ [Some faultyPlacement]
                              ++ [Some (WebIfc.mkPlacement (placedWithAlpha 13 Js.one) triangle None)])]
                       ++ []))
           sampleFile (Some listeningSink) readyWorld 0
           [Byte.x49; Byte.x53; Byte.x4f; Byte.x2d] 1
           [] 100
           [Some (WebIfc.mkPlacement (placedWithAlpha 12 Js.lit_0_3) triangle None)]
           faultyPlacement
           [Some (WebIfc.mkPlacement (placedWithAlpha 13 Js.one) triangle None)]
           []);
    try reflexivity.
  intros sink p H. injection H as <-. reflexivity.
Defined.

(* ================================================================== *)
(** * Single placements *)
(* ================================================================== *)

(** C6: a placement whose arrays can be read and of which the vertex
    array or the index array is absent or has length zero yields no mesh
    and no error: the iteration completes normally with the array of
    meshes unchanged, the only calls made are [GetGeometry] and the
    [delete()] of the object it returned (which is no longer live
    afterwards, and no warning is logged), and the loop goes on with the
    next entry. *)
Theorem empty_arrays_are_skipped api modelID i j flatMesh p rest meshes w :
  readable p = true ->
  nothingToRender (WebIfc.vertexArray (WebIfc.buffers p))
                  (WebIfc.indexArray (WebIfc.buffers p)) = true ->
  let handle := nextRef w in
  let w' :=
    mkWorld (loader w) (S (nextRef w)) (openModels w)
            (remove Nat.eq_dec handle (handle :: liveGeometries w))
            (trace w ++
             [EvGetGeometry api modelID (WebIfc.geometryExpressID (WebIfc.placed p));
              EvGeometryDelete handle]) in
  processPlacement api modelID i j flatMesh p meshes w = (Normal meshes, w')
  /\ ~ In handle (liveGeometries w')
  /\ meshFrom flatMesh (Some p) = []
  /\ forGeometries api modelID i flatMesh j (Some p :: rest) meshes w
     = forGeometries api modelID i flatMesh (S j) rest meshes w'.
Proof.
  intros Hread Hempty handle w'.
  assert (Hrun : processPlacement api modelID i j flatMesh p meshes w
                 = (Normal meshes, w')).
  { subst w' handle. destruct p as [pl [v ix] f].
    unfold readable in Hread.
    cbn [WebIfc.fault WebIfc.buffers WebIfc.vertexArray WebIfc.indexArray]
      in Hread, Hempty.
    destruct f as [[[| |] e]|]; try discriminate Hread;
      destruct v as [v|]; destruct ix as [ix|];
      cbv beta iota zeta delta
        [processPlacement tryCatch bind GetGeometry readBuffers geometry_delete
         constructMesh get fresh emit setLiveGeometries ret throw
         WebIfc.fault WebIfc.buffers WebIfc.vertexArray WebIfc.indexArray
         WebIfc.placed loader nextRef openModels liveGeometries trace];
      rewrite ?Hempty;
      cbv beta iota zeta delta
        [loader nextRef openModels liveGeometries trace];
      rewrite <- app_assoc; reflexivity. }
  split; [exact Hrun|]. split; [|split].
  - subst w'. cbn [liveGeometries]. apply remove_In.
  - destruct p as [pl [v ix] f]. cbn in Hempty |- *.
    destruct f; [reflexivity|].
    destruct v as [v|]; [|reflexivity].
    destruct ix as [ix|]; [|reflexivity].
    cbn [nothingToRender] in Hempty |- *. now rewrite Hempty.
  - cbn [forGeometries]. unfold bind. now rewrite Hrun.
Qed.

Lemma empty_arrays_are_skipped_witness :
  processPlacement 0 1 0 0 (WebIfc.mkFlatMesh 100 [])
      (WebIfc.mkPlacement (placedWithAlpha 11 Js.one) noIndices None)
      [] readyWorld
    = (Normal [],
       mkWorld (loader readyWorld) 2 [] []
               (trace readyWorld ++ [EvGetGeometry 0 1 11; EvGeometryDelete 1]))
  /\ meshFrom (WebIfc.mkFlatMesh 100 [])
              (Some (WebIfc.mkPlacement (placedWithAlpha 11 Js.one) noIndices None)) = [].
Proof.
  destruct (@empty_arrays_are_skipped 0 1 0 0 (WebIfc.mkFlatMesh 100 [])
              (WebIfc.mkPlacement (placedWithAlpha 11 Js.one) noIndices None)
              [] [] readyWorld eq_refl eq_refl) as (Hrun & _ & Hnone & _).
  split; [|exact Hnone].
  rewrite Hrun. vm_compute. reflexivity.
Defined.

(** When foreign code raises after [GetGeometry] has handed out the
    geometry object, the iteration ends in the [catch] block, which does
    not delete it: the object stays live and only the warning is added. *)
Lemma processPlacement_keeps_geometry_on_throw
    api modelID i j flatMesh p meshes w :
  throwing (Some p) = true ->
  (forall e, WebIfc.fault p <> Some (WebIfc.AtGetGeometry, e)) ->
  processPlacement api modelID i j flatMesh p meshes w
    = (Normal meshes,
       mkWorld (loader w) (S (nextRef w)) (openModels w)
               (nextRef w :: liveGeometries w)
               (trace w ++
                [EvGetGeometry api modelID (WebIfc.geometryExpressID (WebIfc.placed p));
                 placementWarning i j])).
Proof.
  intros Hthrow Hnot. destruct p as [pl [v ix] f].
  cbn [throwing WebIfc.fault WebIfc.buffers WebIfc.vertexArray WebIfc.indexArray]
    in Hthrow, Hnot.
  destruct f as [[[| |] e]|]; try discriminate Hthrow.
  - exfalso. now apply (Hnot e).
  - cbv beta iota zeta delta
      [processPlacement tryCatch bind GetGeometry readBuffers geometry_delete
       constructMesh get fresh emit setLiveGeometries ret throw logger_warn
       WebIfc.fault WebIfc.buffers WebIfc.vertexArray WebIfc.indexArray
       WebIfc.placed loader nextRef openModels liveGeometries trace placementWarning].
    rewrite <- app_assoc. reflexivity.
  - apply negb_true_iff in Hthrow.
    destruct v as [v|]; [|discriminate Hthrow].
    destruct ix as [ix|]; [|discriminate Hthrow].
    cbv beta iota zeta delta
      [processPlacement tryCatch bind GetGeometry readBuffers geometry_delete
       constructMesh get fresh emit setLiveGeometries ret throw logger_warn
       WebIfc.fault WebIfc.buffers WebIfc.vertexArray WebIfc.indexArray
       WebIfc.placed loader nextRef openModels liveGeometries trace placementWarning].
    rewrite Hthrow.
    cbv beta iota zeta delta
      [loader nextRef openModels liveGeometries trace].
    rewrite <- app_assoc. reflexivity.
Qed.

(** C2, which the code does not uphold: on [faultyPlacement], where the
    3D library raises after [GetGeometry] returned, the iteration ends
    with the geometry object 1 still live and without any [delete()] in
    the trace; and after a whole load of [faultyDocument] - which
    succeeds with the two other meshes - that object is still live, while
    the objects of the two converted placements were deleted. *)
Theorem geometry_not_released_when_conversion_throws :
  (exists w',
     processPlacement 0 1 0 1 (WebIfc.mkFlatMesh 100 []) faultyPlacement []
                      readyWorld = (Normal [], w')
     /\ liveGeometries w' = [1]
     /\ existsb (isGeometryDelete 1) (trace w') = false
     /\ trace w' = trace readyWorld ++
                   [EvGetGeometry 0 1 14;
                    EvLog LogLevel.Warn "Error processing geometry 1 of mesh 0" SERVICE])
  /\ (exists model w',
        loadIfcFile (workingHost faultyDocument) sampleFile (Some listeningSink)
                    readyWorld = (Normal model, w')
        /\ meshCount (IfcModel._metadata model) = 2
        /\ liveGeometries w' = [2]
        /\ existsb (isGeometryDelete 1) (trace w') = true
        /\ existsb (isGeometryDelete 2) (trace w') = false
        /\ existsb (isGeometryDelete 3) (trace w') = true).
Proof.
  split.
  - eexists. split; [vm_compute; reflexivity|].
    repeat split; vm_compute; reflexivity.
  - eexists. eexists. split; [vm_compute; reflexivity|].
    repeat split; vm_compute; reflexivity.
Qed.

(** A load during which the engine fails to walk the geometry of the
    document it has just opened. *)
Lemma loadIfcFile_geometry_stage_fails host file w api data modelID error :
  isInitialized (loader w) = true ->
  ifcApi (loader w) = Some api ->
  arrayBuffer file = inr data ->
  OpenModel_outcome host data = inr modelID ->
  LoadAllGeometry_outcome host modelID = inl error ->
  loadIfcFile host file None w
    = (Throw (IfcLoadError ("Failed to load IFC file: " ++ file_name file)%string
                (Some error)
                [("fileName", CtxString (file_name file));
                 ("fileSize", CtxNumber (file_size file))]),
       mkWorld (loader w) (nextRef w) (modelID :: openModels w) (liveGeometries w)
               (trace w ++
                [EvLog LogLevel.Info "Loading IFC file" SERVICE;
                 EvOpenModel api data;
                 EvLoadAllGeometry api modelID;
                 EvLog LogLevel.Error "Failed to load IFC file" SERVICE])).
Proof.
  intros Hed Hapi Hbuf Hopen Hdoc.
  unfold loadIfcFile, loadIfcFile_start, loadIfcFile_resume, ensureInitialized,
    generateGeometry, LoadAllGeometry, loadFailed, logger_error, logger_info,
    tryCatch, bind, report, hasApi, ifcApi_bang, OpenModel, CloseModel, get.
  rewrite Hed, Hapi. cbn. rewrite Hbuf. cbn. rewrite Hapi. cbn.
  rewrite Hopen. cbn. rewrite Hapi. cbn. rewrite Hdoc. cbn.
  repeat rewrite <- app_assoc. reflexivity.
Qed.

(** C1, which the code does not uphold: on [corruptHost], [OpenModel]
    succeeds with handle 1 and [LoadAllGeometry] then raises.
    [loadIfcFile] throws the [IfcLoadError] with the file's name and size,
    but no [CloseModel] was called on the way: the engine still holds
    document 1 open.  On the same file with a working engine the handle
    is closed before the call returns. *)
Theorem model_not_closed_when_load_fails :
  (exists e w',
     loadIfcFile corruptHost sampleFile (Some listeningSink) readyWorld = (Throw e, w')
     /\ e = IfcLoadError "Failed to load IFC file: house.ifc"
              (Some (Foreign "LoadAllGeometry: malformed entity graph"))
              [("fileName", CtxString "house.ifc"); ("fileSize", CtxNumber 4)]
     /\ In (EvOpenModel 0 [Byte.x49; Byte.x53; Byte.x4f; Byte.x2d]) (trace w')
     /\ existsb (isCloseModel 1) (trace w') = false
     /\ openModels w' = [1])
  /\ (exists model w',
        loadIfcFile (workingHost scenarioDocument) sampleFile (Some listeningSink)
                    readyWorld = (Normal model, w')
        /\ existsb (isCloseModel 1) (trace w') = true
        /\ openModels w' = []).
Proof.
  split.
  - eexists. eexists. split; [vm_compute; reflexivity|].
    repeat split; try (vm_compute; reflexivity).
    vm_compute. auto 20.
  - eexists. eexists. split; [vm_compute; reflexivity|].
    repeat split; vm_compute; reflexivity.
Qed.

(* ================================================================== *)
(** * Materials *)
(* ================================================================== *)

Lemma meshFrom_inv flatMesh p mesh :
  In mesh (meshFrom flatMesh (Some p)) ->
  exists verts indices,
    mesh = buildMesh flatMesh (WebIfc.placed p) verts indices.
Proof.
  destruct p as [pl [v ix] f]. cbn.
  destruct f as [[? ?]|]; [intros []|].
  destruct v as [v|]; [|intros []].
  destruct ix as [ix|]; [|intros []].
  destruct ((List.length v =? 0)%nat || (List.length ix =? 0)%nat);
    [intros []|].
  intros [<-|[]]. now exists v, ix.
Qed.

Lemma clamp01_NaN (c : Js.number) :
  Js.isNaN c = true -> clamp01 c = Js.NaN.
Proof. destruct c; try discriminate. reflexivity. Qed.

(** C7, as the code has it: the mesh of every converted placement
    carries one material whose colour channels and opacity are
    [Math.max(0, Math.min(1, c))] of the raw red, green, blue and alpha.
    Such a channel lies within [0,1] whenever the raw channel is a
    number, and is NaN when the raw channel is NaN.  With [a] the
    resulting alpha, [opacity = a], [transparent = (a < 0.99)] and
    [depthWrite = (a >= 0.99)] for every input, so both flags are false
    for a NaN alpha; alpha 1.0 gives an opaque material that writes
    depth, alpha 0.5 a transparent one that does not, and alpha 0.995 is
    still opaque. *)
Theorem material_follows_raw_color flatMesh p mesh :
  In mesh (meshFrom flatMesh (Some p)) ->
  let raw := WebIfc.color (WebIfc.placed p) in
  exists material,
    THREE.mesh_material mesh = THREE.OneMaterial material
    /\ THREE.r (THREE.color material) = clamp01 (WebIfc.x raw)
    /\ THREE.g (THREE.color material) = clamp01 (WebIfc.y raw)
    /\ THREE.b (THREE.color material) = clamp01 (WebIfc.z raw)
    /\ THREE.opacity material = clamp01 (WebIfc.w raw)
    /\ (isNumber (WebIfc.x raw) -> inUnitInterval (THREE.r (THREE.color material)))
    /\ (isNumber (WebIfc.y raw) -> inUnitInterval (THREE.g (THREE.color material)))
    /\ (isNumber (WebIfc.z raw) -> inUnitInterval (THREE.b (THREE.color material)))
    /\ (isNumber (WebIfc.w raw) -> inUnitInterval (THREE.opacity material))
    /\ (Js.isNaN (WebIfc.x raw) = true -> THREE.r (THREE.color material) = Js.NaN)
    /\ (Js.isNaN (WebIfc.y raw) = true -> THREE.g (THREE.color material) = Js.NaN)
    /\ (Js.isNaN (WebIfc.z raw) = true -> THREE.b (THREE.color material) = Js.NaN)
    /\ (Js.isNaN (WebIfc.w raw) = true ->
        THREE.opacity material = Js.NaN
        /\ THREE.transparent material = false
        /\ THREE.depthWrite material = false)
    /\ THREE.transparent material = Js.lt (THREE.opacity material) Js.lit_0_99
    /\ THREE.depthWrite material = Js.ge (THREE.opacity material) Js.lit_0_99
    /\ (WebIfc.w raw = Js.one ->
        THREE.transparent material = false /\ THREE.depthWrite material = true)
    /\ (WebIfc.w raw = Js.lit_0_5 ->
        THREE.transparent material = true /\ THREE.depthWrite material = false)
    /\ (WebIfc.w raw = Js.lit_0_995 ->
        THREE.transparent material = false /\ THREE.depthWrite material = true).
Proof.
  intros Hin raw.
  destruct (meshFrom_inv flatMesh p mesh Hin) as (verts & indices & ->).
  exists (buildMaterial raw).
  split; [reflexivity|].
  repeat (split; [reflexivity|]).
  repeat (split; [intros Hc; now apply clamp01_range|]).
  repeat (split; [intros Hc; now apply clamp01_NaN|]).
  split.
  { intros Hc. cbn. rewrite (clamp01_NaN _ Hc). repeat split. }
  repeat (split; [reflexivity|]).
  split; [|split]; intros Ha; cbn; rewrite Ha; split; reflexivity.
Qed.

Lemma material_follows_raw_color_witness :
  exists material,
    THREE.mesh_material
      (buildMesh (WebIfc.mkFlatMesh 100 []) (placedWithAlpha 12 Js.lit_0_3)
                 [Js.zero; Js.zero; Js.zero] [0%N; 0%N; 0%N])
      = THREE.OneMaterial material
    /\ THREE.color material = THREE.mkColor Js.one Js.zero Js.lit_0_5
    /\ THREE.opacity material = Js.lit_0_3
    /\ THREE.transparent material = true
    /\ THREE.depthWrite material = false.
Proof.
  destruct (@material_follows_raw_color
              (WebIfc.mkFlatMesh 100 [])
              (WebIfc.mkPlacement (placedWithAlpha 12 Js.lit_0_3)
                 (WebIfc.mkIfcGeometry (Some [Js.zero; Js.zero; Js.zero])
                                       (Some [0%N; 0%N; 0%N])) None)
              (buildMesh (WebIfc.mkFlatMesh 100 []) (placedWithAlpha 12 Js.lit_0_3)
                         [Js.zero; Js.zero; Js.zero] [0%N; 0%N; 0%N])
              (or_introl eq_refl))
    as (material & Hm & Hr & Hg & Hb & Ho & _ & _ & _ & _ & _ & _ & _ & _
        & Ht & Hd & _).
  exists material. split; [exact Hm|].
  split.
  - destruct material as [[r g b] side transparent opacity depthWrite].
    cbn in Hr, Hg, Hb. rewrite Hr, Hg, Hb. reflexivity.
  - split; [rewrite Ho; reflexivity|].
    split; [rewrite Ht, Ho; reflexivity | rewrite Hd, Ho; reflexivity].
Defined.

(** A converted placement whose red and alpha are NaN: the load returns
    its mesh, and neither the red channel nor the opacity of the
    material is within [0,1]. *)
Lemma NaN_channel_is_not_clamped :
  convertible (Some colourlessPlacement) = true
  /\ exists model w' mesh material,
       loadIfcFile (workingHost colourlessDocument) sampleFile None readyWorld
         = (Normal model, w')
       /\ meshes_of (IfcModel._modelGroup model) = [mesh]
       /\ In mesh (meshFrom (WebIfc.mkFlatMesh 100 [Some colourlessPlacement])
                            (Some colourlessPlacement))
       /\ THREE.mesh_material mesh = THREE.OneMaterial material
       /\ ~ inUnitInterval (THREE.r (THREE.color material))
       /\ ~ inUnitInterval (THREE.opacity material).
Proof.
  split; [reflexivity|].
  eexists. eexists. eexists. eexists.
  split; [vm_compute; reflexivity|].
  split; [vm_compute; reflexivity|].
  split; [left; vm_compute; reflexivity|].
  split; [vm_compute; reflexivity|].
  split; intros [H _]; vm_compute in H; discriminate H.
Qed.

(* ================================================================== *)
(** * Disposal of a model *)
(* ================================================================== *)

Lemma in_flat_map_traverse (E : Type) (callback : THREE.Object3D -> list E)
    children child (call : E) :
  In child children -> In call (traverse callback child) ->
  In call (flat_map (traverse callback) children).
Proof.
  intros Hc Hcall. apply in_flat_map. now exists child.
Qed.

(** [traverse] reaches every mesh below the object it starts from. *)
Lemma traverse_disposes_every_mesh o :
  forall mesh, In mesh (meshes_of o) ->
    (forall geo, THREE.mesh_geometry mesh = Some geo ->
       In (THREE.GeometryDispose geo) (traverse IfcModel.disposeObject o))
    /\ (forall mat, In mat (materials_of mesh) ->
          In (THREE.MaterialDispose mat) (traverse IfcModel.disposeObject o)).
Proof.
  induction o as [name children IH | m children IH] using Object3D_nested_ind;
    intros mesh Hin.
  - cbn [meshes_of] in Hin. apply in_flat_map in Hin as (child & Hchild & Hmesh).
    rewrite Forall_forall in IH.
    destruct (IH child Hchild mesh Hmesh) as [Hg Hm].
    split; intros x Hx; cbn [traverse IfcModel.disposeObject app];
      eapply in_flat_map_traverse; eauto.
  - cbn [meshes_of] in Hin. destruct Hin as [<-|Hin].
    + split; intros x Hx; cbn [traverse]; apply in_or_app; left;
        cbn [IfcModel.disposeObject]; apply in_or_app.
      * left. rewrite Hx. now left.
      * right. unfold materials_of in Hx.
        destruct (THREE.mesh_material m) as [|mat|mats].
        -- destruct Hx.
        -- destruct Hx as [<-|[]]. now left.
        -- now apply in_map.
    + apply in_flat_map in Hin as (child & Hchild & Hmesh).
      rewrite Forall_forall in IH.
      destruct (IH child Hchild mesh Hmesh) as [Hg Hm].
      split; intros x Hx; cbn [traverse]; apply in_or_app; right;
        eapply in_flat_map_traverse; eauto.
Qed.

(** C5: the first [dispose()] of a model releases the geometry and every
    material of every mesh of its group, empties the group and sets the
    disposed flag; a second [dispose()] changes nothing and releases
    nothing; from then on the getters [modelGroup] and [rawData] throw
    "Cannot access disposed IFC model", while [metadata] still returns
    the record the model was built with. *)
Theorem dispose_is_idempotent_and_guards_access (model : IfcModel.t) :
  IfcModel._disposed model = false ->
  let disposed := fst (IfcModel.dispose model) in
  let calls := snd (IfcModel.dispose model) in
  IfcModel.get_isDisposed disposed = true
  /\ THREE.children_of (IfcModel._modelGroup disposed) = []
  /\ (forall mesh, In mesh (meshes_of (IfcModel._modelGroup model)) ->
        (forall geo, THREE.mesh_geometry mesh = Some geo ->
           In (THREE.GeometryDispose geo) calls)
        /\ (forall mat, In mat (materials_of mesh) ->
              In (THREE.MaterialDispose mat) calls))
  /\ IfcModel.dispose disposed = (disposed, [])
  /\ IfcModel.get_modelGroup disposed
       = Throw (JsError "Cannot access disposed IFC model")
  /\ IfcModel.get_rawData disposed
       = Throw (JsError "Cannot access disposed IFC model")
  /\ IfcModel.get_metadata disposed = Normal (IfcModel._metadata model)
  /\ IfcModel.get_modelGroup model = Normal (IfcModel._modelGroup model)
  /\ IfcModel.get_rawData model = Normal (IfcModel._rawData model).
Proof.
  intros Hlive disposed calls. subst disposed calls.
  assert (Hrun : IfcModel.dispose model
                 = (IfcModel.mk (THREE.clear (IfcModel._modelGroup model))
                                (IfcModel._metadata model)
                                (IfcModel._rawData model) true,
                    traverse IfcModel.disposeObject (IfcModel._modelGroup model))).
  { unfold IfcModel.dispose. now rewrite Hlive. }
  rewrite Hrun. cbn [fst snd].
  split; [reflexivity|].
  split; [destruct (IfcModel._modelGroup model); reflexivity|].
  split; [apply traverse_disposes_every_mesh|].
  split; [reflexivity|].
  split; [reflexivity|].
  split; [reflexivity|].
  split; [reflexivity|].
  unfold IfcModel.get_modelGroup, IfcModel.get_rawData, IfcModel.ensureNotDisposed.
  rewrite Hlive. split; reflexivity.
Qed.

Lemma dispose_is_idempotent_and_guards_access_witness :
  IfcModel.get_isDisposed (fst (IfcModel.dispose scenarioModel)) = true
  /\ List.length (snd (IfcModel.dispose scenarioModel)) = 4
  /\ IfcModel.dispose (fst (IfcModel.dispose scenarioModel))
       = (fst (IfcModel.dispose scenarioModel), [])
  /\ IfcModel.get_modelGroup (fst (IfcModel.dispose scenarioModel))
       = Throw (JsError "Cannot access disposed IFC model")
  /\ IfcModel.get_rawData (fst (IfcModel.dispose scenarioModel))
       = Throw (JsError "Cannot access disposed IFC model")
  /\ IfcModel.get_metadata (fst (IfcModel.dispose scenarioModel))
       = Normal (IfcModel._metadata scenarioModel).
Proof.
  destruct (@dispose_is_idempotent_and_guards_access scenarioModel eq_refl)
    as (Hflag & _ & _ & Hagain & Hgroup & Hraw & Hmeta & _).
  split; [exact Hflag|].
  split; [vm_compute; reflexivity|].
  split; [exact Hagain|].
  split; [exact Hgroup|].
  split; [exact Hraw | exact Hmeta].
Defined.

(* ================================================================== *)
(** * The specification's examples, run *)
(* ================================================================== *)

(** Channels outside [0,1] end at the nearer bound. *)
Example clamp_examples :
  clamp01 Js.lit_neg_0_2 = Js.zero
  /\ clamp01 Js.lit_1_5 = Js.one
  /\ clamp01 Js.lit_0_5 = Js.lit_0_5.
Proof. repeat split; vm_compute; reflexivity. Qed.

(** Three placements - one without indices, one with alpha 0.3, one
    opaque - load as two meshes, the first transparent, the second not. *)
Example scenario_three_placements :
  exists model w',
    loadIfcFile (workingHost scenarioDocument) sampleFile (Some listeningSink)
                readyWorld = (Normal model, w')
    /\ meshCount (IfcModel._metadata model) = 2
    /\ map (fun mesh => map THREE.transparent (materials_of mesh))
           (meshes_of (IfcModel._modelGroup model))
       = [[true]; [false]]
    /\ liveGeometries w' = []
    /\ openModels w' = [].
Proof.
  eexists. eexists. split; [vm_compute; reflexivity|].
  repeat split; vm_compute; reflexivity.
Qed.

(** A setup that is started twice before the engine answers: the second
    call is rejected, the first one completes. *)
Example concurrent_setup :
  exists w1 w2,
    initialize_start DEFAULT_VIEWER_CONFIG initialWorld = (Normal Pending, w1)
    /\ initialize_start DEFAULT_VIEWER_CONFIG w1
       = (Throw (JsError "IFC Loader initialization already in progress"), w1)
    /\ initialize_resume DEFAULT_VIEWER_CONFIG None w1 = (Normal tt, w2)
    /\ loader w2 = mkLoader (Some 0) true false
    /\ bootstrapCalls (trace w2) = 1.
Proof.
  eexists. eexists. split; [vm_compute; reflexivity|].
  repeat split; vm_compute; reflexivity.
Qed.

(** [Math.min] and [Math.max] propagate NaN, so a channel that is not a
    number is not brought into [0,1]; such a material is neither
    transparent nor depth-writing. *)
Example clamp_of_NaN :
  clamp01 Js.NaN = Js.NaN
  /\ Js.lt (clamp01 Js.NaN) Js.lit_0_99 = false
  /\ Js.ge (clamp01 Js.NaN) Js.lit_0_99 = false.
Proof. repeat split. Qed.

(* ================================================================== *)
(** * More on [loadIfcFile] *)
(* ================================================================== *)

Lemma tryCatch_loadFailed (A : Type) (body : M A) file w e w' :
  tryCatch body (loadFailed file) w = (Throw e, w') ->
  exists cause,
    e = IfcLoadError ("Failed to load IFC file: " ++ file_name file)%string
          (Some cause)
          [("fileName", CtxString (file_name file));
           ("fileSize", CtxNumber (file_size file))].
Proof.
  unfold tryCatch. destruct (body w) as [[a|cause] w1].
  - intros H. discriminate H.
  - cbn. intros H. injection H as <- _. now exists cause.
Qed.

(** X1: whatever [loadIfcFile] throws is an [IfcLoadError]: either the
    guard's "IFC Loader not initialized" (thrown before anything is done,
    with the world untouched), or "Failed to load IFC file: <name>" with
    the file's name and size as context and the original exception kept.
    No exception of the engine, the 3D library or the sink escapes as it
    is. *)
Theorem loadIfcFile_throws_only_IfcLoadError host file onProgress w e w' :
  loadIfcFile host file onProgress w = (Throw e, w') ->
  exn_code e = Some IFC_LOAD_FAILED
  /\ exn_recoverable e = Some true
  /\ ((e = IfcLoadError "IFC Loader not initialized" None
             [("isInitialized", CtxBool (isInitialized (loader w)));
              ("hasApi", CtxBool (hasApi (loader w)))]
       /\ w' = w)
      \/ exists cause,
           e = IfcLoadError ("Failed to load IFC file: " ++ file_name file)%string
                 (Some cause)
                 [("fileName", CtxString (file_name file));
                  ("fileSize", CtxNumber (file_size file))]).
Proof.
  intros H.
  assert (Hshape :
    (e = IfcLoadError "IFC Loader not initialized" None
           [("isInitialized", CtxBool (isInitialized (loader w)));
            ("hasApi", CtxBool (hasApi (loader w)))]
     /\ w' = w)
    \/ exists cause,
         e = IfcLoadError ("Failed to load IFC file: " ++ file_name file)%string
               (Some cause)
               [("fileName", CtxString (file_name file));
                ("fileSize", CtxNumber (file_size file))]).
  { unfold loadIfcFile, bind in H.
    destruct (loadIfcFile_start file onProgress w) as [[[model|]|e0] w1] eqn:S.
    - discriminate H.
    - right. unfold loadIfcFile_resume in H.
      apply (tryCatch_loadFailed _ file w1 H).
    - injection H as <- <-.
      unfold loadIfcFile_start, ensureInitialized, bind, get in S.
      destruct (negb (isInitialized (loader w)) || negb (hasApi (loader w))).
      + left. injection S as <- <-. split; reflexivity.
      + right. cbv beta iota delta [ret logger_info emit] in S.
        apply (tryCatch_loadFailed _ file _ S). }
  destruct Hshape as [[-> ->]|[cause ->]].
  - split; [reflexivity|]. split; [reflexivity|]. left. split; reflexivity.
  - split; [reflexivity|]. split; [reflexivity|]. right. now exists cause.
Qed.

Lemma loadIfcFile_throws_only_IfcLoadError_witness :
  exists e w',
    loadIfcFile corruptHost sampleFile (Some listeningSink) readyWorld = (Throw e, w')
    /\ exn_code e = Some IFC_LOAD_FAILED
    /\ exn_recoverable e = Some true.
Proof.
  assert (E : exists e w',
             loadIfcFile corruptHost sampleFile (Some listeningSink) readyWorld
               = (Throw e, w')).
  { vm_compute. eexists. eexists. reflexivity. }
  destruct E as (e & w' & E). exists e, w'. split; [exact E|].
  destruct (loadIfcFile_throws_only_IfcLoadError _ _ _ _ E) as (Hc & Hr & _).
  split; [exact Hc | exact Hr].
Defined.

(* ================================================================== *)
(** * More on [generateGeometry] *)
(* ================================================================== *)

(** X2: on an engine that can walk the document, [generateGeometry]
    always returns, however many placements are null, empty or raise: it
    yields exactly one mesh per convertible placement and logs one
    warning, naming the counters, for every placement that raised. *)
Theorem generateGeometry_absorbs_every_placement_failure
    host modelID api flatMeshes w :
  ifcApi (loader w) = Some api ->
  LoadAllGeometry_outcome host modelID = inr flatMeshes ->
  exists meshes w',
    generateGeometry host modelID w = (Normal meshes, w')
    /\ List.length meshes = List.length (filter convertible (placements flatMeshes))
    /\ (forall i j entry,
          placementAt flatMeshes i j = Some entry ->
          throwing entry = true ->
          In (placementWarning i j) (trace w')).
Proof.
  intros Hapi Hdoc.
  destruct (@generateGeometry_outcome host modelID api flatMeshes w Hapi Hdoc)
    as (w' & Hrun & Hlog).
  exists (meshesOfDocument flatMeshes), w'.
  split; [exact Hrun|]. split; [apply meshesOfDocument_length | exact Hlog].
Qed.

Lemma generateGeometry_absorbs_every_placement_failure_witness :
  exists meshes w',
    generateGeometry (workingHost faultyDocument) 1 readyWorld = (Normal meshes, w')
    /\ List.length meshes = 2
    /\ In (placementWarning 0 1) (trace w').
Proof.
  destruct (@generateGeometry_absorbs_every_placement_failure
              (workingHost faultyDocument) 1 0 faultyDocument readyWorld
              eq_refl eq_refl) as (meshes & w' & Hrun & Hlen & Hlog).
  exists meshes, w'. split; [exact Hrun|]. split; [exact Hlen|].
  apply (Hlog 0 1 (Some faultyPlacement)); reflexivity.
Defined.

Lemma meshFrom_tags flatMesh entry :
  map tagsOf (meshFrom flatMesh entry)
  = match entry with
    | Some p =>
        if convertible entry
        then [(WebIfc.expressID flatMesh,
               WebIfc.geometryExpressID (WebIfc.placed p))]
        else []
    | None => []
    end.
Proof.
  destruct entry as [[pl [v ix] f]|]; [|reflexivity].
  destruct f as [[[| |] e]|], v as [[|v0 v]|], ix as [[|i0 ix]|]; reflexivity.
Qed.

Lemma meshesOfDocument_tags flatMeshes :
  map tagsOf (meshesOfDocument flatMeshes) = flat_map expectedTags flatMeshes.
Proof.
  unfold meshesOfDocument.
  induction flatMeshes as [|fm rest IH]; [reflexivity|].
  cbn [flat_map]. rewrite map_app, IH. f_equal.
  unfold expectedTags.
  induction (WebIfc.geometries fm) as [|entry entries IHe]; [reflexivity|].
  cbn [flat_map]. rewrite map_app, IHe, meshFrom_tags. reflexivity.
Qed.

(** X3: the meshes that [generateGeometry] returns come in loop order -
    part after part, placement after placement - and each carries in its
    [userData] the express id of its part and the geometry express id of
    its placement; placements that are null, empty or raise leave no gap
    and no entry. *)
Theorem generateGeometry_tags_meshes_in_order host modelID api flatMeshes w :
  ifcApi (loader w) = Some api ->
  LoadAllGeometry_outcome host modelID = inr flatMeshes ->
  exists meshes w',
    generateGeometry host modelID w = (Normal meshes, w')
    /\ map tagsOf meshes = flat_map expectedTags flatMeshes.
Proof.
  intros Hapi Hdoc.
  destruct (@generateGeometry_outcome host modelID api flatMeshes w Hapi Hdoc)
    as (w' & Hrun & _).
  exists (meshesOfDocument flatMeshes), w'.
  split; [exact Hrun | apply meshesOfDocument_tags].
Qed.

Lemma generateGeometry_tags_meshes_in_order_witness :
  exists meshes w',
    generateGeometry (workingHost faultyDocument) 1 readyWorld = (Normal meshes, w')
    /\ map tagsOf meshes = [(100, 12); (100, 13)].
Proof.
  destruct (@generateGeometry_tags_meshes_in_order
              (workingHost faultyDocument) 1 0 faultyDocument readyWorld
              eq_refl eq_refl) as (meshes & w' & Hrun & Htags).
  exists meshes, w'. split; [exact Hrun|].
  rewrite Htags. reflexivity.
Defined.

(* ================================================================== *)
(** * Anatomy of a load that returns *)
(* ================================================================== *)

Lemma loadIfcFile_start_pending_world file onProgress w w1 :
  loadIfcFile_start file onProgress w = (Normal Pending, w1) ->
  w1 = afterStart onProgress w.
Proof.
  unfold loadIfcFile_start, ensureInitialized, tryCatch, bind, report, get,
    afterStart, said.
  destruct (negb (isInitialized (loader w)) || negb (hasApi (loader w)));
    [intros H; discriminate H|].
  destruct onProgress as [sink|]; cbn.
  - destruct (sink _); cbn; intros H; [discriminate H|].
    injection H as <-. now rewrite <- app_assoc.
  - intros H. injection H as <-. reflexivity.
Qed.

Lemma loadIfcFile_start_never_settles file onProgress w model w1 :
  loadIfcFile_start file onProgress w <> (Normal (Settled model), w1).
Proof.
  unfold loadIfcFile_start, ensureInitialized, tryCatch, bind, report, get.
  destruct (negb (isInitialized (loader w)) || negb (hasApi (loader w)));
    [intros H; discriminate H|].
  destruct onProgress as [sink|]; cbn.
  - destruct (sink _); cbn; intros H; discriminate H.
  - intros H. discriminate H.
Qed.

Lemma loadIfcFile_resume_returns host file onProgress w model w' :
  loadIfcFile_resume host file onProgress w = (Normal model, w') ->
  exists data api modelID meshes w4,
    arrayBuffer file = inr data
    /\ ifcApi (loader w) = Some api
    /\ OpenModel_outcome host data = inr modelID
    /\ generateGeometry host modelID (beforeGeometry onProgress api modelID data w)
       = (Normal meshes, w4)
    /\ model = assembled host file data meshes
    /\ w' = afterGeometry onProgress api modelID w4.
Proof.
  intros H.
  unfold loadIfcFile_resume, tryCatch, bind, report, ifcApi_bang,
    OpenModel, CloseModel, get in H.
  destruct (arrayBuffer file) as [e|data]; [discriminate H|].
  exists data.
  destruct onProgress as [sink|].
  - cbn in H. destruct (sink _) in H; [discriminate H|].
    cbn in H. destruct (ifcApi (loader w)) as [api|] eqn:Hapi; [|discriminate H].
    cbn in H. destruct (OpenModel_outcome host data) as [e|modelID]; [discriminate H|].
    cbn in H. destruct (sink _) in H; [discriminate H|].
    cbn in H. exists api, modelID.
    match type of H with
    | context [generateGeometry host modelID ?w3] =>
        replace w3 with (beforeGeometry (Some sink) api modelID data w) in H
          by (unfold beforeGeometry, said; now rewrite <- !app_assoc);
        pose proof (generateGeometry_sameLoader host modelID
                      (beforeGeometry (Some sink) api modelID data w)) as SL;
        destruct (generateGeometry host modelID
                    (beforeGeometry (Some sink) api modelID data w))
          as [[meshes|e] w4]
    end; [|discriminate H].
    unfold sameLoader in SL. cbn in SL.
    cbn in H. destruct (sink _) in H; [discriminate H|].
    cbn in H. rewrite SL, Hapi in H.
    cbn in H. destruct (sink _) in H; [discriminate H|].
    cbn in H. injection H as <- <-.
    exists meshes, w4. repeat split.
    unfold afterGeometry, said. rewrite SL, <- !app_assoc. reflexivity.
  - cbn in H. destruct (ifcApi (loader w)) as [api|] eqn:Hapi; [|discriminate H].
    cbn in H. destruct (OpenModel_outcome host data) as [e|modelID]; [discriminate H|].
    cbn in H. exists api, modelID.
    match type of H with
    | context [generateGeometry host modelID ?w3] =>
        replace w3 with (beforeGeometry None api modelID data w) in H
          by (unfold beforeGeometry, said; now rewrite <- ?app_assoc);
        pose proof (generateGeometry_sameLoader host modelID
                      (beforeGeometry None api modelID data w)) as SL;
        destruct (generateGeometry host modelID
                    (beforeGeometry None api modelID data w))
          as [[meshes|e] w4]
    end; [|discriminate H].
    unfold sameLoader in SL. cbn in SL.
    cbn in H. rewrite SL, Hapi in H.
    cbn in H. injection H as <- <-.
    exists meshes, w4. repeat split.
    unfold afterGeometry, said. rewrite SL, <- ?app_assoc. reflexivity.
Qed.

Lemma loadIfcFile_returns host file onProgress w model w' :
  loadIfcFile host file onProgress w = (Normal model, w') ->
  exists data api modelID meshes w4,
    arrayBuffer file = inr data
    /\ ifcApi (loader w) = Some api
    /\ OpenModel_outcome host data = inr modelID
    /\ generateGeometry host modelID
         (beforeGeometry onProgress api modelID data (afterStart onProgress w))
       = (Normal meshes, w4)
    /\ model = assembled host file data meshes
    /\ w' = afterGeometry onProgress api modelID w4.
Proof.
  intros H. unfold loadIfcFile, bind in H.
  destruct (loadIfcFile_start file onProgress w) as [[[m|]|e] w1] eqn:S.
  - exfalso. exact (loadIfcFile_start_never_settles file onProgress w S).
  - rewrite (loadIfcFile_start_pending_world file onProgress w S) in H.
    apply loadIfcFile_resume_returns in H. exact H.
  - discriminate H.
Qed.

(* ================================================================== *)
(** * The trace of the geometry stage *)
(* ================================================================== *)

Lemma stageOnly_refl w : stageOnly w w.
Proof. exists []. split; [now rewrite app_nil_r | reflexivity]. Qed.

Lemma stageOnly_trans a b c : stageOnly a b -> stageOnly b c -> stageOnly a c.
Proof.
  intros (t1 & H1 & F1) (t2 & H2 & F2). exists (t1 ++ t2). split.
  - rewrite H2, H1. now rewrite app_assoc.
  - rewrite forallb_app, F1, F2. reflexivity.
Qed.

Lemma emit_stageOnly e : geometryStageEvent e = true -> Keeps stageOnly (emit e).
Proof.
  intros He w. exists [e]. split; [reflexivity|]. cbn. now rewrite He.
Qed.

Lemma fresh_stageOnly : Keeps stageOnly fresh.
Proof. intros w. exists []. split; [cbn; now rewrite app_nil_r | reflexivity]. Qed.

Lemma setLiveGeometries_stageOnly l : Keeps stageOnly (setLiveGeometries l).
Proof. intros w. exists []. split; [cbn; now rewrite app_nil_r | reflexivity]. Qed.

Ltac stage_frame :=
  repeat first
    [ exact stageOnly_refl
    | exact stageOnly_trans
    | apply fresh_stageOnly
    | apply setLiveGeometries_stageOnly
    | apply emit_stageOnly; reflexivity
    | frame_step ].

Lemma processPlacement_stageOnly api modelID i j flatMesh p meshes :
  Keeps stageOnly (processPlacement api modelID i j flatMesh p meshes).
Proof.
  unfold processPlacement, GetGeometry, readBuffers, constructMesh,
    geometry_delete, logger_warn.
  stage_frame.
Qed.

Lemma forGeometries_stageOnly api modelID i flatMesh entries :
  forall j meshes,
    Keeps stageOnly (forGeometries api modelID i flatMesh j entries meshes).
Proof.
  induction entries as [|[p|] rest IH]; intros j meshes; cbn [forGeometries].
  - apply keeps_ret. exact stageOnly_refl.
  - apply keeps_bind; [exact stageOnly_trans | apply processPlacement_stageOnly |].
    intros meshes'. apply IH.
  - apply IH.
Qed.

Lemma forFlatMeshes_stageOnly api modelID flatMeshes :
  forall i meshes,
    Keeps stageOnly (forFlatMeshes api modelID i flatMeshes meshes).
Proof.
  induction flatMeshes as [|fm rest IH]; intros i meshes; cbn [forFlatMeshes].
  - apply keeps_ret. exact stageOnly_refl.
  - apply keeps_bind; [exact stageOnly_trans | apply forGeometries_stageOnly |].
    intros meshes'. apply IH.
Qed.

Lemma generateGeometry_stageOnly host modelID :
  Keeps stageOnly (generateGeometry host modelID).
Proof.
  unfold generateGeometry, LoadAllGeometry, logger_debug.
  repeat first [ apply forFlatMeshes_stageOnly | progress stage_frame ].
Qed.

Lemma stage_events_no_errorLogs t :
  forallb geometryStageEvent t = true -> errorLogs t = 0.
Proof.
  induction t as [|e t IH]; [reflexivity|].
  cbn [forallb]. intros H. apply andb_prop in H as [He Ht].
  destruct e as [| | | | | | | | |[] ? ?]; try discriminate He; cbn; now apply IH.
Qed.

Lemma stage_events_no_progress t :
  forallb geometryStageEvent t = true -> progressEvents t = [].
Proof.
  induction t as [|e t IH]; [reflexivity|].
  cbn [forallb]. intros H. apply andb_prop in H as [He Ht].
  destruct e; try discriminate He; cbn; now apply IH.
Qed.

Lemma errorLogs_app t1 t2 : errorLogs (t1 ++ t2) = errorLogs t1 + errorLogs t2.
Proof.
  induction t1 as [|e t1 IH]; [reflexivity|].
  destruct e as [| | | | | | | | |[] ? ?]; cbn; rewrite IH; reflexivity.
Qed.

(** X4: a load that returns has made its outgoing calls in this order:
    the "Loading" log entry, 10%, 30%, [OpenModel], 50%, then calls of the
    geometry stage only, 90%, [CloseModel] on the handle that
    [OpenModel] returned, 100%, and the "loaded" log entry.  So exactly
    one document is opened and that one is closed, after the last
    geometry call and before completion is reported. *)
Theorem successful_load_call_order host file onProgress w model w' :
  loadIfcFile host file onProgress w = (Normal model, w') ->
  exists data api modelID stage,
    arrayBuffer file = inr data
    /\ ifcApi (loader w) = Some api
    /\ OpenModel_outcome host data = inr modelID
    /\ forallb geometryStageEvent stage = true
    /\ trace w'
       = trace w ++
         [EvLog LogLevel.Info "Loading IFC file" SERVICE] ++
         said onProgress (mkProgress 10 "Reading file..." reading) ++
         said onProgress (mkProgress 30 "Opening IFC model..." parsing) ++
         [EvOpenModel api data] ++
         said onProgress (mkProgress 50 "Generating geometry..." geometry) ++
         stage ++
         said onProgress (mkProgress 90 "Finalizing..." rendering) ++
         [EvCloseModel api modelID] ++
         said onProgress (mkProgress 100 "Complete" complete) ++
         [EvLog LogLevel.Info "IFC file loaded successfully" SERVICE].
Proof.
  intros H.
  destruct (loadIfcFile_returns _ _ _ _ H)
    as (data & api & modelID & meshes & w4 & Hbuf & Hapi & Hopen & Hgen & _ & ->).
  pose proof (generateGeometry_stageOnly host modelID
                (beforeGeometry onProgress api modelID data (afterStart onProgress w)))
    as (stage & Htrace & Hstage).
  rewrite Hgen in Htrace. cbn [snd] in Htrace.
  exists data, api, modelID, stage.
  repeat (split; [assumption|]).
  unfold afterGeometry. cbn [trace]. rewrite Htrace.
  unfold beforeGeometry, afterStart. cbn [trace].
  repeat rewrite <- app_assoc. reflexivity.
Qed.

Lemma successful_load_call_order_witness :
  exists model w' stage,
    loadIfcFile (workingHost scenarioDocument) sampleFile None readyWorld
      = (Normal model, w')
    /\ forallb geometryStageEvent stage = true
    /\ trace w'
       = trace readyWorld ++
         [EvLog LogLevel.Info "Loading IFC file" SERVICE;
          EvOpenModel 0 [Byte.x49; Byte.x53; Byte.x4f; Byte.x2d]] ++
         stage ++
         [EvCloseModel 0 1;
          EvLog LogLevel.Info "IFC file loaded successfully" SERVICE].
Proof.
  assert (E : exists model w',
             loadIfcFile (workingHost scenarioDocument) sampleFile None readyWorld
               = (Normal model, w')).
  { vm_compute. eexists. eexists. reflexivity. }
  destruct E as (model & w' & E).
  destruct (successful_load_call_order _ _ _ _ E)
    as (data & api & modelID & stage & Hbuf & Hapi & Hopen & Hstage & Htrace).
  injection Hbuf as <-.
  assert (Ha : api = 0) by (vm_compute in Hapi; congruence).
  assert (Hm : modelID = 1) by (vm_compute in Hopen; congruence).
  subst api modelID. clear Hapi Hopen.
  exists model, w', stage. split; [exact E|]. split; [exact Hstage|].
  rewrite Htrace. cbn [said app]. reflexivity.
Defined.

(* ================================================================== *)
(** * Error-level log entries of a load *)
(* ================================================================== *)

Lemma sameErrorLogs_refl w : sameErrorLogs w w.
Proof. reflexivity. Qed.

Lemma sameErrorLogs_trans a b c :
  sameErrorLogs a b -> sameErrorLogs b c -> sameErrorLogs a c.
Proof. unfold sameErrorLogs. congruence. Qed.

Lemma emit_sameErrorLogs e : errorLogs [e] = 0 -> Keeps sameErrorLogs (emit e).
Proof.
  intros He w. unfold sameErrorLogs. cbn.
  rewrite errorLogs_app, He. apply Nat.add_0_r.
Qed.

Lemma generateGeometry_sameErrorLogs host modelID :
  Keeps sameErrorLogs (generateGeometry host modelID).
Proof.
  intros w. destruct (generateGeometry_stageOnly host modelID w) as (t & Ht & Hs).
  unfold sameErrorLogs. rewrite Ht, errorLogs_app, (stage_events_no_errorLogs _ Hs).
  apply Nat.add_0_r.
Qed.

Ltac errlog_frame host :=
  repeat first
    [ exact sameErrorLogs_refl
    | exact sameErrorLogs_trans
    | apply (generateGeometry_sameErrorLogs host)
    | apply emit_sameErrorLogs; reflexivity
    | intros ? ?; reflexivity
    | frame_step ].

Lemma tryCatch_loadFailed_errorLogs (A : Type) (body : M A) file w :
  Keeps sameErrorLogs body ->
  errorLogs (trace (snd (tryCatch body (loadFailed file) w)))
  = errorLogs (trace w)
    + match fst (tryCatch body (loadFailed file) w) with
      | Normal _ => 0
      | Throw _ => 1
      end.
Proof.
  intros Hbody. specialize (Hbody w). unfold sameErrorLogs in Hbody.
  unfold tryCatch. destruct (body w) as [[a|e] w1]; cbn in *.
  - now rewrite Hbody, Nat.add_0_r.
  - rewrite errorLogs_app, Hbody. reflexivity.
Qed.

Lemma loadIfcFile_start_ready file onProgress w :
  ready (loader w) = true ->
  loadIfcFile_start file onProgress w
  = tryCatch
      (report onProgress (mkProgress 10 "Reading file..." reading) ;; ret Pending)%js
      (loadFailed file)
      (mkWorld (loader w) (nextRef w) (openModels w) (liveGeometries w)
               (trace w ++ [EvLog LogLevel.Info "Loading IFC file" SERVICE])).
Proof.
  unfold ready, loadIfcFile_start, ensureInitialized, bind, get. intros H.
  apply andb_prop in H as [H1 H2]. rewrite H1, H2. reflexivity.
Qed.

(** X5: a load calls [logger.error] exactly once if it fails inside the
    pipeline, and not at all if it returns a model or is turned away by
    the guard: the "not initialized" error is thrown without being
    logged. *)
Theorem load_logs_an_error_only_for_pipeline_failures host file onProgress w :
  errorLogs (trace (snd (loadIfcFile host file onProgress w)))
  = errorLogs (trace w)
    + match fst (loadIfcFile host file onProgress w) with
      | Normal _ => 0
      | Throw _ => if ready (loader w) then 1 else 0
      end.
Proof.
  unfold loadIfcFile, bind.
  destruct (ready (loader w)) eqn:Hready.
  - rewrite (loadIfcFile_start_ready file onProgress w Hready).
    match goal with
    | |- context [tryCatch ?body (loadFailed file) ?w0] =>
        assert (Hbody : Keeps sameErrorLogs body)
          by (unfold report; errlog_frame host);
        pose proof (tryCatch_loadFailed_errorLogs file w0 Hbody) as Hstart;
        destruct (tryCatch body (loadFailed file) w0) as [[[m|]|e] w1]
    end; cbn [fst snd trace] in Hstart |- *.
    + cbn [ret fst snd]. rewrite Hstart, errorLogs_app. cbn. lia.
    + unfold loadIfcFile_resume.
      match goal with
      | |- context [tryCatch ?body (loadFailed file) w1] =>
          assert (Hresume : Keeps sameErrorLogs body)
            by (unfold report, ifcApi_bang, OpenModel, CloseModel, logger_info;
                errlog_frame host);
          rewrite (tryCatch_loadFailed_errorLogs file w1 Hresume)
      end.
      rewrite Hstart, errorLogs_app. cbn.
      destruct (fst _); lia.
    + rewrite Hstart, errorLogs_app. cbn. lia.
  - rewrite (loadIfcFile_start_not_ready file onProgress w Hready). cbn. lia.
Qed.

(* ================================================================== *)
(** * Progress events of any load *)
(* ================================================================== *)

Lemma reports_quiet (A : Type) (c : M A) :
  Keeps sameProgress c -> Reports [] c.
Proof.
  intros H w. exists 0. split; [apply Nat.le_refl|]. split.
  - rewrite (H w). cbn. now rewrite app_nil_r.
  - reflexivity.
Qed.

Lemma reports_bind (A B : Type) l1 l2 (c : M A) (k : A -> M B) :
  Reports l1 c -> (forall a, Reports l2 (k a)) -> Reports (l1 ++ l2) (bind c k).
Proof.
  intros Hc Hk w. unfold bind.
  destruct (Hc w) as (n1 & Hle1 & Hp1 & Hfull1).
  destruct (c w) as [[a|e] w1]; cbn [fst snd] in *.
  - specialize (Hfull1 a eq_refl). subst n1.
    destruct (Hk a w1) as (n2 & Hle2 & Hp2 & Hfull2).
    exists (List.length l1 + n2). split; [rewrite length_app; lia|]. split.
    + rewrite Hp2, Hp1, firstn_all, firstn_app_2, app_assoc. reflexivity.
    + intros b Hb. rewrite (Hfull2 b Hb), length_app. reflexivity.
  - exists n1. split; [rewrite length_app; lia|]. split.
    + rewrite Hp1, firstn_app.
      replace (n1 - List.length l1) with 0 by lia.
      cbn. now rewrite app_nil_r.
    + intros b Hb. discriminate Hb.
Qed.

Lemma reports_bind_quiet (A B : Type) l (c : M A) (k : A -> M B) :
  Keeps sameProgress c -> (forall a, Reports l (k a)) -> Reports l (bind c k).
Proof.
  intros Hc Hk. apply (@reports_bind A B [] l c k); [now apply reports_quiet | exact Hk].
Qed.

Lemma reports_report sink p : Reports [p] (report (Some sink) p).
Proof.
  intros w. exists 1. split; [apply Nat.le_refl|]. split; [|reflexivity].
  unfold report, bind. cbn.
  destruct (sink p); cbn; rewrite progressEvents_app; reflexivity.
Qed.

Lemma reports_bind_report (B : Type) sink p l (k : unit -> M B) :
  (forall a, Reports l (k a)) -> Reports (p :: l) (bind (report (Some sink) p) k).
Proof.
  intros Hk.
  apply (@reports_bind unit B [p] l _ k); [apply reports_report | exact Hk].
Qed.

Lemma reports_tryCatch_loadFailed (A : Type) l (body : M A) file :
  Reports l body -> Reports l (tryCatch body (loadFailed file)).
Proof.
  intros Hb w. unfold tryCatch.
  destruct (Hb w) as (n & Hle & Hp & Hfull).
  destruct (body w) as [[a|e] w1]; cbn [fst snd] in *.
  - exists n. auto.
  - exists n. split; [exact Hle|]. split.
    + cbn. rewrite progressEvents_app, Hp. cbn. now rewrite app_nil_r.
    + intros a Ha. discriminate Ha.
Qed.

Ltac reports_step host :=
  match goal with
  | |- forall _, Reports _ _ => intros ?
  | |- Reports _ (tryCatch _ (loadFailed _)) => apply reports_tryCatch_loadFailed
  | |- Reports _ (bind (report (Some _) _) _) => apply reports_bind_report
  | |- Reports _ (bind _ _) => apply reports_bind_quiet
  | |- Reports [] _ => apply reports_quiet
  | |- Keeps sameProgress (generateGeometry _ _) =>
      apply (generateGeometry_sameProgress host)
  | |- Reports _ (match ?x with _ => _ end) => destruct x
  | |- Keeps sameProgress _ => progress frame
  end.

Lemma loadIfcFile_start_reports file sink :
  Reports [mkProgress 10 "Reading file..." reading]
          (loadIfcFile_start file (Some sink)).
Proof.
  unfold loadIfcFile_start, ensureInitialized, logger_info.
  repeat reports_step (workingHost []).
Qed.

Lemma loadIfcFile_resume_reports host file sink :
  Reports [mkProgress 30 "Opening IFC model..." parsing;
           mkProgress 50 "Generating geometry..." geometry;
           mkProgress 90 "Finalizing..." rendering;
           mkProgress 100 "Complete" complete]
          (loadIfcFile_resume host file (Some sink)).
Proof.
  unfold loadIfcFile_resume, ifcApi_bang, OpenModel, CloseModel, logger_info.
  repeat reports_step host.
Qed.

(** X6: whether a load returns or throws, the progress events it has
    sent to its sink are the first [n] of the five checkpoints, in
    order, for some [n]; all five if it returned.  So the sink never sees
    a percentage out of order, a repetition, or a value that is not a
    checkpoint, and in particular no event that announces the failure. *)
Theorem load_reports_a_prefix_of_the_checkpoints host file sink w :
  exists n,
    n <= 5
    /\ progressEvents (trace (snd (loadIfcFile host file (Some sink) w)))
       = progressEvents (trace w) ++ firstn n checkpoints
    /\ (forall model,
          fst (loadIfcFile host file (Some sink) w) = Normal model -> n = 5).
Proof.
  unfold loadIfcFile, bind.
  destruct (loadIfcFile_start_reports file sink w) as (n1 & Hle1 & Hp1 & Hfull1).
  destruct (loadIfcFile_start file (Some sink) w) as [[[m|]|e] w1] eqn:Hstart;
    cbn [fst snd] in *.
  - exfalso. exact (loadIfcFile_start_never_settles file (Some sink) w Hstart).
  - specialize (Hfull1 Pending eq_refl). cbn in Hfull1. subst n1.
    destruct (loadIfcFile_resume_reports host file sink w1)
      as (n2 & Hle2 & Hp2 & Hfull2).
    exists (S n2). split; [cbn in Hle2; lia|]. split.
    + rewrite Hp2, Hp1. cbn. now rewrite <- app_assoc.
    + intros model Hm. now rewrite (Hfull2 model Hm).
  - exists n1. split; [cbn in Hle1; lia|]. split.
    + rewrite Hp1. destruct n1 as [|[|n1]]; [reflexivity | reflexivity | cbn in Hle1; lia].
    + intros model Hm. discriminate Hm.
Qed.

(* ================================================================== *)
(** * The model that a load returns *)
(* ================================================================== *)

Lemma positionCount_of_components (mesh : THREE.Mesh) :
  positionCount mesh = Js.div (Js.of_nat (positionComponents mesh)) Js.three.
Proof.
  unfold positionCount, positionComponents.
  destruct (THREE.mesh_geometry mesh); reflexivity.
Qed.

Lemma countVertices_of_components (meshes : list THREE.Mesh) :
  countVertices meshes
  = fold_left
      (fun count mesh =>
         Js.add count (Js.div (Js.of_nat (positionComponents mesh)) Js.three))
      meshes Js.zero.
Proof.
  unfold countVertices. generalize Js.zero.
  induction meshes as [|mesh rest IH]; intros count; cbn [fold_left];
    [reflexivity|].
  now rewrite IH, positionCount_of_components.
Qed.

Lemma group_of_added meshes :
  forall name children,
    fold_left (fun group mesh => THREE.add group (THREE.MeshNode mesh []))
              meshes (THREE.GroupNode name children)
    = THREE.GroupNode name
        (children ++ map (fun mesh => THREE.MeshNode mesh []) meshes).
Proof.
  induction meshes as [|mesh rest IH]; intros name children; cbn [fold_left map].
  - now rewrite app_nil_r.
  - cbn [THREE.add]. rewrite IH, <- app_assoc. reflexivity.
Qed.

Lemma generateGeometry_returns host modelID w meshes w' :
  generateGeometry host modelID w = (Normal meshes, w') ->
  exists flatMeshes,
    LoadAllGeometry_outcome host modelID = inr flatMeshes
    /\ meshes = meshesOfDocument flatMeshes.
Proof.
  intros H.
  destruct (ifcApi (loader w)) as [api|] eqn:Hapi.
  - destruct (LoadAllGeometry_outcome host modelID) as [e|flatMeshes] eqn:Hdoc.
    + unfold generateGeometry, LoadAllGeometry, bind, get in H.
      rewrite Hapi in H. cbn [emit] in H. rewrite Hdoc in H. discriminate H.
    + destruct (@generateGeometry_outcome host modelID api flatMeshes w Hapi Hdoc)
        as (w1 & E & _).
      rewrite E in H. injection H as <- _. now exists flatMeshes.
  - unfold generateGeometry, bind, get in H. rewrite Hapi in H. discriminate H.
Qed.

Lemma meshesOfDocument_built flatMeshes mesh :
  In mesh (meshesOfDocument flatMeshes) ->
  exists flatMesh placedGeometry verts indices,
    mesh = buildMesh flatMesh placedGeometry verts indices.
Proof.
  unfold meshesOfDocument. intros H.
  apply in_flat_map in H as (fm & _ & H).
  apply in_flat_map in H as ([p|] & _ & H); [|destruct H].
  destruct (meshFrom_inv fm p mesh H) as (verts & indices & ->).
  now exists fm, (WebIfc.placed p), verts, indices.
Qed.

(** What a returned model is made of: the meshes of the geometry stage
    as the children of a group named after the file, and the two counts
    taken from those meshes. *)
Lemma returned_model_of_meshes host file onProgress w model w' :
  loadIfcFile host file onProgress w = (Normal model, w') ->
  exists meshes,
    meshes_of (IfcModel._modelGroup model) = meshes
    /\ IfcModel._modelGroup model
       = THREE.GroupNode (file_name file)
           (map (fun mesh => THREE.MeshNode mesh []) meshes)
    /\ meshCount (IfcModel._metadata model) = List.length meshes
    /\ vertexCount (IfcModel._metadata model) = countVertices meshes
    /\ fileName (IfcModel._metadata model) = file_name file
    /\ fileSize (IfcModel._metadata model) = file_size file
    /\ IfcModel._disposed model = false
    /\ (forall mesh, In mesh meshes ->
          exists flatMesh placedGeometry verts indices,
            mesh = buildMesh flatMesh placedGeometry verts indices).
Proof.
  intros H.
  destruct (loadIfcFile_returns _ _ _ _ H)
    as (data & api & modelID & meshes & w4 & _ & _ & _ & Hgen & -> & _).
  destruct (generateGeometry_returns _ _ _ Hgen) as (flatMeshes & _ & Hmeshes).
  exists meshes.
  cbn [assembled IfcModel.new IfcModel._modelGroup IfcModel._metadata
       IfcModel._disposed modelGroup metadata meshCount vertexCount
       fileName fileSize].
  split; [rewrite meshes_of_added; reflexivity|].
  split; [apply (group_of_added meshes (file_name file) [])|].
  repeat (split; [reflexivity|]).
  rewrite Hmeshes. apply meshesOfDocument_built.
Qed.

(** X7: the metadata of a returned model describes the group it comes
    with: [meshCount] is the number of meshes in the group, and
    [vertexCount] is the sum, taken mesh by mesh in the order of the
    group and starting from 0, of the length of each position array
    divided by 3 - every division and every addition rounded to
    binary64, as the code computes it.  Every mesh of the group has a
    geometry with a position array, so [countVertices] reads a count
    from each of them; the group carries the file's name and the meshes
    are its direct children. *)
Theorem returned_metadata_counts_the_group host file onProgress w model w' :
  loadIfcFile host file onProgress w = (Normal model, w') ->
  let group := IfcModel._modelGroup model in
  let md := IfcModel._metadata model in
  meshCount md = List.length (meshes_of group)
  /\ vertexCount md
     = fold_left
         (fun count mesh =>
            Js.add count (Js.div (Js.of_nat (positionComponents mesh)) Js.three))
         (meshes_of group) Js.zero
  /\ (forall mesh, In mesh (meshes_of group) ->
        exists geo,
          THREE.mesh_geometry mesh = Some geo
          /\ positionComponents mesh = List.length (THREE.position geo))
  /\ group = THREE.GroupNode (file_name file)
               (map (fun mesh => THREE.MeshNode mesh []) (meshes_of group))
  /\ fileName md = file_name file
  /\ fileSize md = file_size file.
Proof.
  intros H.
  destruct (returned_model_of_meshes _ _ _ _ H)
    as (meshes & Hmeshes & Hgroup & Hcount & Hvertices & Hname & Hsize & _
        & Hbuilt).
  cbn zeta. rewrite Hmeshes.
  split; [exact Hcount|].
  split; [rewrite Hvertices; apply countVertices_of_components|].
  split.
  { intros mesh Hin.
    destruct (Hbuilt mesh Hin) as (fm & pg & verts & indices & ->).
    eexists. split; reflexivity. }
  split; [exact Hgroup|]. split; assumption.
Qed.

Lemma returned_metadata_counts_the_group_witness :
  exists model w',
    loadIfcFile (workingHost scenarioDocument) sampleFile None readyWorld
      = (Normal model, w')
    /\ meshCount (IfcModel._metadata model) = 2
    /\ vertexCount (IfcModel._metadata model) = Js.of_nat 6.
Proof.
  assert (E : exists model w',
             loadIfcFile (workingHost scenarioDocument) sampleFile None readyWorld
               = (Normal model, w')
             /\ List.length (meshes_of (IfcModel._modelGroup model)) = 2
             /\ fold_left
                  (fun count mesh =>
                     Js.add count
                       (Js.div (Js.of_nat (positionComponents mesh)) Js.three))
                  (meshes_of (IfcModel._modelGroup model)) Js.zero
                = Js.of_nat 6).
  { eexists. eexists. split; [vm_compute; reflexivity|].
    split; vm_compute; reflexivity. }
  destruct E as (model & w' & E & Hlen & Hsum).
  destruct (returned_metadata_counts_the_group _ _ _ _ E) as (Hc & Hv & _).
  exists model, w'. split; [exact E|]. split.
  - rewrite Hc. exact Hlen.
  - rewrite Hv. exact Hsum.
Defined.

(** Thirds are rounded one by one: six meshes with one position
    component each count as a little less than two vertices. *)
Example countVertices_rounds_each_third :
  Js.lt (countVertices (repeat singleComponentMesh 6)) (Js.of_nat 2) = true
  /\ countVertices (repeat singleComponentMesh 3) = Js.one.
Proof. split; vm_compute; reflexivity. Qed.

(** X8: a returned model is live and holds exactly the bytes that
    [file.arrayBuffer()] delivered: [rawData] reads them back, and
    [modelGroup] and [metadata] are readable. *)
Theorem returned_model_keeps_the_file_bytes host file onProgress w model w' :
  loadIfcFile host file onProgress w = (Normal model, w') ->
  exists data,
    arrayBuffer file = inr data
    /\ IfcModel.get_rawData model = Normal data
    /\ IfcModel.get_isDisposed model = false
    /\ IfcModel.get_modelGroup model = Normal (IfcModel._modelGroup model)
    /\ IfcModel.get_metadata model = Normal (IfcModel._metadata model).
Proof.
  intros H.
  destruct (loadIfcFile_returns _ _ _ _ H)
    as (data & api & modelID & meshes & w4 & Hbuf & _ & _ & _ & -> & _).
  exists data. split; [exact Hbuf|]. repeat split.
Qed.

Lemma returned_model_keeps_the_file_bytes_witness :
  exists model w',
    loadIfcFile (workingHost scenarioDocument) sampleFile None readyWorld
      = (Normal model, w')
    /\ IfcModel.get_rawData model
       = Normal [Byte.x49; Byte.x53; Byte.x4f; Byte.x2d].
Proof.
  assert (E : exists model w',
             loadIfcFile (workingHost scenarioDocument) sampleFile None readyWorld
               = (Normal model, w')).
  { vm_compute. eexists. eexists. reflexivity. }
  destruct E as (model & w' & E).
  destruct (returned_model_keeps_the_file_bytes _ _ _ _ E)
    as (data & Hbuf & Hraw & _).
  exists model, w'. split; [exact E|].
  injection Hbuf as <-. exact Hraw.
Defined.

(* ================================================================== *)
(** * Failures before the engine is reached *)
(* ================================================================== *)

(** X9: if reading the file fails, the load throws the [IfcLoadError]
    that wraps the read error, and the engine has not been called at
    all: besides the two log entries and the 10% report nothing is in
    the trace, and no document or geometry object was created. *)
Theorem unreadable_file_never_reaches_the_engine host file onProgress w error :
  ready (loader w) = true ->
  arrayBuffer file = inl error ->
  quietSink onProgress ->
  loadIfcFile host file onProgress w
  = (Throw (IfcLoadError ("Failed to load IFC file: " ++ file_name file)%string
              (Some error)
              [("fileName", CtxString (file_name file));
               ("fileSize", CtxNumber (file_size file))]),
     mkWorld (loader w) (nextRef w) (openModels w) (liveGeometries w)
             (trace w ++
              [EvLog LogLevel.Info "Loading IFC file" SERVICE] ++
              said onProgress (mkProgress 10 "Reading file..." reading) ++
              [EvLog LogLevel.Error "Failed to load IFC file" SERVICE])).
Proof.
  intros Hready Hbuf Hsink.
  unfold loadIfcFile, bind.
  rewrite (loadIfcFile_start_ready file onProgress w Hready).
  unfold loadIfcFile_resume, tryCatch, bind, report, loadFailed, logger_error.
  destruct onProgress as [sink|].
  - cbn. rewrite (Hsink sink _ eq_refl). cbn. rewrite Hbuf. cbn.
    repeat rewrite <- app_assoc. reflexivity.
  - cbn. rewrite Hbuf. cbn. repeat rewrite <- app_assoc. reflexivity.
Qed.

Lemma unreadable_file_never_reaches_the_engine_witness :
  exists e w',
    loadIfcFile (workingHost [])
                (mkFile "gone.ifc" 7 (inl (Foreign "NotReadableError")))
                (Some listeningSink) readyWorld = (Throw e, w')
    /\ exn_original e = Some (Foreign "NotReadableError")
    /\ openModels w' = []
    /\ nextRef w' = nextRef readyWorld.
Proof.
  eexists. eexists. split.
  - apply (@unreadable_file_never_reaches_the_engine
             (workingHost [])
             (mkFile "gone.ifc" 7 (inl (Foreign "NotReadableError")))
             (Some listeningSink) readyWorld (Foreign "NotReadableError")
             eq_refl eq_refl).
    intros sink p H. injection H as <-. reflexivity.
  - repeat split.
Defined.

(* ================================================================== *)
(** * [dispose] of the loader *)
(* ================================================================== *)

Lemma dispose_outcome w :
  dispose w
  = (Normal tt,
     mkWorld initialLoader (nextRef w) (openModels w) (liveGeometries w)
             (trace w ++ [EvLog LogLevel.Info "IFC Loader disposed" SERVICE])).
Proof. reflexivity. Qed.

(** X10: [dispose] brings the loader back to its state at construction
    from any state, without any call to the engine; the next load is
    turned away by the guard, and the next [initialize] runs a new
    bootstrap on a new engine instance and makes the loader usable
    again. *)
Theorem dispose_resets_the_loader host config file onProgress w :
  Init_outcome host (path (wasm config)) = None ->
  exists w1 w2,
    dispose w = (Normal tt, w1)
    /\ loader w1 = initialLoader
    /\ trace w1 = trace w ++ [EvLog LogLevel.Info "IFC Loader disposed" SERVICE]
    /\ openModels w1 = openModels w
    /\ loadIfcFile host file onProgress w1
       = (Throw (IfcLoadError "IFC Loader not initialized" None
                   [("isInitialized", CtxBool false); ("hasApi", CtxBool false)]),
          w1)
    /\ initialize host config w1 = (Normal tt, w2)
    /\ loader w2 = mkLoader (Some (nextRef w)) true false
    /\ bootstrapCalls (trace w2) = S (bootstrapCalls (trace w)).
Proof.
  intros Hok. eexists. eexists.
  split; [apply dispose_outcome|].
  cbn [loader trace openModels nextRef].
  split; [reflexivity|].
  split; [reflexivity|].
  split; [reflexivity|].
  split.
  - unfold loadIfcFile, bind.
    rewrite loadIfcFile_start_not_ready by reflexivity. reflexivity.
  - split.
    + unfold initialize, bind.
      rewrite initialize_start_pending by reflexivity.
      rewrite Hok. apply initialize_resume_resolved.
    + cbn [loader trace openModels nextRef ifcApi].
      split; [reflexivity|].
      rewrite !bootstrapCalls_app. cbn. lia.
Qed.

Lemma dispose_resets_the_loader_witness :
  exists w1 w2,
    dispose readyWorld = (Normal tt, w1)
    /\ loader w1 = initialLoader
    /\ initialize (workingHost []) DEFAULT_VIEWER_CONFIG w1 = (Normal tt, w2)
    /\ loader w2 = mkLoader (Some 1) true false
    /\ bootstrapCalls (trace w2) = 2.
Proof.
  destruct (@dispose_resets_the_loader (workingHost []) DEFAULT_VIEWER_CONFIG
              sampleFile None readyWorld eq_refl)
    as (w1 & w2 & Hd & Hl & _ & _ & _ & Hi & Hl2 & Hb).
  exists w1, w2. split; [exact Hd|]. split; [exact Hl|]. split; [exact Hi|].
  split; [exact Hl2|]. rewrite Hb. reflexivity.
Defined.

(** X11: if [dispose] runs while [initialize] is suspended at [Init()]
    and the bootstrap then succeeds, the resumed [initialize] still sets
    [isInitialized]: the loader ends flagged as initialized with [ifcApi]
    null.  In that state every load is turned away by the guard (context
    [isInitialized: true, hasApi: false]), and a further [initialize]
    returns at once as "already initialized" without bootstrapping; only
    another [dispose] makes the loader usable again. *)
Theorem dispose_during_setup_leaves_loader_without_engine
    host config file onProgress w :
  isInitialized (loader w) = false ->
  isInitializing (loader w) = false ->
  exists w1 w2 w3 w4,
    initialize_start config w = (Normal Pending, w1)
    /\ dispose w1 = (Normal tt, w2)
    /\ initialize_resume config None w2 = (Normal tt, w3)
    /\ loader w3 = mkLoader None true false
    /\ loadIfcFile host file onProgress w3
       = (Throw (IfcLoadError "IFC Loader not initialized" None
                   [("isInitialized", CtxBool true); ("hasApi", CtxBool false)]),
          w3)
    /\ initialize host config w3 = (Normal tt, w4)
    /\ loader w4 = loader w3
    /\ bootstrapCalls (trace w4) = bootstrapCalls (trace w3).
Proof.
  intros Hed Hing. eexists. eexists. eexists. eexists.
  split; [apply initialize_start_pending; assumption|].
  split; [apply dispose_outcome|].
  split; [apply initialize_resume_resolved|].
  cbn [loader trace openModels nextRef ifcApi initialLoader].
  split; [reflexivity|].
  split.
  - unfold loadIfcFile, bind.
    rewrite loadIfcFile_start_not_ready by reflexivity. reflexivity.
  - split; [apply initialize_when_initialized; reflexivity|].
    cbn [loader trace openModels nextRef ifcApi].
    split; [reflexivity|].
    rewrite !bootstrapCalls_app. cbn. lia.
Qed.

Lemma dispose_during_setup_leaves_loader_without_engine_witness :
  exists w1 w2 w3,
    initialize_start DEFAULT_VIEWER_CONFIG initialWorld = (Normal Pending, w1)
    /\ dispose w1 = (Normal tt, w2)
    /\ initialize_resume DEFAULT_VIEWER_CONFIG None w2 = (Normal tt, w3)
    /\ loader w3 = mkLoader None true false.
Proof.
  destruct (@dispose_during_setup_leaves_loader_without_engine
              (workingHost []) DEFAULT_VIEWER_CONFIG sampleFile None initialWorld
              eq_refl eq_refl)
    as (w1 & w2 & w3 & w4 & H1 & H2 & H3 & H4 & _).
  exists w1, w2, w3. repeat split; assumption.
Defined.

(* ================================================================== *)
(** * Foreign objects that stay live *)
(* ================================================================== *)

Lemma remove_fresh_head (handle : nat) (l : list nat) :
  Forall (fun h => h < handle) l ->
  remove Nat.eq_dec handle (handle :: l) = l.
Proof.
  intros H. cbn. destruct (Nat.eq_dec handle handle) as [_|n]; [|now destruct n].
  apply notin_remove. intros Hin.
  rewrite Forall_forall in H. specialize (H handle Hin). lia.
Qed.

(** One iteration: the handle it acquired is live afterwards exactly if
    foreign code raised while it was held. *)
Lemma processPlacement_live api modelID i j flatMesh p meshes w :
  handlesFresh w ->
  let w' := snd (processPlacement api modelID i j flatMesh p meshes w) in
  handlesFresh w'
  /\ liveGeometries w'
     = (if leaks (Some p) then [nextRef w] else []) ++ liveGeometries w.
Proof.
  intros Hfresh. destruct p as [pl [v ix] f]. destruct w as [ld nr om lg tr].
  unfold handlesFresh in *. cbn [nextRef liveGeometries] in Hfresh.
  assert (Hnext : Forall (fun h => h < S nr) lg).
  { eapply Forall_impl; [|exact Hfresh]. cbn. intros h Hh. lia. }
  assert (Hrm : remove Nat.eq_dec nr (nr :: lg) = lg)
    by (apply remove_fresh_head; exact Hfresh).
  destruct f as [[[| |] e]|]; destruct v as [v|]; destruct ix as [ix|];
    cbv beta iota zeta delta
      [processPlacement tryCatch bind GetGeometry readBuffers geometry_delete
       constructMesh get fresh emit setLiveGeometries ret throw logger_warn
       leaks throwing snd
       WebIfc.fault WebIfc.buffers WebIfc.vertexArray WebIfc.indexArray
       WebIfc.placed loader nextRef openModels liveGeometries trace];
    try destruct (nothingToRender (Some v) (Some ix));
    cbv beta iota zeta delta
      [snd negb loader nextRef openModels liveGeometries trace];
    cbn [app]; rewrite ?Hrm;
    (split; [first [exact Hfresh | exact Hnext
                   | constructor; [lia | exact Hnext]]
            | reflexivity]).
Qed.

Lemma forGeometries_live api modelID i flatMesh entries :
  forall j meshes w,
    handlesFresh w ->
    let w' := snd (forGeometries api modelID i flatMesh j entries meshes w) in
    handlesFresh w'
    /\ exists leaked,
         liveGeometries w' = leaked ++ liveGeometries w
         /\ List.length leaked = List.length (filter leaks entries).
Proof.
  induction entries as [|[p|] rest IH]; intros j meshes w Hfresh.
  - cbn. split; [exact Hfresh|]. now exists [].
  - cbn [forGeometries]. unfold bind.
    destruct (processPlacement_outcome api modelID i j flatMesh p meshes w)
      as (w1 & E1 & _).
    destruct (@processPlacement_live api modelID i j flatMesh p meshes w Hfresh)
      as (Hf1 & Hl1).
    rewrite E1 in Hf1, Hl1 |- *. cbn [snd] in Hf1, Hl1.
    destruct (IH (S j) (meshes ++ meshFrom flatMesh (Some p)) w1 Hf1)
      as (Hf2 & leaked & Hl2 & Hn2).
    split; [exact Hf2|].
    exists (leaked ++ (if leaks (Some p) then [nextRef w] else [])). split.
    + rewrite Hl2, Hl1. now rewrite app_assoc.
    + cbn [filter]. rewrite length_app, Hn2.
      destruct (leaks (Some p)); cbn; lia.
  - cbn [forGeometries filter leaks]. apply IH. exact Hfresh.
Qed.

Lemma forFlatMeshes_live api modelID flatMeshes :
  forall i meshes w,
    handlesFresh w ->
    let w' := snd (forFlatMeshes api modelID i flatMeshes meshes w) in
    handlesFresh w'
    /\ exists leaked,
         liveGeometries w' = leaked ++ liveGeometries w
         /\ List.length leaked = List.length (filter leaks (placements flatMeshes)).
Proof.
  induction flatMeshes as [|fm rest IH]; intros i meshes w Hfresh.
  - cbn. split; [exact Hfresh|]. now exists [].
  - cbn [forFlatMeshes]. unfold bind.
    destruct (forGeometries_outcome api modelID i fm (WebIfc.geometries fm)
                0 meshes w) as (w1 & E1 & _).
    destruct (@forGeometries_live api modelID i fm (WebIfc.geometries fm)
                0 meshes w Hfresh) as (Hf1 & leaked1 & Hl1 & Hn1).
    rewrite E1 in Hf1, Hl1 |- *. cbn [snd] in Hf1, Hl1.
    destruct (IH (S i) (meshes ++ flat_map (meshFrom fm) (WebIfc.geometries fm))
                w1 Hf1) as (Hf2 & leaked2 & Hl2 & Hn2).
    split; [exact Hf2|].
    exists (leaked2 ++ leaked1). split.
    + rewrite Hl2, Hl1. now rewrite app_assoc.
    + unfold placements in *. cbn [flat_map].
      rewrite filter_app, !length_app, Hn1, Hn2. lia.
Qed.

Lemma generateGeometry_live host modelID api flatMeshes w :
  ifcApi (loader w) = Some api ->
  LoadAllGeometry_outcome host modelID = inr flatMeshes ->
  handlesFresh w ->
  let w' := snd (generateGeometry host modelID w) in
  exists leaked,
    liveGeometries w' = leaked ++ liveGeometries w
    /\ List.length leaked = List.length (filter leaks (placements flatMeshes)).
Proof.
  intros Hapi Hdoc Hfresh.
  unfold generateGeometry, LoadAllGeometry, logger_debug, bind, get.
  rewrite Hapi. cbn [emit]. rewrite Hdoc. cbn [ret].
  match goal with
  | |- context [forFlatMeshes api modelID 0 flatMeshes [] ?w0] =>
      destruct (forFlatMeshes_outcome api modelID flatMeshes 0 [] w0)
        as (w1 & E1 & _);
      assert (Hf0 : handlesFresh w0) by exact Hfresh;
      destruct (@forFlatMeshes_live api modelID flatMeshes 0 [] w0 Hf0)
        as (_ & leaked & Hl & Hn)
  end.
  rewrite E1 in Hl |- *. cbn [snd] in Hl. cbn.
  exists leaked. split; [exact Hl | exact Hn].
Qed.

Lemma remove_head_notin (x : nat) (l : list nat) :
  ~ In x l -> remove Nat.eq_dec x (x :: l) = l.
Proof.
  intros H. cbn. destruct (Nat.eq_dec x x) as [_|n]; [|now destruct n].
  now apply notin_remove.
Qed.

(** X12: after a load that returns, the engine holds no document more
    than before, and the geometry objects it still holds in addition
    are as many as there were placements on which foreign code raised
    while the object was held.  In particular a load of a document on
    which nothing raises leaves no foreign object behind. *)
Theorem returning_load_leaves_only_objects_of_failed_placements
    host file onProgress w api data modelID flatMeshes :
  isInitialized (loader w) = true ->
  ifcApi (loader w) = Some api ->
  arrayBuffer file = inr data ->
  OpenModel_outcome host data = inr modelID ->
  LoadAllGeometry_outcome host modelID = inr flatMeshes ->
  quietSink onProgress ->
  handlesFresh w ->
  ~ In modelID (openModels w) ->
  exists model w' leaked,
    loadIfcFile host file onProgress w = (Normal model, w')
    /\ openModels w' = openModels w
    /\ liveGeometries w' = leaked ++ liveGeometries w
    /\ List.length leaked = List.length (filter leaks (placements flatMeshes))
    /\ (forallb (fun entry => negb (leaks entry)) (placements flatMeshes) = true ->
        liveGeometries w' = liveGeometries w).
Proof.
  intros Hed Hapi Hbuf Hopen Hdoc Hsink Hfresh Hnew.
  destruct (@loadIfcFile_succeeds host file onProgress w api data modelID flatMeshes
              Hed Hapi Hbuf Hopen Hdoc Hsink) as (w' & Hload & _ & Hmodels).
  destruct (loadIfcFile_returns _ _ _ _ Hload)
    as (data' & api' & modelID' & meshes & w4 & Hbuf' & Hapi' & Hopen' & Hgen & _ & Hw').
  rewrite Hbuf in Hbuf'. injection Hbuf' as <-.
  rewrite Hapi in Hapi'. injection Hapi' as <-.
  rewrite Hopen in Hopen'. injection Hopen' as <-.
  destruct (@generateGeometry_live host modelID api flatMeshes
              (beforeGeometry onProgress api modelID data (afterStart onProgress w))
              Hapi Hdoc Hfresh) as (leaked & Hlive & Hcount).
  rewrite Hgen in Hlive. cbn [snd] in Hlive.
  exists (assembled host file data (meshesOfDocument flatMeshes)), w', leaked.
  split; [exact Hload|].
  split; [rewrite Hmodels; now apply remove_head_notin|].
  assert (Hl : liveGeometries w' = leaked ++ liveGeometries w).
  { rewrite Hw'. cbn [afterGeometry liveGeometries]. exact Hlive. }
  split; [exact Hl|]. split; [exact Hcount|].
  intros Hnone.
  assert (Hempty : filter leaks (placements flatMeshes) = []).
  { clear - Hnone. induction (placements flatMeshes) as [|entry rest IH];
      [reflexivity|].
    cbn [forallb filter] in *. apply andb_prop in Hnone as [He Hr].
    apply negb_true_iff in He. rewrite He. now apply IH. }
  rewrite Hempty in Hcount. destruct leaked; [exact Hl | discriminate Hcount].
Qed.

Lemma returning_load_leaves_only_objects_of_failed_placements_witness :
  exists model w',
    loadIfcFile (workingHost scenarioDocument) sampleFile (Some listeningSink)
                readyWorld = (Normal model, w')
    /\ openModels w' = openModels readyWorld
    /\ liveGeometries w' = liveGeometries readyWorld.
Proof.
  assert (Hsink : quietSink (Some listeningSink))
    by (intros sink p H; injection H as <-; reflexivity).
  assert (Hfresh : handlesFresh readyWorld) by constructor.
  assert (Hnew : ~ In 1 (openModels readyWorld)) by (cbn; tauto).
  destruct (@returning_load_leaves_only_objects_of_failed_placements
              (workingHost scenarioDocument) sampleFile (Some listeningSink)
              readyWorld 0 [Byte.x49; Byte.x53; Byte.x4f; Byte.x2d] 1
              scenarioDocument eq_refl eq_refl eq_refl eq_refl eq_refl
              Hsink Hfresh Hnew)
    as (model & w' & leaked & Hload & Hm & _ & _ & Hclean).
  exists model, w'. split; [exact Hload|]. split; [exact Hm|].
  apply Hclean. reflexivity.
Defined.

Lemma staysFresh_refl w : staysFresh w w.
Proof. intros H. exact H. Qed.

Lemma staysFresh_trans a b c : staysFresh a b -> staysFresh b c -> staysFresh a c.
Proof. unfold staysFresh. auto. Qed.

Lemma emit_staysFresh e : Keeps staysFresh (emit e).
Proof. intros w H. exact H. Qed.

Lemma setOpenModels_staysFresh l : Keeps staysFresh (setOpenModels l).
Proof. intros w H. exact H. Qed.

Lemma setLoader_staysFresh l : Keeps staysFresh (setLoader l).
Proof. intros w H. exact H. Qed.

Lemma fresh_staysFresh : Keeps staysFresh fresh.
Proof.
  intros w H. unfold handlesFresh in *. cbn.
  eapply Forall_impl; [|exact H]. cbn. intros h Hh. lia.
Qed.

Lemma processPlacement_staysFresh api modelID i j flatMesh p meshes :
  Keeps staysFresh (processPlacement api modelID i j flatMesh p meshes).
Proof.
  intros w H. now apply processPlacement_live.
Qed.

Lemma forGeometries_staysFresh api modelID i flatMesh entries :
  forall j meshes,
    Keeps staysFresh (forGeometries api modelID i flatMesh j entries meshes).
Proof.
  intros j meshes w H. now apply forGeometries_live.
Qed.

Lemma forFlatMeshes_staysFresh api modelID flatMeshes :
  forall i meshes,
    Keeps staysFresh (forFlatMeshes api modelID i flatMeshes meshes).
Proof.
  intros i meshes w H. now apply forFlatMeshes_live.
Qed.

Ltac fresh_frame :=
  repeat first
    [ exact staysFresh_refl
    | exact staysFresh_trans
    | apply forFlatMeshes_staysFresh
    | apply emit_staysFresh
    | apply setOpenModels_staysFresh
    | apply setLoader_staysFresh
    | apply fresh_staysFresh
    | frame_step ].

Lemma generateGeometry_staysFresh host modelID :
  Keeps staysFresh (generateGeometry host modelID).
Proof.
  unfold generateGeometry, LoadAllGeometry, logger_debug. fresh_frame.
Qed.

(** In every state the service can reach, the live geometry handles are
    handles the allocator has handed out. *)
Lemma reachable_handlesFresh host w :
  Reachable host w -> handlesFresh w.
Proof.
  induction 1 as [|w w' Hw IH Hstep].
  - constructor.
  - destruct Hstep as [config w c w' E | config settled w c w' E
                      | file onProgress w c w' E | file onProgress w c w' E
                      | w c w' E].
    + assert (K : Keeps staysFresh (initialize_start config)).
      { unfold initialize_start, set_isInitializing, set_ifcApi, new_IfcAPI,
          SetWasmPath, Init, logger_debug, logger_info. fresh_frame. }
      specialize (K w). rewrite E in K. now apply K.
    + assert (K : Keeps staysFresh (initialize_resume config settled)).
      { unfold initialize_resume, set_isInitializing, set_isInitialized,
          set_ifcApi, logger_info, logger_error. fresh_frame. }
      specialize (K w). rewrite E in K. now apply K.
    + assert (K : Keeps staysFresh (loadIfcFile_start file onProgress)).
      { unfold loadIfcFile_start, ensureInitialized, logger_info, report,
          loadFailed, logger_error. fresh_frame. }
      specialize (K w). rewrite E in K. now apply K.
    + assert (K : Keeps staysFresh (loadIfcFile_resume host file onProgress)).
      { unfold loadIfcFile_resume, report, ifcApi_bang, OpenModel, CloseModel,
          logger_info, loadFailed, logger_error.
        repeat first [ apply (generateGeometry_staysFresh host)
                     | progress fresh_frame ]. }
      specialize (K w). rewrite E in K. now apply K.
    + assert (K : Keeps staysFresh dispose).
      { unfold dispose, set_isInitializing, set_isInitialized, set_ifcApi,
          logger_info. fresh_frame. }
      specialize (K w). rewrite E in K. now apply K.
Qed.

(* ================================================================== *)
(** * What [IfcModel.dispose] releases *)
(* ================================================================== *)

Lemma disposeObject_releases mesh children :
  IfcModel.disposeObject (THREE.MeshNode mesh children) = releasesOf mesh.
Proof.
  unfold IfcModel.disposeObject, releasesOf, materials_of.
  destruct (THREE.mesh_material mesh); reflexivity.
Qed.

Lemma traverse_disposeObject o :
  traverse IfcModel.disposeObject o = flat_map releasesOf (meshes_of o).
Proof.
  induction o as [name children IH | mesh children IH] using Object3D_nested_ind.
  - cbn [traverse meshes_of IfcModel.disposeObject app].
    induction IH as [|child rest Hchild _ IHrest]; [reflexivity|].
    cbn [flat_map]. rewrite flat_map_app, Hchild, IHrest. reflexivity.
  - cbn [traverse meshes_of flat_map]. rewrite disposeObject_releases.
    f_equal.
    induction IH as [|child rest Hchild _ IHrest]; [reflexivity|].
    cbn [flat_map]. rewrite flat_map_app, Hchild, IHrest. reflexivity.
Qed.

(** X13: the first [dispose()] of a model makes exactly these calls: for
    every mesh at or below the group, in traversal order, one
    [geometry.dispose()] if it has a geometry, followed by one
    [dispose()] per material of its slot.  Nodes that are not meshes
    release nothing, and nothing is released twice unless it is attached
    twice. *)
Theorem dispose_releases_exactly_the_meshes_resources (model : IfcModel.t) :
  IfcModel._disposed model = false ->
  snd (IfcModel.dispose model)
  = flat_map releasesOf (meshes_of (IfcModel._modelGroup model)).
Proof.
  intros Hlive. unfold IfcModel.dispose. rewrite Hlive. cbn [snd].
  apply traverse_disposeObject.
Qed.

Lemma dispose_releases_exactly_the_meshes_resources_witness :
  List.length (snd (IfcModel.dispose scenarioModel)) = 4.
Proof.
  rewrite (dispose_releases_exactly_the_meshes_resources scenarioModel eq_refl).
  vm_compute. reflexivity.
Defined.

Lemma releases_of_built meshes :
  (forall mesh, In mesh meshes ->
     exists flatMesh placedGeometry verts indices,
       mesh = buildMesh flatMesh placedGeometry verts indices) ->
  List.length (flat_map releasesOf meshes) = 2 * List.length meshes.
Proof.
  induction meshes as [|mesh rest IH]; intros H; [reflexivity|].
  cbn [flat_map]. rewrite length_app, IH by (intros m Hm; apply H; now right).
  destruct (H mesh (or_introl eq_refl)) as (fm & pg & verts & indices & ->).
  cbn. lia.
Qed.

(** X14: disposing a model that [loadIfcFile] returned releases exactly
    one geometry and one material per mesh, that is twice
    [metadata.meshCount] resources; afterwards the group is empty while
    the metadata still reports the original counts. *)
Theorem disposing_a_loaded_model_releases_two_per_mesh
    host file onProgress w model w' :
  loadIfcFile host file onProgress w = (Normal model, w') ->
  let disposed := fst (IfcModel.dispose model) in
  List.length (snd (IfcModel.dispose model))
    = 2 * meshCount (IfcModel._metadata model)
  /\ meshes_of (IfcModel._modelGroup disposed) = []
  /\ IfcModel.get_metadata disposed = Normal (IfcModel._metadata model).
Proof.
  intros H.
  destruct (returned_model_of_meshes _ _ _ _ H)
    as (meshes0 & Hmeshes0 & _ & Hcount & _).
  rewrite <- Hmeshes0 in Hcount.
  destruct (loadIfcFile_returns _ _ _ _ H)
    as (data & api & modelID & meshes & w4 & _ & _ & _ & Hgen & Hmodel & _).
  destruct (generateGeometry_returns _ _ _ Hgen) as (flatMeshes & _ & Hmeshes).
  assert (Hlive : IfcModel._disposed model = false) by now rewrite Hmodel.
  cbn zeta. split; [|split].
  - unfold IfcModel.dispose. rewrite Hlive. cbn [snd].
    rewrite traverse_disposeObject, Hcount.
    apply releases_of_built.
    rewrite Hmodel. cbn [assembled IfcModel.new IfcModel._modelGroup modelGroup].
    rewrite meshes_of_added. cbn [flat_map app]. rewrite Hmeshes.
    apply meshesOfDocument_built.
  - unfold IfcModel.dispose. rewrite Hlive. cbn [fst IfcModel._modelGroup].
    rewrite Hmodel. cbn [assembled IfcModel.new IfcModel._modelGroup modelGroup].
    rewrite group_of_added. reflexivity.
  - unfold IfcModel.dispose. rewrite Hlive. reflexivity.
Qed.

Lemma disposing_a_loaded_model_releases_two_per_mesh_witness :
  exists model w',
    loadIfcFile (workingHost scenarioDocument) sampleFile None readyWorld
      = (Normal model, w')
    /\ List.length (snd (IfcModel.dispose model)) = 4.
Proof.
  assert (E : exists model w',
             loadIfcFile (workingHost scenarioDocument) sampleFile None readyWorld
               = (Normal model, w')
             /\ meshCount (IfcModel._metadata model) = 2).
  { vm_compute. eexists. eexists. split; reflexivity. }
  destruct E as (model & w' & E & Hcount).
  destruct (disposing_a_loaded_model_releases_two_per_mesh _ _ _ _ E) as (Hlen & _).
  exists model, w'. split; [exact E|]. rewrite Hlen, Hcount. reflexivity.
Defined.

(* ================================================================== *)
(** * The logger *)
(* ================================================================== *)

Section LoggerFacts.

Variable toLowerCase : string -> string.
Variable environment : Logger.Environment.

Lemma getLogLevelFromString_below_None name :
  Logger.levelNumber (Logger.getLogLevelFromString toLowerCase name) <= 3.
Proof.
  unfold Logger.getLogLevelFromString.
  repeat match goal with
         | |- context [if ?b then _ else _] => destruct b
         end; cbn; lia.
Qed.

Lemma log_keeps_minLevel now l msg ctx err st :
  Logger.minLevel (Logger.log environment now l msg ctx err st) = Logger.minLevel st.
Proof.
  unfold Logger.log.
  destruct (negb _ || _); reflexivity.
Qed.

Lemma runCalls_cons call rest st :
  Logger.runCalls environment (call :: rest) st
  = Logger.runCalls environment rest
      (Logger.log environment (Logger.timestamp call) (Logger.level call)
         (Logger.message call) (Logger.context call) (Logger.error call) st).
Proof. reflexivity. Qed.

Lemma recorded_cons threshold call rest :
  Logger.recorded environment threshold (call :: rest)
  = if Logger.enabled (Logger.logging environment)
       && negb (Logger.levelNumber (Logger.level call)
                <? Logger.levelNumber threshold)%nat
    then call :: Logger.recorded environment threshold rest
    else Logger.recorded environment threshold rest.
Proof. reflexivity. Qed.

Lemma runCalls_keeps_minLevel calls :
  forall st,
    Logger.minLevel (Logger.runCalls environment calls st) = Logger.minLevel st.
Proof.
  induction calls as [|call rest IH]; intros st; [reflexivity|].
  rewrite runCalls_cons, IH. apply log_keeps_minLevel.
Qed.

Lemma runCalls_app calls1 calls2 st :
  Logger.runCalls environment (calls1 ++ calls2) st
  = Logger.runCalls environment calls2 (Logger.runCalls environment calls1 st).
Proof. unfold Logger.runCalls. apply fold_left_app. Qed.

Lemma window_step (A : Type) (all : list A) (entry : A) :
  (let pushed := Logger.lastn Logger.maxHistorySize all ++ [entry] in
   if (Logger.maxHistorySize <? List.length pushed)%nat then tl pushed else pushed)
  = Logger.lastn Logger.maxHistorySize (all ++ [entry]).
Proof.
  unfold Logger.lastn, Logger.maxHistorySize. cbn zeta.
  rewrite !length_app, length_skipn. cbn [List.length].
  destruct (Nat.le_gt_cases 100 (List.length all)) as [Hbig|Hsmall].
  - replace (100 <? List.length all - (List.length all - 100) + 1)%nat with true
      by (symmetry; apply Nat.ltb_lt; lia).
    replace (List.length all + 1 - 100) with (S (List.length all - 100)) by lia.
    rewrite (skipn_app (S (List.length all - 100))).
    replace (S (List.length all - 100) - List.length all) with 0 by lia.
    cbn [skipn].
    assert (Hskip : forall n (l : list A), n < List.length l ->
              tl (skipn n l ++ [entry]) = skipn (S n) l ++ [entry]).
    { intros n. induction n as [|n IHn]; intros [|a l] Hl; cbn in Hl; try lia.
      - reflexivity.
      - cbn [skipn]. apply IHn. lia. }
    apply Hskip. lia.
  - replace (List.length all - 100) with 0 by lia.
    replace (List.length all + 1 - 100) with 0 by lia. cbn [skipn].
    replace (100 <? List.length all - 0 + 1)%nat with false
      by (symmetry; apply Nat.ltb_ge; lia).
    reflexivity.
Qed.

Lemma runCalls_history calls :
  forall st all,
    Logger.logHistory st = Logger.lastn Logger.maxHistorySize all ->
    Logger.logHistory (Logger.runCalls environment calls st)
    = Logger.lastn Logger.maxHistorySize
        (all ++ Logger.recorded environment (Logger.minLevel st) calls).
Proof.
  induction calls as [|call rest IH]; intros st all Hst.
  - cbn. now rewrite app_nil_r.
  - rewrite runCalls_cons, recorded_cons.
    destruct call as [t l m c e].
    cbn [Logger.timestamp Logger.level Logger.message Logger.context Logger.error].
    unfold Logger.log.
    destruct (Logger.enabled (Logger.logging environment)); cbn [negb orb andb].
    + destruct (Logger.levelNumber l <? Logger.levelNumber (Logger.minLevel st))%nat;
        cbn [negb].
      * apply (IH st all Hst).
      * cbn zeta.
        match goal with
        | |- Logger.logHistory (Logger.runCalls environment rest ?st1) = _ =>
            rewrite (IH st1 (all ++ [Logger.mkEntry t l m c e]))
        end.
        -- cbn [Logger.minLevel]. now rewrite <- app_assoc.
        -- cbn [Logger.logHistory]. rewrite Hst. apply window_step.
    + apply (IH st all Hst).
Qed.

(** X15: the history of a logger holds the most recent 100 calls that
    passed the filter (logging enabled, level not below the configured
    one), oldest first, whatever was logged: the array never grows
    beyond [maxHistorySize] and it is always the oldest entry that is
    dropped. *)
Theorem history_is_the_last_hundred_recorded_calls (calls : list Logger.LogEntry) :
  Logger.getHistory
    (Logger.runCalls environment calls (Logger.new toLowerCase environment))
  = Logger.lastn Logger.maxHistorySize
      (Logger.recorded environment
         (Logger.minLevel (Logger.new toLowerCase environment)) calls)
  /\ List.length
       (Logger.getHistory
          (Logger.runCalls environment calls (Logger.new toLowerCase environment)))
     <= Logger.maxHistorySize.
Proof.
  assert (H : Logger.getHistory
                (Logger.runCalls environment calls
                   (Logger.new toLowerCase environment))
              = Logger.lastn Logger.maxHistorySize
                  (Logger.recorded environment
                     (Logger.minLevel (Logger.new toLowerCase environment)) calls)).
  { unfold Logger.getHistory.
    rewrite (runCalls_history calls (Logger.new toLowerCase environment) []);
      reflexivity. }
  split; [exact H|].
  rewrite H. unfold Logger.lastn. rewrite length_skipn. lia.
Qed.

Lemma runCalls_outputs calls :
  forall st,
    Logger.console (Logger.runCalls environment calls st)
    = Logger.console st
      ++ flat_map Logger.logToConsole
           (Logger.recorded environment (Logger.minLevel st) calls)
    /\ Logger.posted (Logger.runCalls environment calls st)
       = Logger.posted st
         ++ (if Logger.sendToServer (Logger.logging environment)
                && Logger.truthy (Logger.apiUrl environment)
             then filter Logger.severe
                    (Logger.recorded environment (Logger.minLevel st) calls)
             else []).
Proof.
  induction calls as [|call rest IH]; intros st.
  - cbn. rewrite !app_nil_r.
    destruct (_ && _); now rewrite ?app_nil_r.
  - rewrite runCalls_cons, recorded_cons.
    match goal with
    | |- context [Logger.runCalls environment rest ?st1] =>
        destruct (IH st1) as [Hc Hp]
    end.
    rewrite Hc, Hp, log_keeps_minLevel. clear Hc Hp.
    unfold Logger.log, Logger.sendToServer_, Logger.severe.
    destruct call as [t l m c e].
    cbn [Logger.timestamp Logger.level Logger.message Logger.context Logger.error].
    destruct (Logger.enabled (Logger.logging environment)); cbn [negb orb andb].
    + destruct (Logger.levelNumber l <? Logger.levelNumber (Logger.minLevel st))%nat;
        cbn [negb Logger.console Logger.posted].
      * split; reflexivity.
      * split; [cbn [flat_map]; now rewrite <- app_assoc|].
        destruct (Logger.sendToServer (Logger.logging environment));
          cbn [andb filter Logger.level];
          destruct (Logger.truthy (Logger.apiUrl environment));
          destruct (Logger.levelNumber LogLevel.Error <=? Logger.levelNumber l)%nat;
          cbn [andb]; rewrite <- ?app_assoc, ?app_nil_r; reflexivity.
    + split; reflexivity.
Qed.

(** X16: everything that passes the filter is printed on the console by
    [log] - one line per call, in order, also when it has long left the
    history - and is posted to the server only if it is of level
    [Error], sending is switched on and an [apiUrl] is configured (an
    empty one counts as none). *)
Theorem logger_prints_all_and_posts_only_errors (calls : list Logger.LogEntry) :
  Logger.console
    (Logger.runCalls environment calls (Logger.new toLowerCase environment))
  = flat_map Logger.logToConsole
      (Logger.recorded environment
         (Logger.minLevel (Logger.new toLowerCase environment)) calls)
  /\ Logger.posted
       (Logger.runCalls environment calls (Logger.new toLowerCase environment))
     = (if Logger.sendToServer (Logger.logging environment)
           && Logger.truthy (Logger.apiUrl environment)
        then filter Logger.severe
               (Logger.recorded environment
                  (Logger.minLevel (Logger.new toLowerCase environment)) calls)
        else []).
Proof.
  destruct (runCalls_outputs calls (Logger.new toLowerCase environment)) as [Hc Hp].
  split; [exact Hc | exact Hp].
Qed.

Lemma runCalls_disabled calls :
  Logger.enabled (Logger.logging environment) = false ->
  forall st, Logger.runCalls environment calls st = st.
Proof.
  intros Hoff. induction calls as [|call rest IH]; intros st; [reflexivity|].
  rewrite runCalls_cons. unfold Logger.log. rewrite Hoff. cbn [negb orb]. apply IH.
Qed.

(** X17: with logging enabled, a call of [error] is recorded whatever
    level name the environment configures - no name makes the threshold
    exceed [Error], unknown names mean [Info]: the entry becomes the
    newest of the history and one [console.error] line is printed. *)
Theorem error_calls_pass_every_configured_level
    (calls : list Logger.LogEntry) now msg err ctx :
  Logger.enabled (Logger.logging environment) = true ->
  let before :=
    Logger.runCalls environment calls (Logger.new toLowerCase environment) in
  let after := Logger.error_ environment now msg err ctx before in
  exists kept line,
    Logger.getHistory after
    = kept ++ [Logger.mkEntry now LogLevel.Error msg ctx err]
    /\ Logger.console after
       = Logger.console before ++ [Logger.mkConsoleCall Logger.console_error line err].
Proof.
  intros Hon before after.
  assert (Hmin : Logger.levelNumber (Logger.minLevel before) <= 3).
  { unfold before. rewrite runCalls_keeps_minLevel.
    apply getLogLevelFromString_below_None. }
  assert (Hpass : (Logger.levelNumber LogLevel.Error
                   <? Logger.levelNumber (Logger.minLevel before))%nat = false).
  { apply Nat.ltb_ge. cbn. exact Hmin. }
  unfold after, Logger.error_, Logger.log, Logger.getHistory.
  rewrite Hon, Hpass. cbn [negb orb Logger.logHistory Logger.console].
  destruct (Logger.maxHistorySize <? _)%nat eqn:Hfull.
  - destruct (Logger.logHistory before) as [|oldest others] eqn:Hh.
    + cbn in Hfull. discriminate Hfull.
    + exists others. eexists. cbn [app tl]. split; reflexivity.
  - exists (Logger.logHistory before). eexists. split; reflexivity.
Qed.

End LoggerFacts.

Lemma error_calls_pass_every_configured_level_witness :
  exists kept line,
    Logger.getHistory
      (Logger.error_ prodEnvironment 7 "Failed to load IFC file" None
                     (Some "IfcLoaderService")
                     (Logger.runCalls prodEnvironment []
                                      (Logger.new asciiLower prodEnvironment)))
    = kept ++ [Logger.mkEntry 7 LogLevel.Error "Failed to load IFC file"
                              (Some "IfcLoaderService") None]
    /\ Logger.console
         (Logger.error_ prodEnvironment 7 "Failed to load IFC file" None
                        (Some "IfcLoaderService")
                        (Logger.runCalls prodEnvironment []
                                         (Logger.new asciiLower prodEnvironment)))
       = Logger.console (Logger.runCalls prodEnvironment []
                                         (Logger.new asciiLower prodEnvironment))
         ++ [Logger.mkConsoleCall Logger.console_error line None].
Proof.
  apply (@error_calls_pass_every_configured_level asciiLower prodEnvironment
           [] 7 "Failed to load IFC file" None (Some "IfcLoaderService")).
  reflexivity.
Defined.

(* ================================================================== *)
(** * Typed errors in full *)
(* ================================================================== *)

Lemma defaultMessages_not_empty code : defaultMessages code <> "".
Proof. destruct code; discriminate. Qed.

Lemma getDefaultUserMessage_table code :
  getDefaultUserMessage code = defaultMessages code.
Proof. destruct code; reflexivity. Qed.

(** The abbreviations used for thrown values agree with the constructors
    of the three subclasses. *)
Lemma subclass_constructors_agree message original context :
  thrown (new_IfcLoadError message original (Some context))
    = IfcLoadError message original context
  /\ thrown (new_WasmLoadError message original (Some context))
     = WasmLoadError message original context
  /\ thrown (new_ViewerInitError message original (Some context))
     = ViewerInitError message original context.
Proof. repeat split. Qed.

(** X18: every [AppError] has a user message that is not empty: the one
    given to the constructor if that is a non-empty string, and
    otherwise - no message or the empty string - the default text of the
    error's code.  The three subclasses never pass one, so their user
    message is always the default of their code. *)
Theorem every_AppError_has_a_user_message details :
  userMessage (new_AppError details) <> ""
  /\ (Logger.truthy (details_userMessage details) = false ->
      userMessage (new_AppError details) = defaultMessages (details_code details))
  /\ (forall text, details_userMessage details = Some text -> text <> "" ->
      userMessage (new_AppError details) = text)
  /\ (forall message original context,
        userMessage (new_IfcLoadError message original context)
          = defaultMessages IFC_LOAD_FAILED
        /\ userMessage (new_WasmLoadError message original context)
           = defaultMessages WASM_LOAD_FAILED
        /\ userMessage (new_ViewerInitError message original context)
           = defaultMessages VIEWER_INIT_FAILED).
Proof.
  unfold new_AppError. cbn [userMessage].
  destruct (details_userMessage details) as [text|] eqn:Hm; cbn [Logger.truthy].
  - destruct (String.eqb text "") eqn:He; cbn [negb].
    + apply String.eqb_eq in He. subst text.
      rewrite getDefaultUserMessage_table.
      split; [apply defaultMessages_not_empty|]. split; [reflexivity|].
      split; [|repeat split].
      intros text Ht Hne. injection Ht as <-. now destruct Hne.
    + apply String.eqb_neq in He.
      split; [exact He|]. split; [intros H; discriminate H|].
      split; [|repeat split].
      intros text' Ht _. now injection Ht.
  - rewrite getDefaultUserMessage_table.
    split; [apply defaultMessages_not_empty|]. split; [reflexivity|].
    split; [|repeat split].
    intros text Ht. discriminate Ht.
Qed.

(* ================================================================== *)
(** * The error handler *)
(* ================================================================== *)

Lemma normalizeError_has_code (error : ErrorHandler.Unknown) normal :
  ErrorHandler.normalizeError error = Normal normal ->
  exists code, exn_code normal = Some code.
Proof.
  destruct error as [[m|m|m|name code m r ctx orig]|[text|e]]; cbn;
    intros H; try discriminate H; injection H as <-; eexists; reflexivity.
Qed.

(** X19: [normalizeError] throws exactly when it is given a value that
    is not an error and whose conversion to a string throws, and then it
    throws what the conversion threw.  In every other case it returns an
    [AppError]: an [AppError] is returned as it is, any other error
    becomes a recoverable [UNKNOWN_ERROR] with the same message that
    keeps the error as [originalError], and a value that is not an error
    becomes a recoverable [UNKNOWN_ERROR] whose message is the value as a
    string.  Normalizing a result again returns it unchanged. *)
Theorem normalizeError_wraps_once (error : ErrorHandler.Unknown) :
  ((exists raised, ErrorHandler.normalizeError error = Throw raised)
   <-> (exists raised, error = ErrorHandler.Other (Throw raised)))
  /\ match ErrorHandler.normalizeError error with
     | Throw raised => error = ErrorHandler.Other (Throw raised)
     | Normal normal =>
         (exists code, exn_code normal = Some code)
         /\ ErrorHandler.normalizeError (ErrorHandler.AnError normal)
            = Normal normal
         /\ match error with
            | ErrorHandler.AnError e =>
                exn_message normal = exn_message e
                /\ (exn_code e <> None -> normal = e)
                /\ (exn_code e = None ->
                    exn_code normal = Some UNKNOWN_ERROR
                    /\ exn_recoverable normal = Some true
                    /\ exn_original normal = Some e)
            | ErrorHandler.Other conversion =>
                conversion = Normal (exn_message normal)
                /\ exn_code normal = Some UNKNOWN_ERROR
                /\ exn_recoverable normal = Some true
                /\ exn_original normal = None
            end
     end.
Proof.
  split.
  - split.
    + intros [raised H].
      destruct error as [[m|m|m|name code m r ctx orig]|[text|e]];
        try discriminate H.
      now exists e.
    + intros [raised ->]. now exists raised.
  - destruct error as [[m|m|m|name code m r ctx orig]|[text|e]]; cbn;
      try reflexivity;
      (split; [eexists; reflexivity|]); (split; [reflexivity|]);
      repeat match goal with
             | |- _ /\ _ => split
             | |- _ = None -> _ => let H := fresh in intros H; try discriminate H
             | |- _ <> _ -> _ => let H := fresh in intros H; try now destruct H
             end;
      reflexivity.
Qed.

Lemma notifyListeners_from error listeners :
  forall st,
    ErrorHandler.errorListeners
      (fold_left (ErrorHandler.notifyOne error) listeners st)
    = ErrorHandler.errorListeners st
    /\ ErrorHandler.logged (fold_left (ErrorHandler.notifyOne error) listeners st)
       = ErrorHandler.logged st
    /\ ErrorHandler.calls (fold_left (ErrorHandler.notifyOne error) listeners st)
       = ErrorHandler.calls st
         ++ map (fun l => (ErrorHandler.identity l, error)) listeners
    /\ ErrorHandler.consoleErrors
         (fold_left (ErrorHandler.notifyOne error) listeners st)
       = ErrorHandler.consoleErrors st ++ thrownBy error listeners.
Proof.
  induction listeners as [|l rest IH]; intros st; cbn [fold_left].
  - cbn. now rewrite !app_nil_r.
  - destruct (IH (ErrorHandler.notifyOne error st l)) as (H1 & H2 & H3 & H4).
    rewrite H1, H2, H3, H4. unfold thrownBy, ErrorHandler.notifyOne.
    cbn [flat_map map].
    destruct (ErrorHandler.reaction l error);
      cbn [ErrorHandler.errorListeners ErrorHandler.logged ErrorHandler.calls
           ErrorHandler.consoleErrors app];
      rewrite <- ?app_assoc; repeat split; reflexivity.
Qed.

(** X20: when the value it is given can be normalized, [handleError]
    returns, having called [logger.error] once with the normalized error
    and then every registered listener exactly once, in the order of
    registration, with that error - also the listeners that come after
    one that throws.  What listeners throw ends on the console and
    nowhere else, and the registrations are unchanged.  When the
    conversion of the value to a string throws, [handleError] throws the
    same exception and has done nothing: no call of [logger.error], no
    listener called.  (Listeners are taken not to subscribe or
    unsubscribe while they are being notified.) *)
Theorem handleError_notifies_every_listener (error : ErrorHandler.Unknown)
    (st : ErrorHandler.State) :
  match ErrorHandler.normalizeError error with
  | Throw raised => ErrorHandler.handleError error st = (Throw raised, st)
  | Normal normal =>
      let st' := snd (ErrorHandler.handleError error st) in
      fst (ErrorHandler.handleError error st) = Normal tt
      /\ ErrorHandler.calls st'
         = ErrorHandler.calls st
           ++ map (fun l => (ErrorHandler.identity l, normal))
                  (ErrorHandler.errorListeners st)
      /\ ErrorHandler.consoleErrors st'
         = ErrorHandler.consoleErrors st
           ++ thrownBy normal (ErrorHandler.errorListeners st)
      /\ ErrorHandler.errorListeners st' = ErrorHandler.errorListeners st
      /\ exists entry,
           ErrorHandler.logged st' = ErrorHandler.logged st ++ [entry]
           /\ ErrorHandler.logged_message entry = exn_message normal
           /\ exn_code normal = Some (ErrorHandler.logged_code entry)
  end.
Proof.
  unfold ErrorHandler.handleError.
  pose proof (normalizeError_has_code error) as Hnormal.
  destruct (ErrorHandler.normalizeError error) as [normal|raised];
    [|reflexivity].
  destruct (Hnormal normal eq_refl) as [code Hcode].
  cbn zeta. cbn [fst snd]. split; [reflexivity|].
  unfold ErrorHandler.notifyListeners. cbn [ErrorHandler.errorListeners].
  match goal with
  | |- context [fold_left _ (ErrorHandler.errorListeners st) ?st1] =>
      destruct (notifyListeners_from normal
                  (ErrorHandler.errorListeners st) st1) as (H1 & H2 & H3 & H4)
  end.
  cbn [ErrorHandler.errorListeners ErrorHandler.logged ErrorHandler.calls
       ErrorHandler.consoleErrors] in H1, H2, H3, H4.
  rewrite H1, H2, H3, H4.
  repeat split. eexists. split; [reflexivity|]. split; [reflexivity|].
  cbn [ErrorHandler.logged_code]. rewrite Hcode. reflexivity.
Qed.

Lemma indexOf_None_registrations listener listeners :
  ErrorHandler.indexOf listener listeners = None <->
  registrations listener listeners = 0.
Proof.
  unfold registrations.
  induction listeners as [|l rest IH]; cbn [ErrorHandler.indexOf filter].
  - split; reflexivity.
  - destruct (Nat.eqb (ErrorHandler.identity l) (ErrorHandler.identity listener)).
    + split; intros H; discriminate H.
    + destruct (ErrorHandler.indexOf listener rest); cbn [option_map].
      * split; [intros H; discriminate H|].
        intros H. apply IH in H. discriminate H.
      * split; [intros _; now apply IH | reflexivity].
Qed.

Lemma splice1_at_indexOf listener listeners :
  forall index,
    ErrorHandler.indexOf listener listeners = Some index ->
    registrations listener (ErrorHandler.splice1 index listeners)
      = registrations listener listeners - 1
    /\ forall other,
         ErrorHandler.identity other <> ErrorHandler.identity listener ->
         registrations other (ErrorHandler.splice1 index listeners)
           = registrations other listeners.
Proof.
  unfold registrations.
  induction listeners as [|l rest IH]; intros index Hindex;
    cbn [ErrorHandler.indexOf] in Hindex; [discriminate Hindex|].
  destruct (Nat.eqb (ErrorHandler.identity l) (ErrorHandler.identity listener))
    eqn:Hid.
  - injection Hindex as <-. cbn [ErrorHandler.splice1 filter]. rewrite Hid.
    cbn [List.length]. split; [lia|].
    intros other Hother.
    apply Nat.eqb_eq in Hid. rewrite Hid.
    replace (Nat.eqb (ErrorHandler.identity listener) (ErrorHandler.identity other))
      with false by (symmetry; apply Nat.eqb_neq; congruence).
    reflexivity.
  - destruct (ErrorHandler.indexOf listener rest) as [k|] eqn:Hrest;
      [|discriminate Hindex].
    cbn [option_map] in Hindex. injection Hindex as <-.
    destruct (IH k eq_refl) as [Hone Hothers].
    cbn [ErrorHandler.splice1 filter]. rewrite Hid. split; [exact Hone|].
    intros other Hother. specialize (Hothers other Hother).
    destruct (Nat.eqb (ErrorHandler.identity l) (ErrorHandler.identity other));
      cbn [List.length]; lia.
Qed.

Lemma unsubscribe_after_onError listener (listeners : list ErrorHandler.Listener) :
  registrations listener listeners = 0 ->
  exists index,
    ErrorHandler.indexOf listener (listeners ++ [listener]) = Some index
    /\ ErrorHandler.splice1 index (listeners ++ [listener]) = listeners.
Proof.
  unfold registrations.
  induction listeners as [|l rest IH]; intros Hnone.
  - exists 0. cbn. rewrite Nat.eqb_refl. split; reflexivity.
  - cbn [filter] in Hnone. cbn [app ErrorHandler.indexOf].
    destruct (Nat.eqb (ErrorHandler.identity l) (ErrorHandler.identity listener));
      [discriminate Hnone|].
    destruct (IH Hnone) as (k & Hk & Hs).
    exists (S k). rewrite Hk. cbn [option_map ErrorHandler.splice1].
    split; [reflexivity | now rewrite Hs].
Qed.

Lemma splice1_removes_first listener listeners :
  forall index,
    ErrorHandler.indexOf listener listeners = Some index ->
    exists before first after,
      listeners = before ++ first :: after
      /\ ErrorHandler.identity first = ErrorHandler.identity listener
      /\ registrations listener before = 0
      /\ ErrorHandler.splice1 index listeners = before ++ after.
Proof.
  unfold registrations.
  induction listeners as [|l rest IH]; intros index Hindex;
    cbn [ErrorHandler.indexOf] in Hindex; [discriminate Hindex|].
  destruct (Nat.eqb (ErrorHandler.identity l) (ErrorHandler.identity listener))
    eqn:Hid.
  - injection Hindex as <-. exists [], l, rest.
    apply Nat.eqb_eq in Hid. repeat split; assumption.
  - destruct (ErrorHandler.indexOf listener rest) as [k|] eqn:Hrest;
      [|discriminate Hindex].
    cbn [option_map] in Hindex. injection Hindex as <-.
    destruct (IH k eq_refl) as (before & first & after & -> & Hf & Hb & Hs).
    exists (l :: before), first, after.
    cbn [app filter ErrorHandler.splice1]. rewrite Hid, Hs.
    repeat split; assumption.
Qed.

(** X21: the function that [onError] returns removes one registration of
    its listener - the oldest one - and no registration of any other
    listener; when the listener is not registered (any more) it does
    nothing, so calling it twice is harmless.  If the listener was not
    registered before [onError], subscribing and unsubscribing restores
    the handler exactly. *)
Theorem unsubscribe_removes_one_registration
    (listener : ErrorHandler.Listener) (st : ErrorHandler.State) :
  let st' := ErrorHandler.unsubscribe listener st in
  registrations listener (ErrorHandler.errorListeners st')
    = registrations listener (ErrorHandler.errorListeners st) - 1
  /\ (forall other,
        ErrorHandler.identity other <> ErrorHandler.identity listener ->
        registrations other (ErrorHandler.errorListeners st')
          = registrations other (ErrorHandler.errorListeners st))
  /\ (registrations listener (ErrorHandler.errorListeners st) = 0 ->
      st' = st
      /\ ErrorHandler.unsubscribe listener (ErrorHandler.onError listener st) = st)
  /\ (registrations listener (ErrorHandler.errorListeners st) = 1 ->
      ErrorHandler.unsubscribe listener st' = st')
  /\ (registrations listener (ErrorHandler.errorListeners st) <> 0 ->
      exists before first after,
        ErrorHandler.errorListeners st = before ++ first :: after
        /\ ErrorHandler.identity first = ErrorHandler.identity listener
        /\ registrations listener before = 0
        /\ ErrorHandler.errorListeners st' = before ++ after).
Proof.
  cbn zeta. unfold ErrorHandler.unsubscribe.
  destruct (ErrorHandler.indexOf listener (ErrorHandler.errorListeners st))
    as [index|] eqn:Hindex.
  - destruct (splice1_at_indexOf listener (ErrorHandler.errorListeners st) Hindex)
      as [Hone Hothers].
    cbn [ErrorHandler.errorListeners].
    split; [exact Hone|]. split; [exact Hothers|]. split.
    + intros Hnone. apply indexOf_None_registrations in Hnone.
      rewrite Hnone in Hindex. discriminate Hindex.
    + split.
      * intros Hsingle.
        assert (Hgone : ErrorHandler.indexOf listener
                          (ErrorHandler.splice1 index (ErrorHandler.errorListeners st))
                        = None).
        { apply indexOf_None_registrations. rewrite Hone, Hsingle. reflexivity. }
        now rewrite Hgone.
      * intros _.
        apply (splice1_removes_first listener (ErrorHandler.errorListeners st) Hindex).
  - pose proof (proj1 (indexOf_None_registrations listener
                         (ErrorHandler.errorListeners st)) Hindex) as Hnone.
    split; [rewrite Hnone; reflexivity|]. split; [reflexivity|]. split.
    + intros _. split; [reflexivity|].
      destruct (unsubscribe_after_onError listener
                  (ErrorHandler.errorListeners st) Hnone) as (k & Hk & Hs).
      cbn [ErrorHandler.onError ErrorHandler.errorListeners
           ErrorHandler.logged ErrorHandler.calls ErrorHandler.consoleErrors].
      rewrite Hk, Hs. destruct st; reflexivity.
    + split.
      * intros Hsingle. rewrite Hnone in Hsingle. discriminate Hsingle.
      * intros Hsome. now destruct Hsome.
Qed.

Lemma unsubscribe_removes_one_registration_witness :
  let first := ErrorHandler.mkListener 1 (fun _ => None) in
  let second := ErrorHandler.mkListener 2 (fun e => Some e) in
  let st := ErrorHandler.onError first
              (ErrorHandler.onError second
                 (ErrorHandler.onError first ErrorHandler.new)) in
  ErrorHandler.errorListeners (ErrorHandler.unsubscribe first st) = [second; first]
  /\ ErrorHandler.unsubscribe second
       (ErrorHandler.onError second ErrorHandler.new) = ErrorHandler.new.
Proof.
  intros first second st.
  destruct (unsubscribe_removes_one_registration first st)
    as (_ & _ & _ & _ & Hfirst).
  destruct (unsubscribe_removes_one_registration second ErrorHandler.new)
    as (_ & _ & Hround & _).
  split.
  - destruct Hfirst as (before & l0 & after & Hsplit & _ & Hnone & Hrest).
    + discriminate.
    + rewrite Hrest.
      destruct before as [|b before].
      * cbn in Hsplit. injection Hsplit as _ <-. reflexivity.
      * cbn in Hsplit. injection Hsplit as <- _. discriminate Hnone.
  - apply Hround. reflexivity.
Defined.

Lemma every_AppError_has_a_user_message_witness :
  userMessage
    (new_AppError (mkDetails FILE_TOO_LARGE "413" (Some "") true None None))
  = "File is too large. Please select a smaller file."
  /\ userMessage
       (new_AppError (mkDetails FILE_TOO_LARGE "413" (Some "Pick a smaller file")
                                true None None))
     = "Pick a smaller file".
Proof.
  destruct (every_AppError_has_a_user_message
              (mkDetails FILE_TOO_LARGE "413" (Some "") true None None))
    as (_ & Hdefault & _).
  destruct (every_AppError_has_a_user_message
              (mkDetails FILE_TOO_LARGE "413" (Some "Pick a smaller file")
                         true None None))
    as (_ & _ & Hgiven & _).
  split.
  - apply Hdefault. reflexivity.
  - apply (Hgiven "Pick a smaller file"); [reflexivity | discriminate].
Defined.

Lemma normalizeError_wraps_once_witness :
  ErrorHandler.normalizeError
    (ErrorHandler.AnError (TypeError "x is not a function"))
  = Normal (AppError "AppError" UNKNOWN_ERROR "x is not a function" true []
                     (Some (TypeError "x is not a function")))
  /\ ErrorHandler.normalizeError
       (ErrorHandler.AnError (IfcLoadError "IFC Loader not initialized" None []))
     = Normal (IfcLoadError "IFC Loader not initialized" None [])
  /\ exists raised,
       ErrorHandler.normalizeError
         (ErrorHandler.Other
            (Throw (TypeError "Cannot convert object to primitive value")))
       = Throw raised.
Proof.
  destruct (normalizeError_wraps_once
              (ErrorHandler.Other
                 (Throw (TypeError "Cannot convert object to primitive value"))))
    as [[_ Hthrows] _].
  split; [reflexivity|]. split; [reflexivity|].
  apply Hthrows. eexists. reflexivity.
Defined.
